(** * company-db: document-to-record normalisation pipeline

    A shallow embedding of the Apps Script sources under [src/company-db]
    (parse-company.js in its two revisions, save-to-db.js, main.js) and of the
    database write utility, followed by the properties of the specification
    that were checked against them and by further properties of the code.

    Conventions of the embedding.
    - A JavaScript string is the list of its UTF-16 code units.
    - A JavaScript number is an IEEE-754 binary64 float.
    - A JavaScript object is an association list in property order; reading
      a missing property gives [VUndef].
    - Effects (classifier calls, the UUID source, the clock, the logger and
      the spreadsheet) are threaded through an explicit [World]; exceptions
      are the [Throw] outcome of a computation. *)

From Stdlib Require Import Floats ZArith NArith List String Ascii Bool Lia DecimalString.
From stdpp Require Import base list.

Set Warnings "-inexact-float,-register-all".
Open Scope string_scope.
Open Scope list_scope.
Open Scope nat_scope.

(** ** JavaScript strings *)

Definition jsstring := list N.

Definition js (s : string) : jsstring := map N_of_ascii (list_ascii_of_string s).
Arguments js s%_string.

(** Decimal rendering of a non-negative integer, as template literals print it. *)
Definition dec (n : N) : jsstring := js (NilEmpty.string_of_uint (N.to_uint n)).

(** ECMAScript LineTerminator code units: LF, CR, LS, PS. *)
Definition is_line_terminator (c : N) : bool :=
  (c =? 10)%N || (c =? 13)%N || (c =? 8232)%N || (c =? 8233)%N.

(** ECMAScript WhiteSpace and LineTerminator code units: what
    [String.prototype.trim] strips and what the regular expression class
    [\s] matches. *)
Definition is_whitespace (c : N) : bool :=
  (c =? 9)%N || (c =? 11)%N || (c =? 12)%N || (c =? 32)%N || (c =? 160)%N
  || (c =? 5760)%N || ((8192 <=? c)%N && (c <=? 8202)%N)
  || (c =? 8239)%N || (c =? 8287)%N || (c =? 12288)%N || (c =? 65279)%N
  || is_line_terminator c.

Fixpoint trimStart (s : jsstring) : jsstring :=
  match s with
  | c :: s' => if is_whitespace c then trimStart s' else s
  | [] => []
  end.

(** [s.trim()] *)
Definition trim (s : jsstring) : jsstring := rev (trimStart (rev (trimStart s))).

Definition str_eqb (s t : jsstring) : bool := bool_decide (s = t).

(** The guard [!text || text.trim() === ''] on a string. *)
Definition is_blank (text : jsstring) : bool :=
  str_eqb text [] || str_eqb (trim text) [].

(** ** JavaScript values *)

Inductive value :=
| VUndef
| VNull
| VBool (b : bool)
| VNum (x : float)
| VStr (s : jsstring)
| VArr (items : list value)
| VObj (props : list (jsstring * value)).

Definition object := list (jsstring * value).

(** ToBoolean *)
Definition truthy (v : value) : bool :=
  match v with
  | VUndef | VNull => false
  | VBool b => b
  | VNum x => negb (PrimFloat.is_zero x || PrimFloat.is_nan x)
  | VStr s => negb (str_eqb s [])
  | VArr _ | VObj _ => true
  end.

(** Strict equality [===]. Arrays and objects compare by reference; in every
    use below the two operands come from different allocations, so they are
    never equal. *)
Definition strict_eq (a b : value) : bool :=
  match a, b with
  | VUndef, VUndef => true
  | VNull, VNull => true
  | VBool x, VBool y => Bool.eqb x y
  | VNum x, VNum y => PrimFloat.eqb x y
  | VStr s, VStr t => str_eqb s t
  | _, _ => false
  end.

(** Own-property lookup on an association list. *)
Fixpoint lookup_prop (k : jsstring) (o : object) : option value :=
  match o with
  | [] => None
  | (k', v) :: o' => if str_eqb k k' then Some v else lookup_prop k o'
  end.

Definition keys (o : object) : list jsstring := map fst o.

(** [o.k] and [o[k]] on an object, for a key that names no member of
    [Object.prototype]. *)
Definition obj_get (o : object) (k : jsstring) : value :=
  default VUndef (lookup_prop k o).

Definition prop (o : object) (k : string) : value := obj_get o (js k).

(** A float is integral when it is finite and, below 2^52 in magnitude,
    unchanged by adding and subtracting 2^52. *)
Definition float_isInteger (x : float) : bool :=
  let a := PrimFloat.abs x in
  if PrimFloat.ltb a 4503599627370496
  then PrimFloat.eqb (a + 4503599627370496 - 4503599627370496)%float a
  else negb (PrimFloat.is_nan x || PrimFloat.is_infinity x).

(** ** Exceptions and outcomes *)

Inductive exn :=
| Error (msg : jsstring)          (* [new Error(msg)] thrown by the scripts *)
| TypeError (what : string)       (* raised by the engine *)
| SyntaxError                     (* raised by [JSON.parse] *)
| RangeError (what : string)      (* raised by a spreadsheet range *)
| ServiceError (what : jsstring). (* raised by an Apps Script service *)

Inductive outcome (A : Type) :=
| Ok (a : A)
| Throw (e : exn).
Arguments Ok {A} a.
Arguments Throw {A} e.

Definition is_ok {A} (o : outcome A) : bool :=
  match o with Ok _ => true | Throw _ => false end.

(** Property read [v.k] for a data property name [k] that no built-in
    prototype defines (all names read by the scripts are of this kind):
    a TypeError on [undefined] and [null], the own property of an object,
    [undefined] on every other value. *)
Definition get_prop (v : value) (k : jsstring) : outcome value :=
  match v with
  | VUndef | VNull => Throw (TypeError "property read on undefined or null")
  | VObj o => Ok (obj_get o k)
  | _ => Ok VUndef
  end.

(** Indexed read [v[0]]. *)
Definition get_first (v : value) : outcome value :=
  match v with
  | VUndef | VNull => Throw (TypeError "property read on undefined or null")
  | VArr a => Ok (default VUndef (head a))
  | VStr s => Ok (match s with c :: _ => VStr [c] | [] => VUndef end)
  | VObj o => Ok (prop o "0")
  | _ => Ok VUndef
  end.

(** The control-flow part of [output.find(item => item.type === "message")]. *)
Fixpoint find_message_in (items : list value) : outcome value :=
  match items with
  | [] => Ok VUndef
  | item :: rest =>
      match get_prop item (js "type") with
      | Throw e => Throw e
      | Ok t => if strict_eq t (VStr (js "message")) then Ok item
                else find_message_in rest
      end
  end.

Definition find_message (output : value) : outcome value :=
  match output with
  | VUndef | VNull => Throw (TypeError "property read on undefined or null")
  | VArr items => find_message_in items
  | _ => Throw (TypeError "find is not a function")
  end.

(** ** Classifier requests and responses *)

(** A field of a strict JSON schema: [{ type: [t, "null"] }]. *)
Inductive field_type := TNumber | TInteger | TString.

Record Schema := mkSchema {
  properties : list (jsstring * field_type);
  required : list jsstring;
  additionalProperties : bool
}.

(** A prompt is a template literal of the source, named by [template], with
    the values of its interpolated expressions in order. *)
Record Prompt := mkPrompt {
  template : string;
  slots : list jsstring
}.

(** The request sent to [OPENAI_API_URL]: model [MODEL], [input] the prompt,
    [text.format] a strict [json_schema] named [schemaName]. *)
Record Request := mkRequest {
  input : Prompt;
  schemaName : jsstring;
  schema : Schema
}.

Record Response := mkResponse {
  getResponseCode : N;
  getContentText : jsstring
}.

(** ** The spreadsheet *)

(** A sheet is a grid of cell values as [getValues] returns them; a cell
    outside the stored rows, and an empty cell, read as the empty string. *)
Record Sheet := mkSheet {
  grid : list (list value);
  frozenRows : nat
}.

(** ** The Drive folders *)

Record File := mkFile { file_name : jsstring; file_id : jsstring }.

(** A subfolder of the master folder, with its files of type Google Docs. *)
Record Folder := mkFolder { folder_name : jsstring; folder_docs : list File }.

(** ** The platform *)

(** The services and built-ins the scripts call and do not define. *)
Record Platform := mkPlatform {
  (* [UrlFetchApp.fetch(OPENAI_API_URL, options)], given the requests sent
     before this one *)
  fetch : list Request -> Request -> outcome Response;
  (* [JSON.parse(v)]; [None] when it throws a SyntaxError *)
  JSON_parse : value -> option value;
  (* [JSON.stringify(v, null, 2)] *)
  JSON_stringify : value -> jsstring;
  (* [DocumentApp.openById(docId).getBody().getText()] *)
  getText : jsstring -> outcome jsstring;
  (* the n-th result of [Utilities.getUuid()] *)
  uuid_at : nat -> jsstring;
  (* the n-th result of [new Date().toISOString()] *)
  iso_at : nat -> jsstring;
  (* the value [getValues] reads back from a cell that was written [v] *)
  stored : value -> value;
  (* ToString on a value that is not a string *)
  ToString : value -> jsstring;
  (* ToNumber on a value that is not a number *)
  ToNumber : value -> float;
  (* [Math.round] *)
  Math_round : float -> float;
  (* the n-th result of [new Date().getFullYear()] *)
  year_at : nat -> float;
  (* [PropertiesService.getScriptProperties().getProperty(name)] *)
  getProperty : string -> option jsstring;
  (* [DriveApp.getFolderById(id)]: the folder's name and its subfolders *)
  getFolderById : jsstring -> outcome (jsstring * list Folder)
}.

(** A script property is set: [!PROPERTY] is false. *)
Definition property_set (p : option jsstring) : bool :=
  match p with
  | Some s => negb (str_eqb s [])
  | None => false
  end.

(** ** The world and the monad of script computations *)

Inductive logarg :=
| LS (s : jsstring)
| LV (v : value)
| LE (e : exn)
| LN (n : nat).

(** A [Logger.log] line: the fixed text of its template and the interpolated
    values. *)
Record LogMsg := mkLog { text : string; args : list logarg }.

Record World := mkWorld {
  fetched : list Request;   (* classifier requests sent so far, oldest first *)
  uuids : nat;              (* UUIDs drawn so far *)
  ticks : nat;              (* clock reads so far *)
  logs : list LogMsg;       (* logger lines, oldest first *)
  book : option Sheet       (* the sheet named [SHEET_NAME], if it exists *)
}.

Definition M (A : Type) : Type := World -> outcome A * World.

Definition ret {A} (a : A) : M A := fun w => (Ok a, w).

Definition throw {A} (e : exn) : M A := fun w => (Throw e, w).

Definition bind {A B} (m : M A) (k : A -> M B) : M B :=
  fun w => match m w with
           | (Ok a, w') => k a w'
           | (Throw e, w') => (Throw e, w')
           end.

(** [try { m } catch (e) { h e }] *)
Definition try_catch {A} (m : M A) (h : exn -> M A) : M A :=
  fun w => match m w with
           | (Ok a, w') => (Ok a, w')
           | (Throw e, w') => h e w'
           end.

Definition lift {A} (o : outcome A) : M A := fun w => (o, w).

Declare Scope js_scope.
Delimit Scope js_scope with js.
Notation "'let*' x := m 'in' k" := (bind m (fun x => k))
  (at level 10, x name, m at level 100, k at level 200) : js_scope.
Notation "m ;; k" := (bind m (fun _ => k))
  (at level 100, k at level 200, right associativity) : js_scope.
Open Scope js_scope.

(** [Logger.log(...)] *)
Definition log (t : string) (a : list logarg) : M unit :=
  fun w => (Ok tt, mkWorld (fetched w) (uuids w) (ticks w)
                           (logs w ++ [mkLog t a]) (book w)).

(** [UrlFetchApp.fetch(OPENAI_API_URL, options)] *)
Definition do_fetch (pf : Platform) (r : Request) : M Response :=
  fun w => (fetch pf (fetched w) r,
            mkWorld (fetched w ++ [r]) (uuids w) (ticks w) (logs w) (book w)).

(** [Utilities.getUuid()] *)
Definition getUuid (pf : Platform) : M jsstring :=
  fun w => (Ok (uuid_at pf (uuids w)),
            mkWorld (fetched w) (S (uuids w)) (ticks w) (logs w) (book w)).

(** [new Date().toISOString()] *)
Definition nowISO (pf : Platform) : M jsstring :=
  fun w => (Ok (iso_at pf (ticks w)),
            mkWorld (fetched w) (uuids w) (S (ticks w)) (logs w) (book w)).

(** [new Date().getFullYear()] *)
Definition getFullYear (pf : Platform) : M float :=
  fun w => (Ok (year_at pf (ticks w)),
            mkWorld (fetched w) (uuids w) (S (ticks w)) (logs w) (book w)).

Definition parse_json (pf : Platform) (v : value) : outcome value :=
  match JSON_parse pf v with
  | Some r => Ok r
  | None => Throw SyntaxError
  end.

(** ** parse-company.js: the classifier call (identical in both revisions) *)

Definition callOpenAIStructured (pf : Platform)
    (prompt : Prompt) (schema : Schema) (schemaName : jsstring) : M value :=
  try_catch
    (let* response := do_fetch pf (mkRequest prompt schemaName schema) in
     let responseText := getContentText response in
     if negb (getResponseCode response =? 200)%N then
       log "API Error" [LS (dec (getResponseCode response)); LS responseText] ;;
       throw (Error (js "OpenAI API error: " ++ dec (getResponseCode response)))
     else
       let* result := lift (parse_json pf (VStr responseText)) in
       let* output := lift (get_prop result (js "output")) in
       let* message := lift (find_message output) in
       if negb (truthy message) then
         throw (Error (js "Invalid API response structure"))
       else
         let* content := lift (get_prop message (js "content")) in
         if negb (truthy content) then
           throw (Error (js "Invalid API response structure"))
         else
           let* first := lift (get_first content) in
           if negb (truthy first) then
             throw (Error (js "Invalid API response structure"))
           else
             let* text := lift (get_prop first (js "text")) in
             lift (parse_json pf text))
    (fun error =>
       log "Error in OpenAI API call" [LS schemaName; LE error] ;;
       throw error).

(** ** Helpers shared by the two revisions of parse-company.js *)

(** [s || d] on strings. *)
Definition str_or (s d : jsstring) : jsstring := if str_eqb s [] then d else s.

(** [o[k] || d] on an object whose properties are strings. *)
Definition get_or (o : list (jsstring * jsstring)) (k : string) (d : jsstring) : jsstring :=
  match List.find (fun kv => str_eqb (js k) (fst kv)) o with
  | Some kv => str_or (snd kv) d
  | None => d
  end.

(** [v || null] *)
Definition or_null (v : value) : value := if truthy v then v else VNull.

(** The object of string properties as a value. *)
Definition obj_of_strings (o : list (jsstring * jsstring)) : value :=
  VObj (map (fun kv => (fst kv, VStr (snd kv))) o).

(** A run of entries [key: source.key] of an object literal, evaluated in
    order. *)
Fixpoint read_props (entries : list (string * value)) : outcome object :=
  match entries with
  | [] => Ok []
  | (k, src) :: rest =>
      match get_prop src (js k) with
      | Throw e => Throw e
      | Ok v => match read_props rest with
                | Throw e => Throw e
                | Ok o => Ok ((js k, v) :: o)
                end
      end
  end.

(** A closed schema: every property required, no additional property. *)
Definition closed_schema (props : list (string * field_type)) : Schema :=
  mkSchema (map (fun p => (js (fst p), snd p)) props) (map (fun p => js (fst p)) props) false.

Definition acv_schema : Schema :=
  closed_schema [("acv", TNumber); ("acv_2", TNumber)].

Definition customer_schema : Schema :=
  closed_schema [("customer_count", TInteger); ("customer_count_2", TInteger)].

Definition churn_schema : Schema := closed_schema [("logo_churn_annual", TNumber)].

Definition burn_schema : Schema := closed_schema [("monthly_burn", TNumber)].

Definition valuation_schema : Schema := closed_schema [("last_round_valuation", TNumber)].

(** The properties of the simple-fields schema common to both revisions. *)
Definition simple_props : list (string * field_type) :=
  [("arr_run_rate", TNumber); ("carr", TNumber); ("revenue_2024", TNumber);
   ("revenue_2023", TNumber); ("revenue_2022", TNumber); ("cash", TNumber);
   ("runway", TNumber); ("raising", TNumber); ("raised", TNumber);
   ("cac", TNumber); ("payback_period", TNumber); ("ltv_to_cac", TNumber);
   ("gross_margin", TNumber); ("saas_recurring_percent", TNumber);
   ("nrr", TNumber); ("team_size", TInteger); ("year_founded", TInteger);
   ("location", TString); ("description", TString); ("competition", TString);
   ("revenue_notes", TString); ("funding_notes", TString); ("good", TString);
   ("challenges", TString); ("needs_action", TString)].

(** ** The field patterns of the first revision

    Every pattern has the shape [/LABEL:\s*(.+?)(?:\n|$)/i] with an ASCII
    label. [match_field label text] is the first capture group of
    [text.match(pattern)], or [None] when there is no match. *)

(** Case folding of [/i] against an ASCII pattern character. *)
Definition fold_case (c : N) : N :=
  if ((97 <=? c) && (c <=? 122))%N then (c - 32)%N else c.

(** The label at the head of the text, case-insensitively: the text after it. *)
Fixpoint match_label (label text : jsstring) : option jsstring :=
  match label, text with
  | [], _ => Some text
  | p :: label', c :: text' =>
      if (fold_case p =? fold_case c)%N then match_label label' text' else None
  | _ :: _, [] => None
  end.

(** The longest prefix without a line terminator, and what follows it. *)
Fixpoint span_line (t : jsstring) : jsstring * jsstring :=
  match t with
  | c :: t' =>
      if is_line_terminator c then ([], t)
      else let (l, r) := span_line t' in (c :: l, r)
  | [] => ([], [])
  end.

(** [(.+?)(?:\n|$)] at the head of the text: the lazy group stops at the
    first line feed or at the end of input, and cannot cross another line
    terminator. *)
Definition capture_here (t : jsstring) : option jsstring :=
  match span_line t with
  | ([], _) => None
  | (c, []) => Some c
  | (c, r :: _) => if (r =? 10)%N then Some c else None
  end.

(** [\s*] followed by the group: greedy, giving back white space one
    character at a time when the group fails. *)
Fixpoint after_spaces (t : jsstring) : option jsstring :=
  match t with
  | c :: t' =>
      if is_whitespace c then
        match after_spaces t' with
        | Some m => Some m
        | None => capture_here t
        end
      else capture_here t
  | [] => None
  end.

Definition match_at (label text : jsstring) : option jsstring :=
  match match_label label text with
  | Some rest => after_spaces rest
  | None => None
  end.

(** The leftmost match. *)
Fixpoint match_field (label text : jsstring) : option jsstring :=
  match match_at label text with
  | Some m => Some m
  | None => match text with
            | [] => None
            | _ :: text' => match_field label text'
            end
  end.

(** ** parse-company.js, first revision: labelled raw fields *)

Module Rev1.
Section Pipeline.
Variable pf : Platform.

(** The keys of [fieldPatterns], in order. *)
Definition fieldPatterns : list string :=
  ["Company Name"; "URL"; "Description"; "Location"; "Year founded";
   "Team size"; "ARR Run Rate"; "2024 rev"; "2023 rev"; "2022 rev";
   "Revenue Notes"; "% SaaS Recurring"; "Gross Margin"; "# of Customers";
   "Customer Notes"; "Competition"; "ACV"; "Logo Churn Annual";
   "Net Revenue Retention"; "Blended CAC"; "Payback Period"; "Monthly Burn";
   "Cash"; "Runway"; "Raising"; "Raised"; "Active round / fundraise Notes";
   "Other Funding Notes"; "Good"; "Challenges"; "Needs Action"].

Definition extract_field (text : jsstring) (fieldName : string) : jsstring * jsstring :=
  (js fieldName,
   match match_field (js fieldName ++ js ":") text with
   | Some m => trim m
   | None => []
   end).

Definition extractRawFieldsFromDoc (docId : jsstring) : M (list (jsstring * jsstring)) :=
  try_catch
    (let* text := lift (getText pf docId) in
     ret (map (extract_field text) fieldPatterns))
    (fun error =>
       log "Error extracting from doc" [LS docId; LE error] ;;
       throw error).

Definition parseSimpleFieldsBatch (rawFields : list (jsstring * jsstring)) : M value :=
  let prompt := mkPrompt "rev1/parseSimpleFieldsBatch"
                  [JSON_stringify pf (obj_of_strings rawFields)] in
  let schema := closed_schema simple_props in
  callOpenAIStructured pf prompt schema (js "simple_fields_batch").

Definition analyzeACVComplexity (acvRawText : jsstring)
    (context : list (jsstring * jsstring)) : M value :=
  if is_blank acvRawText then
    ret (VObj [(js "acv", VNull); (js "acv_2", VNull)])
  else
    let prompt := mkPrompt "rev1/analyzeACVComplexity"
                    [get_or context "revenue_notes" (js "Not provided");
                     get_or context "arr_run_rate" (js "Not provided");
                     get_or context "customer_count" (js "Not provided");
                     acvRawText] in
    callOpenAIStructured pf prompt acv_schema (js "acv_complexity_analysis").

Definition analyzeCustomerComplexity (customerRawText : jsstring)
    (context : list (jsstring * jsstring)) : M value :=
  if is_blank customerRawText then
    ret (VObj [(js "customer_count", VNull); (js "customer_count_2", VNull)])
  else
    let prompt := mkPrompt "rev1/analyzeCustomerComplexity"
                    [get_or context "customer_notes" (js "Not provided");
                     get_or context "acv" (js "Not provided");
                     get_or context "revenue_notes" (js "Not provided");
                     customerRawText] in
    callOpenAIStructured pf prompt customer_schema (js "customer_complexity_analysis").

Definition convertChurnToAnnual (churnRawText : jsstring) : M value :=
  if is_blank churnRawText then
    ret (VObj [(js "logo_churn_annual", VNull)])
  else
    let prompt := mkPrompt "rev1/convertChurnToAnnual" [churnRawText] in
    let* result := callOpenAIStructured pf prompt churn_schema
                     (js "churn_temporal_conversion") in
    let* v := lift (get_prop result (js "logo_churn_annual")) in
    ret (VObj [(js "logo_churn_annual", v)]).

Definition normalizeMonthlyBurn (burnRawText : jsstring) : M value :=
  if is_blank burnRawText then
    ret (VObj [(js "monthly_burn", VNull)])
  else
    let prompt := mkPrompt "rev1/normalizeMonthlyBurn" [burnRawText] in
    let* result := callOpenAIStructured pf prompt burn_schema
                     (js "monthly_burn_normalization") in
    let* v := lift (get_prop result (js "monthly_burn")) in
    ret (VObj [(js "monthly_burn", v)]).

Definition extractLastRoundValuation (fundingNotesText : jsstring)
    (context : list (jsstring * jsstring)) : M value :=
  if is_blank fundingNotesText then
    ret (VObj [(js "last_round_valuation", VNull)])
  else
    let prompt := mkPrompt "rev1/extractLastRoundValuation"
                    [get_or context "raised" (js "Not provided");
                     get_or context "raising" (js "Not provided");
                     fundingNotesText] in
    let* result := callOpenAIStructured pf prompt valuation_schema
                     (js "valuation_extraction") in
    let* v := lift (get_prop result (js "last_round_valuation")) in
    ret (VObj [(js "last_round_valuation", v)]).

Definition assembleCompleteRecord (docId : jsstring)
    (rawFields simpleFields acvData customerData churnData burnData valuationData : value)
    : M object :=
  let docUrl := js "https://docs.google.com/document/d/" ++ docId in
  let* id := getUuid pf in
  let* company_name := lift (get_prop rawFields (js "Company Name")) in
  let* date_created := nowISO pf in
  let* rest := lift (read_props
    [("arr_run_rate", simpleFields); ("carr", simpleFields);
     ("revenue_2024", simpleFields); ("revenue_2023", simpleFields);
     ("revenue_2022", simpleFields); ("monthly_burn", burnData);
     ("cash", simpleFields); ("runway", simpleFields);
     ("raising", simpleFields); ("raised", simpleFields);
     ("last_round_valuation", valuationData);
     ("acv", acvData); ("acv_2", acvData);
     ("customer_count", customerData); ("customer_count_2", customerData);
     ("logo_churn_annual", churnData);
     ("cac", simpleFields); ("payback_period", simpleFields);
     ("ltv_to_cac", simpleFields); ("gross_margin", simpleFields);
     ("saas_recurring_percent", simpleFields); ("nrr", simpleFields);
     ("team_size", simpleFields); ("year_founded", simpleFields);
     ("location", simpleFields); ("description", simpleFields);
     ("competition", simpleFields); ("revenue_notes", simpleFields);
     ("funding_notes", simpleFields); ("good", simpleFields);
     ("challenges", simpleFields); ("needs_action", simpleFields)]) in
  ret ([(js "id", VStr id);
        (js "company_name", or_null company_name);
        (js "doc_url", VStr docUrl);
        (js "date_created", VStr date_created)] ++ rest).

Definition parseCompanyFromDoc (docId : jsstring) : M object :=
  try_catch
    (log "Starting parse for document" [LS docId] ;;
     let* rawFields := extractRawFieldsFromDoc docId in
     log "Extracted raw fields" [LN (length rawFields)] ;;
     let* simpleFields := parseSimpleFieldsBatch rawFields in
     log "Processed simple fields batch" [] ;;
     let* acvData := analyzeACVComplexity (get_or rawFields "ACV" [])
        [(js "revenue_notes", get_or rawFields "Revenue Notes" []);
         (js "arr_run_rate", get_or rawFields "ARR Run Rate" []);
         (js "customer_count", get_or rawFields "# of Customers" [])] in
     let* customerData := analyzeCustomerComplexity (get_or rawFields "# of Customers" [])
        [(js "customer_notes", get_or rawFields "Customer Notes" []);
         (js "acv", get_or rawFields "ACV" []);
         (js "revenue_notes", get_or rawFields "Revenue Notes" [])] in
     let* churnData := convertChurnToAnnual (get_or rawFields "Logo Churn Annual" []) in
     log "Analyzed complex fields" [] ;;
     let* burnData := normalizeMonthlyBurn (get_or rawFields "Monthly Burn" []) in
     let* valuationData := extractLastRoundValuation
        (get_or rawFields "Active round / fundraise Notes" [] ++ js " "
         ++ get_or rawFields "Other Funding Notes" [])
        [(js "raised", get_or rawFields "Raised" []);
         (js "raising", get_or rawFields "Raising" [])] in
     log "Processed special fields" [] ;;
     let* completeRecord := assembleCompleteRecord docId (obj_of_strings rawFields)
        simpleFields acvData customerData churnData burnData valuationData in
     log "Successfully parsed company" [LV (prop completeRecord "company_name")] ;;
     ret completeRecord)
    (fun error =>
       log "Error parsing company from doc" [LS docId; LE error] ;;
       throw error).

End Pipeline.
End Rev1.

(** ** parse-company.js, second revision: the whole document text *)

Module Rev2.
Section Pipeline.
Variable pf : Platform.

Definition parseSimpleFieldsBatch (docText : jsstring) : M value :=
  let prompt := mkPrompt "rev2/parseSimpleFieldsBatch" [docText] in
  let schema := closed_schema
                  ([("company_name", TString); ("url", TString)] ++ simple_props) in
  callOpenAIStructured pf prompt schema (js "simple_fields_batch").

Definition analyzeACVComplexity (docText : jsstring) : M value :=
  if is_blank docText then
    ret (VObj [(js "acv", VNull); (js "acv_2", VNull)])
  else
    let prompt := mkPrompt "rev2/analyzeACVComplexity" [docText] in
    callOpenAIStructured pf prompt acv_schema (js "acv_complexity_analysis").

Definition analyzeCustomerComplexity (docText : jsstring) : M value :=
  if is_blank docText then
    ret (VObj [(js "customer_count", VNull); (js "customer_count_2", VNull)])
  else
    let prompt := mkPrompt "rev2/analyzeCustomerComplexity" [docText] in
    callOpenAIStructured pf prompt customer_schema (js "customer_complexity_analysis").

Definition convertChurnToAnnual (docText : jsstring) : M value :=
  if is_blank docText then
    ret (VObj [(js "logo_churn_annual", VNull)])
  else
    let prompt := mkPrompt "rev2/convertChurnToAnnual" [docText] in
    let* result := callOpenAIStructured pf prompt churn_schema
                     (js "churn_temporal_conversion") in
    let* v := lift (get_prop result (js "logo_churn_annual")) in
    ret (VObj [(js "logo_churn_annual", v)]).

Definition normalizeMonthlyBurn (docText : jsstring) : M value :=
  if is_blank docText then
    ret (VObj [(js "monthly_burn", VNull)])
  else
    let prompt := mkPrompt "rev2/normalizeMonthlyBurn" [docText] in
    let* result := callOpenAIStructured pf prompt burn_schema
                     (js "monthly_burn_normalization") in
    let* v := lift (get_prop result (js "monthly_burn")) in
    ret (VObj [(js "monthly_burn", v)]).

Definition extractLastRoundValuation (docText : jsstring) : M value :=
  if is_blank docText then
    ret (VObj [(js "last_round_valuation", VNull)])
  else
    let prompt := mkPrompt "rev2/extractLastRoundValuation" [docText] in
    let* result := callOpenAIStructured pf prompt valuation_schema
                     (js "valuation_extraction") in
    let* v := lift (get_prop result (js "last_round_valuation")) in
    ret (VObj [(js "last_round_valuation", v)]).

Definition assembleCompleteRecord (docId : jsstring)
    (simpleFields acvData customerData churnData burnData valuationData : value)
    : M object :=
  let docUrl := js "https://docs.google.com/document/d/" ++ docId in
  let* id := getUuid pf in
  let* company_name := lift (get_prop simpleFields (js "company_name")) in
  let* date_created := nowISO pf in
  let* rest := lift (read_props
    [("arr_run_rate", simpleFields); ("carr", simpleFields);
     ("revenue_2024", simpleFields); ("revenue_2023", simpleFields);
     ("revenue_2022", simpleFields); ("monthly_burn", burnData);
     ("cash", simpleFields); ("runway", simpleFields);
     ("raising", simpleFields); ("raised", simpleFields);
     ("last_round_valuation", valuationData);
     ("acv", acvData); ("acv_2", acvData);
     ("customer_count", customerData); ("customer_count_2", customerData);
     ("logo_churn_annual", churnData);
     ("cac", simpleFields); ("payback_period", simpleFields);
     ("ltv_to_cac", simpleFields); ("gross_margin", simpleFields);
     ("saas_recurring_percent", simpleFields); ("nrr", simpleFields);
     ("team_size", simpleFields); ("year_founded", simpleFields);
     ("location", simpleFields); ("description", simpleFields);
     ("url", simpleFields);
     ("competition", simpleFields); ("revenue_notes", simpleFields);
     ("funding_notes", simpleFields); ("good", simpleFields);
     ("challenges", simpleFields); ("needs_action", simpleFields)]) in
  ret ([(js "id", VStr id);
        (js "company_name", company_name);
        (js "doc_url", VStr docUrl);
        (js "date_created", VStr date_created)] ++ rest).

Definition parseCompanyFromDoc (docId : jsstring) : M object :=
  try_catch
    (log "Starting parse for document" [LS docId] ;;
     let* docText := lift (getText pf docId) in
     log "Extracted document text." [] ;;
     let* simpleFields := parseSimpleFieldsBatch docText in
     log "Processed simple fields batch." [] ;;
     let* acvData := analyzeACVComplexity docText in
     let* customerData := analyzeCustomerComplexity docText in
     let* churnData := convertChurnToAnnual docText in
     log "Analyzed complex fields." [] ;;
     let* burnData := normalizeMonthlyBurn docText in
     let* valuationData := extractLastRoundValuation docText in
     log "Processed special fields." [] ;;
     let* completeRecord := assembleCompleteRecord docId
        simpleFields acvData customerData churnData burnData valuationData in
     log "Successfully parsed company" [LV (prop completeRecord "company_name")] ;;
     ret completeRecord)
    (fun error =>
       log "Error parsing company from doc" [LS docId; LE error] ;;
       throw error).

End Pipeline.
End Rev2.

(** ** Sheet operations *)

Definition empty_cell : value := VStr [].

Definition cell_blank (v : value) : bool :=
  match v with VStr [] => true | _ => false end.

(** Position of the last element that satisfies [has], counted from 1;
    0 when there is none. *)
Fixpoint last_pos {A} (has : A -> bool) (l : list A) : nat :=
  match l with
  | [] => 0
  | x :: l' => match last_pos has l' with
               | 0 => if has x then 1 else 0
               | S n => S (S n)
               end
  end.

Definition row_has_content (r : list value) : bool :=
  existsb (fun v => negb (cell_blank v)) r.

(** [sheet.getLastRow()]: the position of the last row that has content. *)
Definition lastRow (g : list (list value)) : nat := last_pos row_has_content g.

(** [sheet.getLastColumn()]: the position of the last column that has content. *)
Definition lastColumn (g : list (list value)) : nat :=
  fold_right (fun r m => Nat.max (last_pos (fun v => negb (cell_blank v)) r) m) 0 g.

(** The cell in row [r], column [c], both counted from 1. *)
Definition cell_at (g : list (list value)) (r c : nat) : value :=
  nth (c - 1) (nth (r - 1) g []) empty_cell.

(** [vals] written into a row from the column at offset [c]. *)
Fixpoint write_cells (c : nat) (vals old : list value) : list value :=
  match c with
  | 0 => vals ++ drop (length vals) old
  | S c' => match old with
            | [] => empty_cell :: write_cells c' vals []
            | x :: old' => x :: write_cells c' vals old'
            end
  end.

(** [vals] written into the row at offset [r], from the column at offset [c]. *)
Fixpoint write_row (r c : nat) (vals : list value) (g : list (list value))
    : list (list value) :=
  match r with
  | 0 => match g with
         | [] => [write_cells c vals []]
         | row :: g' => write_cells c vals row :: g'
         end
  | S r' => match g with
            | [] => [] :: write_row r' c vals []
            | row :: g' => row :: write_row r' c vals g'
            end
  end.

Fixpoint write_rows (r c : nat) (rows : list (list value)) (g : list (list value))
    : list (list value) :=
  match rows with
  | [] => g
  | vals :: rows' => write_rows (S r) c rows' (write_row r c vals g)
  end.

(** A range of the sheet, positions counted from 1. *)
Record Range := mkRange {
  row : nat; column : nat; numRows : nat; numColumns : nat
}.

(** [Array.prototype.indexOf], [None] for -1. *)
Fixpoint indexOf (l : list value) (x : value) : option nat :=
  match l with
  | [] => None
  | y :: l' => if strict_eq y x then Some 0
               else option_map S (indexOf l' x)
  end.

Definition SHEET_NAME : jsstring := js "Companies".

Definition set_book (b : option Sheet) : M unit :=
  fun w => (Ok tt, mkWorld (fetched w) (uuids w) (ticks w) (logs w) b).

(** The sheet behind the handle returned by [getOrCreateSheet]. *)
Definition the_sheet : M Sheet :=
  fun w => match book w with
           | Some s => (Ok s, w)
           | None => (Throw (ServiceError (js "no such sheet")), w)
           end.

(** [sheet.getRange(row, column, numRows, numColumns)] *)
Definition getRange (r c nr nc : nat) : M Range :=
  if (r =? 0) || (c =? 0) || (nr =? 0) || (nc =? 0)
  then throw (RangeError "the range has no cell or starts before row or column 1")
  else ret (mkRange r c nr nc).

(** [range.getValues()] *)
Definition getValues (rg : Range) : M (list (list value)) :=
  let* s := the_sheet in
  ret (map (fun i => map (fun j => cell_at (grid s) (row rg + i) (column rg + j))
                         (seq 0 (numColumns rg)))
           (seq 0 (numRows rg))).

(** [range.setValues(values)] *)
Definition setValues (pf : Platform) (rg : Range) (values : list (list value)) : M unit :=
  if (length values =? numRows rg)
     && forallb (fun r => length r =? numColumns rg) values
  then
    let* s := the_sheet in
    set_book (Some (mkSheet
      (write_rows (row rg - 1) (column rg - 1) (map (map (stored pf)) values) (grid s))
      (frozenRows s)))
  else throw (RangeError "the data does not match the dimensions of the range").

(** [sheet.appendRow(rowContents)] *)
Definition appendRow (pf : Platform) (rowContents : list value) : M unit :=
  let* s := the_sheet in
  set_book (Some (mkSheet
    (write_row (lastRow (grid s)) 0 (map (stored pf) rowContents) (grid s))
    (frozenRows s))).

(** [sheet.setFrozenRows(n)] *)
Definition setFrozenRows (n : nat) : M unit :=
  let* s := the_sheet in
  set_book (Some (mkSheet (grid s) n)).

(** ** save-to-db.js *)

Module SaveToDb.
Section Save.
Variable pf : Platform.

Definition SPREADSHEET_ID : option jsstring := getProperty pf "SPREADSHEET_ID".

(** [getOrCreateSheet(SPREADSHEET_ID, SHEET_NAME)]; the spreadsheet is taken
    to open. *)
Definition getOrCreateSheet : M unit :=
  fun w => match book w with
           | Some _ => (Ok tt, w)
           | None => (set_book (Some (mkSheet [] 0)) ;;
                      log "Created new sheet" [LS SHEET_NAME]) w
           end.

Definition getHeaders : M (list value) :=
  let* s := the_sheet in
  if lastRow (grid s) =? 0 then ret []
  else
    let* headerRange := getRange 1 1 1 (lastColumn (grid s)) in
    let* values := getValues headerRange in
    ret (default [] (head values)).

Definition setHeaders (headers : list value) : M unit :=
  let* rg := getRange 1 1 1 (length headers) in
  setValues pf rg [headers] ;;
  setFrozenRows 1 ;;
  log "Set sheet headers and froze first row." [].

(** The property key a header cell denotes in [companyRecord[header]]. *)
Definition to_key (header : value) : jsstring :=
  match header with
  | VStr s => s
  | v => ToString pf v
  end.

(** [companyRecord[header] !== undefined ? companyRecord[header] : null] *)
Definition row_entry (companyRecord : object) (header : value) : value :=
  match obj_get companyRecord (to_key header) with
  | VUndef => VNull
  | v => v
  end.

Definition saveCompanyRecord (companyRecord : object) : M unit :=
  if negb (property_set SPREADSHEET_ID)
  then throw (Error (js "SPREADSHEET_ID is not set in Script Properties. Please configure the target Google Sheet ID."))
  else
  try_catch
    (getOrCreateSheet ;;
     let* headers := getHeaders in
     let* headers :=
       (if length headers =? 0 then
          let recordHeaders := map VStr (keys companyRecord) in
          setHeaders recordHeaders ;;
          (* [headers = recordHeaders]: [headers] is a [const] binding *)
          throw (TypeError "Assignment to constant variable.")
        else ret headers) in
     let newRow := map (row_entry companyRecord) headers in
     match indexOf headers (VStr (js "id")) with
     | Some i =>
         let idColumnIndex := i + 1 in
         let* s := the_sheet in
         let* rg := getRange 2 idColumnIndex (lastRow (grid s)) 1 in
         let* values := getValues rg in
         let idColumnValues := concat values in
         match indexOf idColumnValues (prop companyRecord "id") with
         | Some k =>
             let existingRowIndex := k + 2 in
             log "Updating existing record for company"
               [LV (prop companyRecord "company_name"); LV (prop companyRecord "id")] ;;
             let* target := getRange existingRowIndex 1 1 (length newRow) in
             setValues pf target [newRow]
         | None =>
             log "Appending new record for company"
               [LV (prop companyRecord "company_name"); LV (prop companyRecord "id")] ;;
             appendRow pf newRow
         end
     | None =>
         log "Appending new record (no ID column found) for company"
           [LV (prop companyRecord "company_name")] ;;
         appendRow pf newRow
     end ;;
     log "Successfully saved record for" [LV (prop companyRecord "company_name")])
    (fun error =>
       log "Error saving company record" [LE error] ;;
       throw error).

End Save.
End SaveToDb.

(** ** main.js: the batch driver *)

(** A loop over a list with an accumulator, in the monad. *)
Fixpoint foldM {A S} (body : A -> S -> M S) (l : list A) (s : S) : M S :=
  match l with
  | [] => ret s
  | x :: l' => let* s' := body x s in foldM body l' s'
  end.

Module Main.
Section Driver.
Variable pf : Platform.
(** [parseCompanyFromDoc] of parse-company.js, in either revision. *)
Variable parseCompanyFromDoc : jsstring -> M object.

Definition MASTER_FOLDER_ID : option jsstring := getProperty pf "MASTER_FOLDER_ID".

(** The body of the inner loop; the pair is [(processedCount, errorCount)]. *)
Definition process_file (file : File) (counts : nat * nat) : M (nat * nat) :=
  let docId := file_id file in
  log "-- Found document" [LS (file_name file); LS docId] ;;
  try_catch
    (let* companyRecord := parseCompanyFromDoc docId in
     if truthy (VObj companyRecord) && truthy (prop companyRecord "company_name") then
       SaveToDb.saveCompanyRecord pf companyRecord ;;
       ret (S (fst counts), snd counts)
     else
       log "---- Skipping file, parsing did not return a valid company record for"
         [LS (file_name file)] ;;
       ret counts)
    (fun e =>
       log "---- ERROR processing document" [LS (file_name file); LE e] ;;
       ret (fst counts, S (snd counts))).

(** The body of the outer loop. *)
Definition process_folder (folder : Folder) (counts : nat * nat) : M (nat * nat) :=
  log "Scanning subfolder" [LS (folder_name folder)] ;;
  foldM process_file (folder_docs folder) counts.

(** The function returns nothing; the model returns the two counters it
    writes to the log at the end. *)
Definition processAllCompaniesInMasterFolder : M (nat * nat) :=
  if negb (property_set MASTER_FOLDER_ID) then
    throw (Error (js "MASTER_FOLDER_ID is not set in Script Properties. Please configure the ID of the master Google Drive folder."))
  else
    let* masterFolder := lift (getFolderById pf (default [] MASTER_FOLDER_ID)) in
    log "Starting company processing for master folder" [LS (fst masterFolder)] ;;
    let* counts := foldM process_folder (snd masterFolder) (0, 0) in
    log "========================================" [] ;;
    log "Batch processing complete." [] ;;
    log "Successfully processed files" [LN (fst counts)] ;;
    log "Failed files" [LN (snd counts)] ;;
    log "========================================" [] ;;
    ret counts.

End Driver.
End Main.

(** ** The database write utility *)

(** [error.toString()] *)
Definition exn_toString (e : exn) : jsstring :=
  match e with
  | Error msg => js "Error: " ++ msg
  | TypeError what => js "TypeError: " ++ js what
  | SyntaxError => js "SyntaxError: Unexpected token in JSON"
  | RangeError what => js "Exception: " ++ js what
  | ServiceError what => js "Exception: " ++ what
  end.

(** [o[k] = v]: an existing property keeps its place, a new one goes last. *)
Fixpoint obj_set (o : object) (k : jsstring) (v : value) : object :=
  match o with
  | [] => [(k, v)]
  | (k', v') :: o' => if str_eqb k k' then (k', v) :: o'
                      else (k', v') :: obj_set o' k v
  end.

Module DbWrite.
Section Db.
Variable pf : Platform.
Variable parseCompanyFromDoc : jsstring -> M object.

Definition js_ToString (v : value) : jsstring :=
  match v with VStr s => s | _ => ToString pf v end.

Definition js_ToNumber (v : value) : float :=
  match v with VNum x => x | _ => ToNumber pf v end.

(** [value !== null && value !== undefined] *)
Definition present (v : value) : bool :=
  match v with VNull | VUndef => false | _ => true end.

(** [typeof value === 'number'] *)
Definition is_number (v : value) : bool :=
  match v with VNum _ => true | _ => false end.

(** [isNaN(value)] *)
Definition isNaN (v : value) : bool := PrimFloat.is_nan (js_ToNumber v).

(** [Number.isInteger(value)] *)
Definition Number_isInteger (v : value) : bool :=
  match v with VNum x => float_isInteger x | _ => false end.

Record ValidationResult := mkValidation {
  isValid : bool;
  errors : list jsstring
}.

Definition requiredFields : list string := ["id"; "company_name"; "doc_url"; "date_created"].

Definition numericFields : list string :=
  ["arr_run_rate"; "carr"; "revenue_2024"; "revenue_2023"; "revenue_2022";
   "monthly_burn"; "cash"; "runway"; "raising"; "raised"; "last_round_valuation";
   "acv"; "acv_2"; "customer_count"; "customer_count_2"; "logo_churn_annual";
   "cac"; "payback_period"; "ltv_to_cac"; "gross_margin"; "saas_recurring_percent"; "nrr"].

Definition percentageFields : list string :=
  ["gross_margin"; "saas_recurring_percent"; "logo_churn_annual"].

Definition integerFields : list string :=
  ["team_size"; "year_founded"; "customer_count"; "customer_count_2"].

(** The messages a [forEach] over [fields] pushes: one for each field that
    fails [bad], in order. *)
Definition check_each (companyRecord : object) (fields : list string)
    (bad : value -> bool) (message : string -> jsstring) : list jsstring :=
  flat_map (fun field => if bad (prop companyRecord field) then [message field] else [])
           fields.

Definition validateCompanyRecord (companyRecord : object) : M ValidationResult :=
  let errors :=
    check_each companyRecord requiredFields
      (fun v => negb (truthy v) || str_eqb (trim (js_ToString v)) [])
      (fun field => js "Missing required field: " ++ js field) in
  let errors := errors ++
    check_each companyRecord numericFields
      (fun value => present value && (isNaN value || negb (is_number value)))
      (fun field => js "Invalid numeric value for field: " ++ js field) in
  let errors := errors ++
    check_each companyRecord percentageFields
      (fun value => present value &&
         (PrimFloat.ltb (js_ToNumber value) 0 || PrimFloat.ltb 5 (js_ToNumber value)))
      (fun field => js "Invalid percentage value for field " ++ js field
                    ++ js ": must be between 0 and 5 (as decimal)") in
  let errors := errors ++
    check_each companyRecord integerFields
      (fun value => present value && negb (Number_isInteger value))
      (fun field => js "Invalid integer value for field: " ++ js field) in
  let* errors :=
    (if present (prop companyRecord "year_founded") then
       let* currentYear := getFullYear pf in
       let y := js_ToNumber (prop companyRecord "year_founded") in
       if PrimFloat.ltb y 1800 || PrimFloat.ltb currentYear y then
         ret (errors ++ [js "Invalid year_founded: must be between 1800 and "
                         ++ js_ToString (VNum currentYear)])
       else ret errors
     else ret errors) in
  let errors := errors ++
    (if negb (strict_eq (prop companyRecord "acv_2") VNull)
        && strict_eq (prop companyRecord "acv") VNull
     then [js "Invalid ACV data: acv_2 exists but primary acv is null"] else []) in
  let errors := errors ++
    (if negb (strict_eq (prop companyRecord "customer_count_2") VNull)
        && strict_eq (prop companyRecord "customer_count") VNull
     then [js "Invalid customer count data: customer_count_2 exists but primary customer_count is null"]
     else []) in
  ret (mkValidation (length errors =? 0) errors).

Definition stringFields : list string :=
  ["company_name"; "location"; "description"; "competition";
   "revenue_notes"; "funding_notes"; "good"; "challenges"; "needs_action"].

Definition sanitize_numericFields : list string :=
  ["arr_run_rate"; "carr"; "revenue_2024"; "revenue_2023"; "revenue_2022";
   "monthly_burn"; "cash"; "runway"; "raising"; "raised"; "last_round_valuation";
   "acv"; "acv_2"; "logo_churn_annual"; "cac"; "payback_period"; "ltv_to_cac";
   "gross_margin"; "saas_recurring_percent"; "nrr"].

Definition sanitize_string (sanitized : object) (field : string) : object :=
  match prop sanitized field with
  | VStr s =>
      if truthy (VStr s) then
        if str_eqb (trim s) [] then obj_set sanitized (js field) VNull
        else obj_set sanitized (js field) (VStr (trim s))
      else sanitized
  | _ => sanitized
  end.

Definition sanitize_number (sanitized : object) (field : string) : object :=
  if present (prop sanitized field)
  then obj_set sanitized (js field) (VNum (js_ToNumber (prop sanitized field)))
  else sanitized.

Definition sanitize_integer (sanitized : object) (field : string) : object :=
  if present (prop sanitized field)
  then obj_set sanitized (js field)
         (VNum (Math_round pf (js_ToNumber (prop sanitized field))))
  else sanitized.

Definition sanitizeCompanyRecord (companyRecord : object) : object :=
  let sanitized := companyRecord in
  let sanitized := fold_left sanitize_string stringFields sanitized in
  let sanitized := fold_left sanitize_number sanitize_numericFields sanitized in
  fold_left sanitize_integer integerFields sanitized.

Definition insertNewCompany (companyRecord : object) : M value :=
  log "Database insert operation - implementation needed" [] ;;
  throw (Error (js "Database connection not yet configured. Please implement database-specific insert.")).

Definition performDatabaseUpdate (companyId : value) (updatedRecord : object) : M value :=
  log "Database update operation - implementation needed" [] ;;
  throw (Error (js "Database connection not yet configured. Please implement database-specific update.")).

Definition findExistingCompany (companyRecord : object) : M value :=
  try_catch
    (log "Checking for existing company - implementation needed" [] ;;
     ret VNull)
    (fun error =>
       log "Error checking for existing company" [LE error] ;;
       ret VNull).

Definition updateExistingCompany (companyId : value) (updatedRecord : object) : M object :=
  log "Updating existing company" [LV companyId] ;;
  try_catch
    (let* now := nowISO pf in
     let recordWithTimestamp := obj_set updatedRecord (js "date_updated") (VStr now) in
     let* updateResult := performDatabaseUpdate companyId recordWithTimestamp in
     ret [(js "success", VBool true); (js "id", companyId);
          (js "action", VStr (js "updated"));
          (js "company_name", prop updatedRecord "company_name")])
    (fun error =>
       log "Error updating company" [LV companyId; LE error] ;;
       ret [(js "success", VBool false); (js "error", VStr (exn_toString error));
            (js "company_name", prop updatedRecord "company_name")]).

Definition saveCompanyToDatabase (companyRecord : object) : M object :=
  log "Saving company to database" [LV (prop companyRecord "company_name")] ;;
  try_catch
    (let* validationResult := validateCompanyRecord companyRecord in
     if negb (isValid validationResult) then
       log "Validation failed" (map LS (errors validationResult)) ;;
       ret [(js "success", VBool false);
            (js "error", VStr (js "Validation failed"));
            (js "details", VArr (map VStr (errors validationResult)))]
     else
       let* existingCompany := findExistingCompany companyRecord in
       if truthy existingCompany then
         let* id := lift (get_prop existingCompany (js "id")) in
         log "Company already exists with ID" [LV id] ;;
         updateExistingCompany id companyRecord
       else
         let* saveResult := insertNewCompany companyRecord in
         let* id := lift (get_prop saveResult (js "id")) in
         log "Company saved successfully with ID" [LV id] ;;
         ret [(js "success", VBool true); (js "id", id);
              (js "action", VStr (js "created"));
              (js "company_name", prop companyRecord "company_name")])
    (fun error =>
       log "Error saving company to database" [LE error] ;;
       ret [(js "success", VBool false); (js "error", VStr (exn_toString error));
            (js "company_name", prop companyRecord "company_name")]).

Definition parseAndSaveCompany (docId : jsstring) : M object :=
  log "Starting parse and save workflow for doc" [LS docId] ;;
  try_catch
    (let* parsedData := parseCompanyFromDoc docId in
     let sanitizedData := sanitizeCompanyRecord parsedData in
     let* saveResult := saveCompanyToDatabase sanitizedData in
     ret [(js "success", prop saveResult "success");
          (js "operation", VStr (js "parse_and_save"));
          (js "doc_id", VStr docId);
          (js "company_name", prop parsedData "company_name");
          (js "database_result", VObj saveResult)])
    (fun error =>
       log "Error in parse and save workflow" [LE error] ;;
       ret [(js "success", VBool false);
            (js "operation", VStr (js "parse_and_save"));
            (js "doc_id", VStr docId);
            (js "error", VStr (exn_toString error))]).

Record BatchResults := mkBatch {
  total : nat;
  successful : nat;
  failed : nat;
  details : list object
}.

(** The callback of [docIds.forEach]; [index] counts from 0. *)
Definition batch_step (n : nat) (entry : nat * jsstring) (results : BatchResults)
    : M BatchResults :=
  let (index, docId) := entry in
  let* result := parseAndSaveCompany docId in
  let results :=
    if truthy (prop result "success")
    then mkBatch (total results) (S (successful results)) (failed results) (details results)
    else mkBatch (total results) (successful results) (S (failed results)) (details results) in
  let results := mkBatch (total results) (successful results) (failed results)
                         (details results ++ [result]) in
  (if (index + 1) mod 5 =? 0
   then log "Processed documents" [LN (index + 1); LN n]
   else ret tt) ;;
  ret results.

Definition batchParseAndSave (docIds : list jsstring) : M BatchResults :=
  log "Starting batch parse and save" [LN (length docIds)] ;;
  let results := mkBatch (length docIds) 0 0 [] in
  let* results := foldM (batch_step (length docIds))
                        (combine (seq 0 (length docIds)) docIds) results in
  log "Batch processing complete" [LN (successful results); LN (failed results)] ;;
  ret results.

Definition performDatabaseDelete (companyId : value) : M value :=
  log "Database delete operation - implementation needed" [] ;;
  throw (Error (js "Database connection not yet configured. Please implement database-specific delete.")).

Definition deleteCompanyFromDatabase (companyId : value) : M object :=
  log "Deleting company from database" [LV companyId] ;;
  try_catch
    (let* deleteResult := performDatabaseDelete companyId in
     ret [(js "success", VBool true); (js "id", companyId);
          (js "action", VStr (js "deleted"))])
    (fun error =>
       log "Error deleting company" [LV companyId; LE error] ;;
       ret [(js "success", VBool false); (js "error", VStr (exn_toString error))]).

(** An entry of [results.details] in [batchSaveCompanies]; [detail_id] is
    [None] when the entry has no [id] property. *)
Record SaveDetail := mkDetail {
  detail_index : nat;
  detail_company_name : value;
  detail_success : value;
  detail_error : value;
  detail_id : option value
}.

Record SaveResults := mkSaveResults {
  save_total : nat;
  save_successful : nat;
  save_failed : nat;
  save_details : list SaveDetail
}.

(** The callback of [companyRecords.forEach]; [index] counts from 0. Inside
    the [try] block nothing after the call of [saveCompanyToDatabase] can
    throw, so the handler finds the counters as they were before the block. *)
Definition save_step (n : nat) (entry : nat * object) (results : SaveResults)
    : M SaveResults :=
  let (index, record) := entry in
  let* results :=
    try_catch
      (let* saveResult := saveCompanyToDatabase record in
       let results :=
         if truthy (prop saveResult "success")
         then mkSaveResults (save_total results) (S (save_successful results))
                (save_failed results) (save_details results)
         else mkSaveResults (save_total results) (save_successful results)
                (S (save_failed results)) (save_details results) in
       ret (mkSaveResults (save_total results) (save_successful results)
              (save_failed results)
              (save_details results ++
                 [mkDetail index (prop record "company_name")
                    (prop saveResult "success")
                    (or_null (prop saveResult "error"))
                    (Some (or_null (prop saveResult "id")))])))
      (fun error =>
         ret (mkSaveResults (save_total results) (save_successful results)
                (S (save_failed results))
                (save_details results ++
                   [mkDetail index (prop record "company_name") (VBool false)
                      (VStr (exn_toString error)) None]))) in
  (if (index + 1) mod 10 =? 0
   then log "Processed companies" [LN (index + 1); LN n]
   else ret tt) ;;
  ret results.

Definition batchSaveCompanies (companyRecords : list object) : M SaveResults :=
  log "Starting batch save" [LN (length companyRecords)] ;;
  let results := mkSaveResults (length companyRecords) 0 0 [] in
  let* results := foldM (save_step (length companyRecords))
                        (combine (seq 0 (length companyRecords)) companyRecords)
                        results in
  log "Batch save complete" [LN (save_successful results); LN (save_failed results)] ;;
  ret results.

End Db.
End DbWrite.

(** ** A sample platform

    JSON texts are written next to the values they denote, so that the
    sample [JSON.parse] is a table of such pairs; the classifier answers by
    schema name. *)

Module Sample.

Definition json : Type := jsstring * value.

Definition quote : jsstring := [34%N].

Definition jstr (s : string) : jsstring := quote ++ js s ++ quote.

(** The JSON string literal of a text without control characters. *)
Definition json_quote (p : jsstring) : jsstring :=
  quote ++ flat_map (fun c => if ((c =? 34) || (c =? 92))%N then [92%N; c] else [c]) p
        ++ quote.

Definition json_null : json := (js "null", VNull).

(** The literal [lit] denotes the number [x]. *)
Definition json_num (lit : string) (x : float) : json := (js lit, VNum x).

Definition json_str (s : string) : json := (jstr s, VStr (js s)).

Fixpoint join_with (sep : jsstring) (parts : list jsstring) : jsstring :=
  match parts with
  | [] => []
  | [p] => p
  | p :: rest => p ++ sep ++ join_with sep rest
  end.

Definition json_obj (fields : list (string * json)) : json :=
  (js "{" ++ join_with (js ",")
               (map (fun f => jstr (fst f) ++ js ":" ++ fst (snd f)) fields)
          ++ js "}",
   VObj (map (fun f => (js (fst f), snd (snd f))) fields)).

Definition json_arr (items : list json) : json :=
  (js "[" ++ join_with (js ",") (map fst items) ++ js "]", VArr (map snd items)).

(** The body of a successful response around a payload text. *)
Definition envelope (payload : json) : json :=
  json_obj [("output", json_arr [json_obj
    [("type", json_str "message");
     ("content", json_arr [json_obj
        [("type", json_str "output_text");
         ("text", (json_quote (fst payload), VStr (fst payload)))]])]])].

(** [JSON.parse] on the texts of a table. *)
Definition parse_table (table : list json) (v : value) : option value :=
  match v with
  | VStr s => option_map snd (List.find (fun j => str_eqb s (fst j)) table)
  | _ => None
  end.

Definition sample_ToString (v : value) : jsstring :=
  match v with
  | VUndef => js "undefined"
  | VNull => js "null"
  | VBool true => js "true"
  | VBool false => js "false"
  | VStr s => s
  | VArr [] => []
  | _ => js "[object Object]"
  end.

Definition sample_ToNumber (v : value) : float :=
  match v with
  | VNum x => x
  | VNull | VBool false | VStr [] | VArr [] => 0
  | VBool true => 1
  | _ => nan
  end.

(** What a cell holds after a write: nothing for [null], the value itself
    otherwise. *)
Definition sample_stored (v : value) : value :=
  match v with
  | VNull | VUndef => VStr []
  | _ => v
  end.

(** A master folder with two subfolders and three documents. *)
Definition drive : list Folder :=
  [mkFolder (js "Acme") [mkFile (js "Acme notes") (js "doc1");
                         mkFile (js "Acme follow-up") (js "doc2")];
   mkFolder (js "Globex") [mkFile (js "Globex notes") (js "doc3")]].

(** A platform whose classifier answers [replies] by schema name, with the
    payloads of [payloads] and one document text for every id. *)
Definition platform (replies : jsstring -> outcome Response) (payloads : list json)
    (docText : jsstring) : Platform :=
  {| fetch := fun _ r => replies (schemaName r);
     JSON_parse := parse_table (payloads ++ map envelope payloads);
     JSON_stringify := fun _ => js "{}";
     getText := fun _ => Ok docText;
     uuid_at := fun n => js "00000000-0000-4000-8000-00000000000" ++ dec (N.of_nat n);
     iso_at := fun n => js "2025-01-01T00:00:0" ++ dec (N.of_nat n) ++ js ".000Z";
     stored := sample_stored;
     ToString := sample_ToString;
     ToNumber := sample_ToNumber;
     Math_round := fun x => x;
     year_at := fun _ => 2025%float;
     getProperty := fun _ => Some (js "configured");
     getFolderById := fun _ => Ok (js "master", drive) |}.

Definition ok_response (payload : json) : outcome Response :=
  Ok (mkResponse 200 (fst (envelope payload))).

Definition w0 : World := mkWorld [] 0 0 [] None.

(** A classifier that is out of reach. *)
Definition offline : Platform :=
  platform (fun _ => Throw (ServiceError (js "request failed"))) [] [].

(** A classifier that answers every request with a status code and a body. *)
Definition status_platform (code : N) (body : string) : Platform :=
  platform (fun _ => Ok (mkResponse code (js body))) [] (js "Company Name: Acme").

(** A classifier that answers the churn stage with a fixed payload. *)
Definition churn_platform (payload : json) : Platform :=
  platform (fun n => if str_eqb n (js "churn_temporal_conversion")
                     then ok_response payload
                     else Throw (ServiceError (js "request failed")))
           [payload] [].

(** A classifier that answers every stage with a payload of its own. *)
Definition stage_platform (simple acv customer churn burn valuation : json)
    (docText : jsstring) : Platform :=
  platform (fun n =>
      if str_eqb n (js "simple_fields_batch") then ok_response simple
      else if str_eqb n (js "acv_complexity_analysis") then ok_response acv
      else if str_eqb n (js "customer_complexity_analysis") then ok_response customer
      else if str_eqb n (js "churn_temporal_conversion") then ok_response churn
      else if str_eqb n (js "monthly_burn_normalization") then ok_response burn
      else if str_eqb n (js "valuation_extraction") then ok_response valuation
      else Throw (ServiceError (js "request failed")))
    [simple; acv; customer; churn; burn; valuation] docText.

Definition null_fields (names : list string) : json :=
  json_obj (map (fun k => (k, json_null)) names).

(** A simple-fields payload that names the company and leaves the rest
    [null]. *)
Definition simple_reply : json :=
  json_obj (("company_name", json_str "Acme") :: ("url", json_null)
            :: map (fun p => (fst p, json_null)) simple_props).

Definition customer_reply : json := null_fields ["customer_count"; "customer_count_2"].
Definition churn_reply : json := null_fields ["logo_churn_annual"].
Definition burn_reply : json := null_fields ["monthly_burn"].
Definition valuation_reply : json := null_fields ["last_round_valuation"].

(** A document of the labelled template. *)
Definition acme_doc : jsstring :=
  js "Company Name: Acme" ++ [10%N] ++ js "ACV: 5k" ++ [10%N]
  ++ js "# of Customers: 12" ++ [10%N] ++ js "Logo Churn Annual: 2% monthly" ++ [10%N]
  ++ js "Monthly Burn: low" ++ [10%N] ++ js "Raised: 1M".

(** An ACV reply that matches the schema and has a secondary value without
    a primary one. *)
Definition secondary_only_reply : json :=
  json_obj [("acv", json_null); ("acv_2", json_num "5000" 5000)].

(** An ACV reply that parses and does not match the schema: a secondary
    value and no [acv] property. *)
Definition secondary_alone_reply : json :=
  json_obj [("acv_2", json_num "5000" 5000)].

(** An ACV reply that parses and does not match the schema: no property. *)
Definition empty_reply : json := json_obj [].

(** A sheet with a header row and one record. *)
Definition one_record_sheet : Sheet :=
  mkSheet [[VStr (js "id"); VStr (js "company_name")];
           [VStr (js "u1"); VStr (js "Acme")]] 1.

(** A sheet with a header row only. *)
Definition headers_only_sheet : Sheet :=
  mkSheet [[VStr (js "id"); VStr (js "company_name")]] 1.

(** A record with the id of the row of [one_record_sheet]. *)
Definition renamed_record : object :=
  [(js "id", VStr (js "u1")); (js "company_name", VStr (js "Acme Inc"))].

(** A document of the labelled template without a company name. *)
Definition nameless_doc : jsstring :=
  js "ACV: 5k" ++ [10%N] ++ js "Monthly Burn: low".

(** An ACV reply with a primary value only. *)
Definition primary_only_reply : json :=
  json_obj [("acv", json_num "5000" 5000); ("acv_2", json_null)].

(** The reply of a classifier that multiplies a monthly 2% by 12. *)
Definition linear_reply : json :=
  json_obj [("logo_churn_annual", json_num "0.24" 0.24)].

(** The reply of a classifier that passes an annual 15% through. *)
Definition annual_reply : json :=
  json_obj [("logo_churn_annual", json_num "0.15" 0.15)].

(** A platform with other script properties. *)
Definition with_properties (props : string -> option jsstring) (pf : Platform)
    : Platform :=
  {| fetch := fetch pf;
     JSON_parse := JSON_parse pf;
     JSON_stringify := JSON_stringify pf;
     getText := getText pf;
     uuid_at := uuid_at pf;
     iso_at := iso_at pf;
     stored := stored pf;
     ToString := ToString pf;
     ToNumber := ToNumber pf;
     Math_round := Math_round pf;
     year_at := year_at pf;
     getProperty := props;
     getFolderById := getFolderById pf |}.

(** The record that [testDatabaseSave] builds, with a sample id and date. *)
Definition test_company : object :=
  [(js "id", VStr (js "00000000-0000-4000-8000-000000000000"));
   (js "company_name", VStr (js "Test Company Inc"));
   (js "doc_url", VStr (js "https://docs.google.com/document/d/test123"));
   (js "date_created", VStr (js "2025-01-01T00:00:00.000Z"));
   (js "arr_run_rate", VNum 1000000);
   (js "acv", VNum 50000);
   (js "customer_count", VNum 20);
   (js "team_size", VNum 25);
   (js "year_founded", VNum 2020);
   (js "location", VStr (js "San Francisco, CA"));
   (js "description", VStr (js "Test company for database validation"));
   (js "monthly_burn", VNum 100000);
   (js "cash", VNum 2000000);
   (js "gross_margin", VNum 0.8);
   (js "carr", VNull); (js "revenue_2024", VNull); (js "revenue_2023", VNull);
   (js "revenue_2022", VNull); (js "runway", VNull); (js "raising", VNull);
   (js "raised", VNull); (js "last_round_valuation", VNull); (js "acv_2", VNull);
   (js "customer_count_2", VNull); (js "logo_churn_annual", VNull); (js "cac", VNull);
   (js "payback_period", VNull); (js "ltv_to_cac", VNull);
   (js "saas_recurring_percent", VNull); (js "nrr", VNull); (js "competition", VNull);
   (js "revenue_notes", VNull); (js "funding_notes", VNull); (js "good", VNull);
   (js "challenges", VNull); (js "needs_action", VNull)].

(** A record with stray white space in its texts. *)
Definition untidy_record : object :=
  [(js "id", VStr (js " x ")); (js "company_name", VStr (js "  Acme  "));
   (js "location", VStr (js "   ")); (js "description", VStr []);
   (js "acv", VNum 5000); (js "team_size", VNum 25)].

(** A document whose first line ends with a carriage return and a line
    feed, and whose last label has only white space after it. *)
Definition crlf_doc : jsstring :=
  js "ACV: 5k" ++ [13%N; 10%N] ++ js "Cash: 7 " ++ [10%N] ++ js "Runway:   ".

End Sample.

(** ** Notions used to state the properties *)

(** The outcome of the classification call for request [r] when the requests
    of [h] were sent before it. *)
Definition classification (pf : Platform) (h : list Request) (r : Request) : outcome value :=
  fst (callOpenAIStructured pf (input r) (schema r) (schemaName r)
         (mkWorld h 0 0 [] None)).

(** How the payload text is read off a parsed response body,
    [result.output.find(item => item.type === "message").content[0].text]:
    the read of [output] or the search throws; or there is no message, no
    content or no first part, which the call answers with its own error; or
    the text is read. *)
Inductive reads_text (result : value) : outcome value -> Prop :=
| no_output e :
    get_prop result (js "output") = Throw e ->
    reads_text result (Throw e)
| no_list output e :
    get_prop result (js "output") = Ok output ->
    find_message output = Throw e ->
    reads_text result (Throw e)
| no_message output message :
    get_prop result (js "output") = Ok output ->
    find_message output = Ok message ->
    truthy message = false ->
    reads_text result (Throw (Error (js "Invalid API response structure")))
| no_content output message content :
    get_prop result (js "output") = Ok output ->
    find_message output = Ok message ->
    get_prop message (js "content") = Ok content ->
    truthy content = false ->
    reads_text result (Throw (Error (js "Invalid API response structure")))
| no_part output message content first :
    get_prop result (js "output") = Ok output ->
    find_message output = Ok message ->
    get_prop message (js "content") = Ok content ->
    get_first content = Ok first ->
    truthy first = false ->
    reads_text result (Throw (Error (js "Invalid API response structure")))
| text_read output message content first text :
    get_prop result (js "output") = Ok output ->
    find_message output = Ok message -> truthy message = true ->
    get_prop message (js "content") = Ok content -> truthy content = true ->
    get_first content = Ok first -> truthy first = true ->
    get_prop first (js "text") = Ok text ->
    reads_text result (Ok text).

(** The ways a classification call for request [r], sent after the requests
    of [h], ends. It fails when the fetch throws, when the response code is
    not 200, when the response body does not parse, when the body has no
    message text, and when the message text does not parse; otherwise it
    returns the parsed message text, whatever it is. *)
Inductive call_ends (pf : Platform) (h : list Request) (r : Request)
    : outcome value -> Prop :=
| transport_failure e :
    fetch pf h r = Throw e ->
    call_ends pf h r (Throw e)
| status_failure response :
    fetch pf h r = Ok response ->
    getResponseCode response <> 200%N ->
    call_ends pf h r
      (Throw (Error (js "OpenAI API error: " ++ dec (getResponseCode response))))
| body_failure response :
    fetch pf h r = Ok response ->
    getResponseCode response = 200%N ->
    JSON_parse pf (VStr (getContentText response)) = None ->
    call_ends pf h r (Throw SyntaxError)
| structure_failure response result e :
    fetch pf h r = Ok response ->
    getResponseCode response = 200%N ->
    JSON_parse pf (VStr (getContentText response)) = Some result ->
    reads_text result (Throw e) ->
    call_ends pf h r (Throw e)
| payload_failure response result text :
    fetch pf h r = Ok response ->
    getResponseCode response = 200%N ->
    JSON_parse pf (VStr (getContentText response)) = Some result ->
    reads_text result (Ok text) ->
    JSON_parse pf text = None ->
    call_ends pf h r (Throw SyntaxError)
| payload_returned response result text payload :
    fetch pf h r = Ok response ->
    getResponseCode response = 200%N ->
    JSON_parse pf (VStr (getContentText response)) = Some result ->
    reads_text result (Ok text) ->
    JSON_parse pf text = Some payload ->
    call_ends pf h r (Ok payload).

(** [w'] differs from [w] by the classifier requests [calls], sent in this
    order, and by logger lines. *)
Definition sends (w w' : World) (calls : list Request) : Prop :=
  fetched w' = fetched w ++ calls /\ uuids w' = uuids w
  /\ ticks w' = ticks w /\ book w' = book w.

(** The annual rate of a monthly rate [m] in the words of the
    specification: [1 - (1 - m)^12]. *)
Definition annualize_monthly (m : float) : float :=
  (1 - fold_right (fun _ acc => acc * (1 - m)) 1 (seq 0 12))%float.

(** The classifier is a function of the request alone. *)
Definition deterministic (pf : Platform) : Prop :=
  forall h1 h2 r, fetch pf h1 r = fetch pf h2 r.

(** Two outcomes agree: the same exception, or results related by [R]. *)
Definition agree {A} (R : A -> A -> Prop) (o1 o2 : outcome A) : Prop :=
  match o1, o2 with
  | Ok a, Ok b => R a b
  | Throw e1, Throw e2 => e1 = e2
  | _, _ => False
  end.

(** Two computations have agreeing outcomes whatever worlds they start in. *)
Definition related {A} (R : A -> A -> Prop) (m1 m2 : M A) : Prop :=
  forall w1 w2, agree R (fst (m1 w1)) (fst (m2 w2)).

(** Two records have the same keys and the same value under every key
    except [id] and [date_created]. *)
Definition same_fields (r1 r2 : object) : Prop :=
  keys r1 = keys r2
  /\ forall k, k <> js "id" -> k <> js "date_created" -> obj_get r1 k = obj_get r2 k.

(** Every request of [calls], sent in this order after the requests of [h],
    is answered with a payload. *)
Definition all_answered (pf : Platform) (h calls : list Request) : Prop :=
  forall pre r post, calls = pre ++ r :: post ->
    is_ok (classification pf (h ++ pre) r) = true.

(** [calls] ends with a request that the classification call answers with
    the exception [e]; every request before it is answered with a payload. *)
Definition fails_last (pf : Platform) (h calls : list Request) (e : exn) : Prop :=
  exists pre r, calls = pre ++ [r] /\ all_answered pf h pre
                /\ classification pf (h ++ pre) r = Throw e.

(** A computation that sends classifier requests and nothing else: it stops
    with the exception of the first classification call that fails. *)
Definition stage_like (pf : Platform) {A} (m : M A) : Prop :=
  forall w, exists calls,
    sends w (snd (m w)) calls
    /\ (all_answered pf (fetched w) calls
        \/ exists e, fails_last pf (fetched w) calls e /\ fst (m w) = Throw e).

(** A computation that stops with the exception of the first
    classification call that fails, before any UUID is drawn. *)
Definition fail_fast (pf : Platform) {A} (m : M A) : Prop :=
  forall w, exists calls,
    fetched (snd (m w)) = fetched w ++ calls
    /\ (all_answered pf (fetched w) calls
        \/ exists e, fails_last pf (fetched w) calls e /\ fst (m w) = Throw e
                     /\ uuids (snd (m w)) = uuids w).

(** A value of the type a schema field declares: [null], or a number, an
    integral number, a string. *)
Definition conforms_type (t : field_type) (v : value) : bool :=
  match v, t with
  | VNull, _ => true
  | VNum x, TNumber => negb (PrimFloat.is_nan x || PrimFloat.is_infinity x)
  | VNum x, TInteger => float_isInteger x
  | VStr _, TString => true
  | _, _ => false
  end.

(** A payload that matches a closed schema: an object with every required
    property, each of a declared property and of its type. *)
Definition conforms (s : Schema) (v : value) : bool :=
  match v with
  | VObj o =>
      forallb (fun k => existsb (str_eqb k) (keys o)) (required s)
      && forallb (fun kv =>
           match List.find (fun p => str_eqb (fst kv) (fst p)) (properties s) with
           | Some p => conforms_type (snd p) (snd kv)
           | None => additionalProperties s
           end) o
  | _ => false
  end.

(** Whether [validateCompanyRecord] accepts the record a run returned. *)
Definition accepted (pf : Platform) (o : outcome object) : option bool :=
  match o with
  | Ok r =>
      match fst (DbWrite.validateCompanyRecord pf r (mkWorld [] 0 0 [] None)) with
      | Ok result => Some (DbWrite.isValid result)
      | Throw _ => None
      end
  | Throw _ => None
  end.

(** The value of a property of the record a run returned. *)
Definition field_of (o : outcome object) (k : string) : option value :=
  match o with
  | Ok r => Some (prop r k)
  | Throw _ => None
  end.

(** The first row of the sheet, as wide as the sheet. *)
Definition header_row (g : list (list value)) : list value :=
  map (fun j => cell_at g 1 (1 + j)) (seq 0 (lastColumn g)).

Definition nonblank (v : value) : bool := negb (cell_blank v).

(** The cells of column [i + 1] that a save reads: as many rows as the
    sheet has rows with content, from row 2 on. *)
Definition id_column (g : list (list value)) (i : nat) : list value :=
  map (fun k => cell_at g (2 + k) (i + 1)) (seq 0 (lastRow g)).

(** The row a save writes for a record under the headers of the sheet. *)
Definition new_row (pf : Platform) (companyRecord : object) (g : list (list value))
    : list value :=
  map (stored pf) (map (SaveToDb.row_entry pf companyRecord) (header_row g)).

(** The cells of column [i + 1] in the rows after the first, down to the
    last row with content. *)
Definition id_cells (g : list (list value)) (i : nat) : list value :=
  map (fun k => cell_at g (2 + k) (i + 1)) (seq 0 (lastRow g - 1)).

(** How many rows after the first hold [idv] in column [i + 1]. *)
Definition rows_with_id (g : list (list value)) (i : nat) (idv : value) : nat :=
  length (List.filter (fun c => strict_eq c idv) (id_cells g i)).

(** The sheet a save finds: the stored one, or the empty sheet that
    [getOrCreateSheet] inserts. *)
Definition sheet_found (w : World) : Sheet := default (mkSheet [] 0) (book w).

(** The outcome of a computation and the sheet it leaves. *)
Definition ends {A} (m : M A) (w : World) (o : outcome A) (b : option Sheet) : Prop :=
  exists w', m w = (o, w') /\ book w' = b.

(** [SPREADSHEET_ID] is set. *)
Definition configured (pf : Platform) : Prop :=
  property_set (SaveToDb.SPREADSHEET_ID pf) = true.


(** What became of one document of the batch. *)
Inductive verdict :=
| Saved
| Skipped
| Failed (e : exn).

(** The verdict on a file when the driver reaches it in world [w]: the
    parse and the save are run after the line that announces the file. *)
Definition file_verdict (pf : Platform) (parse : jsstring -> M object)
    (file : File) (w : World) : verdict :=
  let w0 := snd (log "-- Found document" [LS (file_name file); LS (file_id file)] w) in
  match parse (file_id file) w0 with
  | (Throw e, _) => Failed e
  | (Ok companyRecord, w1) =>
      if truthy (prop companyRecord "company_name") then
        match fst (SaveToDb.saveCompanyRecord pf companyRecord w1) with
        | Ok _ => Saved
        | Throw e => Failed e
        end
      else Skipped
  end.

(** The counters [(processedCount, errorCount)] after a verdict. *)
Definition bump (v : verdict) (counts : nat * nat) : nat * nat :=
  match v with
  | Saved => (S (fst counts), snd counts)
  | Skipped => counts
  | Failed _ => (fst counts, S (snd counts))
  end.

(** The files of a list are processed one after the other: each from the
    world and the counters its predecessor left, each with its own verdict. *)
Inductive batch_run (pf : Platform) (parse : jsstring -> M object)
    : list File -> nat * nat -> World -> nat * nat -> World -> Prop :=
| batch_done counts w : batch_run pf parse [] counts w counts w
| batch_next file rest counts w w1 counts' w' :
    Main.process_file pf parse file counts w
      = (Ok (bump (file_verdict pf parse file w) counts), w1) ->
    batch_run pf parse rest (bump (file_verdict pf parse file w) counts) w1 counts' w' ->
    batch_run pf parse (file :: rest) counts w counts' w'.

(** The folders of the master folder are processed one after the other,
    each announced by a logger line. *)
Inductive folders_run (pf : Platform) (parse : jsstring -> M object)
    : list Folder -> nat * nat -> World -> nat * nat -> World -> Prop :=
| folders_done counts w : folders_run pf parse [] counts w counts w
| folders_next folder rest counts w counts1 w1 counts' w' :
    batch_run pf parse (folder_docs folder) counts
      (snd (log "Scanning subfolder" [LS (folder_name folder)] w)) counts1 w1 ->
    folders_run pf parse rest counts1 w1 counts' w' ->
    folders_run pf parse (folder :: rest) counts w counts' w'.

(** The world after the progress line of [batchParseAndSave], which is
    logged after every fifth document; [index] counts from 0. *)
Definition progress (n index : nat) (w : World) : World :=
  if (index + 1) mod 5 =? 0
  then snd (log "Processed documents" [LN (index + 1); LN n] w)
  else w.

(** The documents of a list are handled one after the other by
    [parseAndSaveCompany]: each from the world its predecessor left, each
    with a result of its own. [index] is the position of the first
    document of the list in the batch of [n] documents. *)
Inductive documents_run (pf : Platform) (parse : jsstring -> M object) (n : nat)
    : nat -> list jsstring -> World -> list object -> World -> Prop :=
| documents_done index w : documents_run pf parse n index [] w [] w
| documents_next index docId rest w result w1 results w' :
    DbWrite.parseAndSaveCompany pf parse docId w = (Ok result, w1) ->
    documents_run pf parse n (S index) rest (progress n index w1) results w' ->
    documents_run pf parse n index (docId :: rest) w (result :: results) w'.

(** A result that reports a success: its [success] is truthy. *)
Definition succeeded (result : object) : bool := truthy (prop result "success").

(** The five lines the driver of main.js logs when it is done. *)
Definition closing_lines (counts : nat * nat) : list LogMsg :=
  [mkLog "========================================" [];
   mkLog "Batch processing complete." [];
   mkLog "Successfully processed files" [LN (fst counts)];
   mkLog "Failed files" [LN (snd counts)];
   mkLog "========================================" []].

(** [undefined] or [null]: no object at all. *)
Definition nullish (v : value) : bool :=
  match v with VUndef | VNull => true | _ => false end.

(** The keys every record of the first revision has, in order. *)
Definition record_keys : list jsstring :=
  map js ["id"; "company_name"; "doc_url"; "date_created";
          "arr_run_rate"; "carr"; "revenue_2024"; "revenue_2023"; "revenue_2022";
          "monthly_burn"; "cash"; "runway"; "raising"; "raised";
          "last_round_valuation"; "acv"; "acv_2"; "customer_count";
          "customer_count_2"; "logo_churn_annual"; "cac"; "payback_period";
          "ltv_to_cac"; "gross_margin"; "saas_recurring_percent"; "nrr";
          "team_size"; "year_founded"; "location"; "description"; "competition";
          "revenue_notes"; "funding_notes"; "good"; "challenges"; "needs_action"].

(** The keys every record of the second revision has: [url] comes after
    [description]. *)
Definition record_keys_with_url : list jsstring :=
  map js ["id"; "company_name"; "doc_url"; "date_created";
          "arr_run_rate"; "carr"; "revenue_2024"; "revenue_2023"; "revenue_2022";
          "monthly_burn"; "cash"; "runway"; "raising"; "raised";
          "last_round_valuation"; "acv"; "acv_2"; "customer_count";
          "customer_count_2"; "logo_churn_annual"; "cac"; "payback_period";
          "ltv_to_cac"; "gross_margin"; "saas_recurring_percent"; "nrr";
          "team_size"; "year_founded"; "location"; "description"; "url";
          "competition"; "revenue_notes"; "funding_notes"; "good"; "challenges";
          "needs_action"].

(** The stage outputs a record is assembled from, each with the closed
    schema of its stage; [simple] lists the fields of the simple-fields
    stage. *)
Definition stage_outputs (simple : list (string * field_type))
    (simpleFields acvData customerData churnData burnData valuationData : value)
    : list (Schema * value) :=
  [(closed_schema simple, simpleFields); (acv_schema, acvData);
   (customer_schema, customerData); (churn_schema, churnData);
   (burn_schema, burnData); (valuation_schema, valuationData)].

(** The record holds, under every field of the schema of each stage, what
    the output of that stage holds under it. *)
Definition merges (record : object) (stages : list (Schema * value)) : Prop :=
  Forall (fun stage =>
            Forall (fun k => get_prop (snd stage) k = Ok (obj_get record k))
                   (required (fst stage)))
         stages.

(** The closed schema of a record in the words of the specification: the
    union of the schemas of the stages, plus the fields [extra], which hold
    texts. *)
Definition record_schema (extra : list string) (stages : list Schema) : Schema :=
  mkSchema (map (fun k => (js k, TString)) extra ++ flat_map properties stages)
           (map js extra ++ flat_map required stages)
           false.

(** The churn requests of the two revisions for a text. *)
Definition churn_request (rev : string) (text : jsstring) : Request :=
  mkRequest (mkPrompt (rev ++ "/convertChurnToAnnual")%string [text])
            (js "churn_temporal_conversion") churn_schema.

(** ** Notions used to state the further properties *)

(** The offset of the first place of the text at which the label stands,
    letter case ignored. *)
Fixpoint label_index (label text : jsstring) : option nat :=
  match match_label label text with
  | Some _ => Some 0
  | None => match text with
            | [] => None
            | _ :: text' => option_map S (label_index label text')
            end
  end.

(** The logger line of a response whose code is not 200: the code and the
    response body. A call that got no response, or one with code 200, has
    no such line. *)
Definition status_line (pf : Platform) (h : list Request) (r : Request) : list LogMsg :=
  match fetch pf h r with
  | Ok response =>
      if (getResponseCode response =? 200)%N then []
      else [mkLog "API Error" [LS (dec (getResponseCode response));
                               LS (getContentText response)]]
  | Throw _ => []
  end.

(** A computation that sends the requests of [l], in this order, and stops
    sending at its first failure: whatever happens a prefix of [l] has been
    sent when it ends, and all of [l] when it returns. *)
Definition sends_in_order {A} (m : M A) (l : list Request) : Prop :=
  forall w,
    (exists n, fetched (snd (m w)) = fetched w ++ firstn n l)
    /\ (is_ok (fst (m w)) = true -> fetched (snd (m w)) = fetched w ++ l).

(** The requests of a run of the second revision on a document text: the
    simple fields first, then one request for each of the five other stages
    unless the text is blank; each carries the whole text. *)
Definition rev2_requests (docText : jsstring) : list Request :=
  let ask (template name : string) (schema : Schema) :=
    mkRequest (mkPrompt template [docText]) (js name) schema in
  ask "rev2/parseSimpleFieldsBatch" "simple_fields_batch"
      (closed_schema ([("company_name", TString); ("url", TString)] ++ simple_props))
  :: (if is_blank docText then []
      else [ask "rev2/analyzeACVComplexity" "acv_complexity_analysis" acv_schema;
            ask "rev2/analyzeCustomerComplexity" "customer_complexity_analysis"
                customer_schema;
            ask "rev2/convertChurnToAnnual" "churn_temporal_conversion" churn_schema;
            ask "rev2/normalizeMonthlyBurn" "monthly_burn_normalization" burn_schema;
            ask "rev2/extractLastRoundValuation" "valuation_extraction"
                valuation_schema]).

(** The schema names of the requests of a run of the first revision on a
    document text: the simple fields first, then one request for each stage
    whose raw field is not blank. *)
Definition rev1_stage_names (text : jsstring) : list jsstring :=
  let rawFields := map (Rev1.extract_field text) Rev1.fieldPatterns in
  let stage (raw : jsstring) (name : string) :=
    if is_blank raw then [] else [js name] in
  [js "simple_fields_batch"]
  ++ stage (get_or rawFields "ACV" []) "acv_complexity_analysis"
  ++ stage (get_or rawFields "# of Customers" []) "customer_complexity_analysis"
  ++ stage (get_or rawFields "Logo Churn Annual" []) "churn_temporal_conversion"
  ++ stage (get_or rawFields "Monthly Burn" []) "monthly_burn_normalization"
  ++ stage (get_or rawFields "Active round / fundraise Notes" [] ++ js " "
            ++ get_or rawFields "Other Funding Notes" [])
           "valuation_extraction".

(** A computation that leaves the sheet as it found it. *)
Definition keeps_book {A} (m : M A) : Prop :=
  forall w, book (snd (m w)) = book w.

(** Whether [validateCompanyRecord] accepts the record in world [w]. *)
Definition passes (pf : Platform) (companyRecord : object) (w : World) : bool :=
  match fst (DbWrite.validateCompanyRecord pf companyRecord w) with
  | Ok result => DbWrite.isValid result
  | Throw _ => false
  end.

(** The value [sanitizeCompanyRecord] leaves under a string field, a numeric
    field and an integer field that held [v]. *)
Definition sanitized_string (v : value) : value :=
  match v with
  | VStr [] => v
  | VStr s => if str_eqb (trim s) [] then VNull else VStr (trim s)
  | _ => v
  end.

Definition sanitized_number (pf : Platform) (v : value) : value :=
  if DbWrite.present v then VNum (DbWrite.js_ToNumber pf v) else v.

Definition sanitized_integer (pf : Platform) (v : value) : value :=
  if DbWrite.present v then VNum (Math_round pf (DbWrite.js_ToNumber pf v)) else v.

(** The value [sanitizeCompanyRecord] leaves under key [k] that held [v]:
    the three passes in turn, each on the fields of its list. *)
Definition sanitized_value (pf : Platform) (k : jsstring) (v : value) : value :=
  let listed (fields : list string) := existsb (fun f => str_eqb k (js f)) fields in
  let v := if listed DbWrite.stringFields then sanitized_string v else v in
  let v := if listed DbWrite.sanitize_numericFields then sanitized_number pf v else v in
  if listed DbWrite.integerFields then sanitized_integer pf v else v.

(** A step that rewrites the value under its field with [g] and touches
    nothing else. *)
Definition fieldwise (g : value -> value) (step : object -> string -> object) : Prop :=
  forall o f,
    keys (step o f) = keys o
    /\ (forall k, obj_get (step o f) k
                  = if str_eqb k (js f) then g (obj_get o k) else obj_get o k)
    /\ (g (prop o f) = prop o f -> step o f = o).

(** * Properties *)

(** ** Strings *)

Lemma trimStart_whitespace (s : jsstring) :
  Forall (fun c => is_whitespace c = true) s -> trimStart s = [].
Proof.
  induction 1 as [|c s Hc _ IH]; simpl; [reflexivity|].
  rewrite Hc. exact IH.
Qed.

Lemma trimStart_nil_whitespace (s : jsstring) :
  trimStart s = [] -> Forall (fun c => is_whitespace c = true) s.
Proof.
  induction s as [|c s IH]; simpl; [constructor|].
  destruct (is_whitespace c) eqn:Hc; [|discriminate].
  intros H. constructor; auto.
Qed.

Lemma str_eqb_true (s t : jsstring) : str_eqb s t = true <-> s = t.
Proof. unfold str_eqb. apply bool_decide_eq_true. Qed.

Lemma str_eqb_refl (s : jsstring) : str_eqb s s = true.
Proof. apply str_eqb_true. reflexivity. Qed.

(** The guard of every stage holds exactly on the texts made of white space
    only, the empty text included. *)
Lemma is_blank_whitespace (text : jsstring) :
  is_blank text = true <-> Forall (fun c => is_whitespace c = true) text.
Proof.
  unfold is_blank, trim. split.
  - intros H. apply orb_true_iff in H as [H|H]; apply str_eqb_true in H.
    + subst. constructor.
    + apply (f_equal (@rev N)) in H. rewrite rev_involutive in H. simpl in H.
      apply trimStart_nil_whitespace in H.
      destruct (trimStart text) as [|c r] eqn:E.
      * apply trimStart_nil_whitespace. exact E.
      * exfalso. clear -E H.
        assert (Hc : is_whitespace c = true).
        { rewrite List.Forall_forall in H. apply H. rewrite <- in_rev. left. reflexivity. }
        induction text as [|d text IH]; simpl in E; [discriminate|].
        destruct (is_whitespace d) eqn:Hd; [auto|].
        injection E as -> ->. congruence.
  - intros H. apply orb_true_iff. right. apply str_eqb_true.
    rewrite (trimStart_whitespace _ H). reflexivity.
Qed.

(** ** The classifier call *)

Lemma sends_refl (w : World) : sends w w [].
Proof. unfold sends. rewrite app_nil_r. auto. Qed.

Lemma sends_trans (w1 w2 w3 : World) (c1 c2 : list Request) :
  sends w1 w2 c1 -> sends w2 w3 c2 -> sends w1 w3 (c1 ++ c2).
Proof.
  unfold sends. intros (F1 & U1 & T1 & B1) (F2 & U2 & T2 & B2).
  rewrite F2, F1, U2, U1, T2, T1, B2, B1, app_assoc. auto.
Qed.

Lemma sends_log (t : string) (a : list logarg) (w : World) :
  sends w (snd (log t a w)) [].
Proof. unfold sends, log. simpl. rewrite app_nil_r. auto. Qed.

(** Case analysis on an innermost scrutinee of the goal. *)
Ltac break_match :=
  match goal with
  | |- context [match ?x with _ => _ end] =>
      lazymatch x with
      | context [match _ with _ => _ end] => fail
      | _ => destruct x eqn:?
      end
  end.

(** One step of evaluation of the monad's combinators. *)
Ltac run :=
  unfold try_catch, bind, lift, throw, ret, log, do_fetch, getUuid, nowISO,
    getFullYear, set_book, the_sheet;
  cbn [fst snd fetched uuids ticks logs book input schemaName schema].

Lemma call_outcome (pf : Platform) (p : Prompt) (s : Schema) (n : jsstring) (w : World) :
  fst (callOpenAIStructured pf p s n w) = classification pf (fetched w) (mkRequest p n s).
Proof.
  unfold classification, callOpenAIStructured. run.
  repeat (break_match; run; try reflexivity).
Qed.

Lemma call_sends (pf : Platform) (p : Prompt) (s : Schema) (n : jsstring) (w : World) :
  sends w (snd (callOpenAIStructured pf p s n w)) [mkRequest p n s].
Proof.
  unfold callOpenAIStructured, sends. run.
  repeat (break_match; run; try (repeat split; reflexivity)).
Qed.

(** *** Runs that returned *)

Lemma bind_ok {A B} (m : M A) (k : A -> M B) (w w' : World) (b : B) :
  bind m k w = (Ok b, w') ->
  exists a w1, m w = (Ok a, w1) /\ k a w1 = (Ok b, w').
Proof.
  unfold bind. destruct (m w) as [[a|e] w1]; [|discriminate].
  intros H. exists a, w1. split; [reflexivity|exact H].
Qed.

Lemma rethrow_ok {A} (m : M A) (t : string) (a : exn -> list logarg)
    (w w' : World) (r : A) :
  try_catch m (fun error => log t (a error) ;; throw error) w = (Ok r, w') ->
  m w = (Ok r, w').
Proof.
  unfold try_catch. destruct (m w) as [[x|e] w1]; [auto|]. run. discriminate.
Qed.

Lemma lift_ok {A} (o : outcome A) (w w' : World) (a : A) :
  lift o w = (Ok a, w') -> o = Ok a /\ w' = w.
Proof. unfold lift. intros H. injection H as -> ->. auto. Qed.

Lemma ret_ok {A} (x a : A) (w w' : World) :
  ret x w = (Ok a, w') -> a = x /\ w' = w.
Proof. unfold ret. intros H. injection H as -> ->. auto. Qed.

(** Every step of a run that returned has returned. *)
Ltac returned H :=
  repeat first
    [ apply rethrow_ok in H
    | let a := fresh "a" in let w := fresh "w" in let H1 := fresh "H" in
      apply bind_ok in H as (a & w & H1 & H) ].

(** ** C3: blank text short-circuits the segmentation stages *)

(** C3. When the source text of the metric is empty or consists of white
    space only, [analyzeACVComplexity] and [analyzeCustomerComplexity] (in
    both revisions) return the object with both outputs [null]; the world is
    returned as it was, so no classifier request is sent, and the outcome is
    [Ok], so nothing is thrown. *)
Theorem blank_text_short_circuits (pf : Platform) (text : jsstring)
    (context : list (jsstring * jsstring)) (w : World) :
  Forall (fun c => is_whitespace c = true) text ->
  Rev1.analyzeACVComplexity pf text context w
    = (Ok (VObj [(js "acv", VNull); (js "acv_2", VNull)]), w)
  /\ Rev1.analyzeCustomerComplexity pf text context w
    = (Ok (VObj [(js "customer_count", VNull); (js "customer_count_2", VNull)]), w)
  /\ Rev2.analyzeACVComplexity pf text w
    = (Ok (VObj [(js "acv", VNull); (js "acv_2", VNull)]), w)
  /\ Rev2.analyzeCustomerComplexity pf text w
    = (Ok (VObj [(js "customer_count", VNull); (js "customer_count_2", VNull)]), w).
Proof.
  intros H. apply is_blank_whitespace in H.
  unfold Rev1.analyzeACVComplexity, Rev1.analyzeCustomerComplexity,
    Rev2.analyzeACVComplexity, Rev2.analyzeCustomerComplexity.
  rewrite H. repeat split; reflexivity.
Qed.

Lemma blank_text_short_circuits_witness :
  Rev1.analyzeACVComplexity Sample.offline (js "  " ++ [10%N]) [] Sample.w0
    = (Ok (VObj [(js "acv", VNull); (js "acv_2", VNull)]), Sample.w0)
  /\ Rev1.analyzeCustomerComplexity Sample.offline (js "  " ++ [10%N]) [] Sample.w0
    = (Ok (VObj [(js "customer_count", VNull); (js "customer_count_2", VNull)]), Sample.w0)
  /\ Rev2.analyzeACVComplexity Sample.offline (js "  " ++ [10%N]) Sample.w0
    = (Ok (VObj [(js "acv", VNull); (js "acv_2", VNull)]), Sample.w0)
  /\ Rev2.analyzeCustomerComplexity Sample.offline (js "  " ++ [10%N]) Sample.w0
    = (Ok (VObj [(js "customer_count", VNull); (js "customer_count_2", VNull)]), Sample.w0).
Proof.
  apply (blank_text_short_circuits Sample.offline (js "  " ++ [10%N]) [] Sample.w0).
  repeat constructor.
Defined.

(** ** C1: the churn converter returns what the classifier returns *)

(** The stage hands back the [logo_churn_annual] of the classifier's reply. *)
Lemma churn_of_reply (pf : Platform) (p : Prompt) (w : World) (o : object) :
  classification pf (fetched w) (mkRequest p (js "churn_temporal_conversion") churn_schema)
    = Ok (VObj o) ->
  fst ((let* result := callOpenAIStructured pf p churn_schema
                         (js "churn_temporal_conversion") in
        let* v := lift (get_prop result (js "logo_churn_annual")) in
        ret (VObj [(js "logo_churn_annual", v)])) w)
  = Ok (VObj [(js "logo_churn_annual", prop o "logo_churn_annual")]).
Proof.
  intros H. rewrite <- call_outcome in H.
  unfold bind at 1.
  destruct (callOpenAIStructured pf p churn_schema (js "churn_temporal_conversion") w)
    as [r w'] eqn:E.
  simpl in H. subst r. reflexivity.
Qed.

(** C1 (as amended). For a churn text that is not blank, when the
    classification call of the stage returns an object, the stage returns
    as [logo_churn_annual] exactly the value of that property in the reply:
    the code does no arithmetic on the rate, in either revision. *)
Theorem churn_rate_is_classifier_value (pf : Platform) (text : jsstring) (w : World) :
  is_blank text = false ->
  (forall o, classification pf (fetched w) (churn_request "rev1" text) = Ok (VObj o) ->
     fst (Rev1.convertChurnToAnnual pf text w)
     = Ok (VObj [(js "logo_churn_annual", prop o "logo_churn_annual")]))
  /\ (forall o, classification pf (fetched w) (churn_request "rev2" text) = Ok (VObj o) ->
     fst (Rev2.convertChurnToAnnual pf text w)
     = Ok (VObj [(js "logo_churn_annual", prop o "logo_churn_annual")])).
Proof.
  intros Hb. unfold Rev1.convertChurnToAnnual, Rev2.convertChurnToAnnual, churn_request.
  rewrite Hb. split; intros o H; apply churn_of_reply; exact H.
Qed.

Lemma churn_rate_is_classifier_value_witness :
  fst (Rev1.convertChurnToAnnual (Sample.churn_platform Sample.annual_reply)
         (js "15% annual") Sample.w0)
  = Ok (VObj [(js "logo_churn_annual", VNum 0.15)]).
Proof.
  apply (proj1 (churn_rate_is_classifier_value
                  (Sample.churn_platform Sample.annual_reply)
                  (js "15% annual") Sample.w0 eq_refl)
               [(js "logo_churn_annual", VNum 0.15)]).
  vm_compute. reflexivity.
Defined.

(** The compounding formula of the specification at a monthly 2% is about
    0.21528: farther than 0.0005 from the 0.2158 that the specification
    quotes, and farther than 0.02 from the linear 0.24. *)
Lemma compounding_of_two_percent :
  PrimFloat.ltb (abs (annualize_monthly 0.02 - 0.21528)) 0.00001 = true
  /\ PrimFloat.ltb 0.0005 (abs (annualize_monthly 0.02 - 0.2158)) = true
  /\ PrimFloat.ltb 0.02 (abs (annualize_monthly 0.02 - 0.24)) = true.
Proof. vm_compute. repeat split; reflexivity. Qed.

(** C1 fails as stated: when the classifier answers the text "2% monthly"
    with the well-formed, schema-conforming payload whose rate is 0.24, both
    revisions of the converter return 0.24, which is not the compounded
    rate. *)
Lemma churn_linear_reply_is_returned :
  fst (Rev1.convertChurnToAnnual (Sample.churn_platform Sample.linear_reply)
         (js "2% monthly") Sample.w0)
  = Ok (VObj [(js "logo_churn_annual", VNum 0.24)])
  /\ fst (Rev2.convertChurnToAnnual (Sample.churn_platform Sample.linear_reply)
         (js "2% monthly") Sample.w0)
  = Ok (VObj [(js "logo_churn_annual", VNum 0.24)])
  /\ PrimFloat.ltb 0.02 (abs (0.24 - annualize_monthly 0.02)) = true.
Proof. vm_compute. repeat split; reflexivity. Qed.

(** ** C7: the record assembler *)

Lemma get_prop_ok (v : value) (k : jsstring) :
  is_ok (get_prop v k) = negb (nullish v).
Proof. destruct v; reflexivity. Qed.

Lemma read_props_ok (entries : list (string * value)) :
  is_ok (read_props entries) = forallb (fun e => negb (nullish (snd e))) entries.
Proof.
  induction entries as [|[k src] rest IH]; [reflexivity|].
  cbn [read_props forallb snd]. rewrite <- IH, <- (get_prop_ok src (js k)).
  destruct (get_prop src (js k)); [|reflexivity].
  destruct (read_props rest); reflexivity.
Qed.

Lemma read_props_cons (k : string) (src : value) (entries : list (string * value))
    (o : object) :
  read_props ((k, src) :: entries) = Ok o ->
  exists v o', get_prop src (js k) = Ok v /\ o = (js k, v) :: o'
               /\ read_props entries = Ok o'.
Proof.
  cbn [read_props]. destruct (get_prop src (js k)) as [v|]; [|discriminate].
  destruct (read_props entries) as [o'|]; [|discriminate].
  intros [= <-]. eauto.
Qed.

Lemma lookup_in (o : object) (k : jsstring) (v : value) :
  List.NoDup (keys o) -> In (k, v) o -> obj_get o k = v.
Proof.
  unfold obj_get. induction o as [|[k' v'] o IH]; intros Hn Hin; [destruct Hin|].
  cbn [lookup_prop]. cbn [keys map fst] in Hn. inversion Hn as [|? ? Hk Hn']; subst.
  destruct Hin as [[= -> ->]|Hin].
  - rewrite str_eqb_refl. reflexivity.
  - destruct (str_eqb k k') eqn:E.
    + apply str_eqb_true in E. subst k'. exfalso. apply Hk.
      change k with (fst (k, v)). apply in_map. exact Hin.
    + apply IH; assumption.
Qed.

Lemma lookup_key (o : object) (k : jsstring) :
  existsb (str_eqb k) (keys o) = true -> exists v, lookup_prop k o = Some v /\ In (k, v) o.
Proof.
  induction o as [|[k' v'] o IH]; cbn [keys map fst existsb lookup_prop]; [discriminate|].
  destruct (str_eqb k k') eqn:E.
  - apply str_eqb_true in E. subst k'. intros _. exists v'. split; [reflexivity|left; reflexivity].
  - cbn [orb]. intros H. destruct (IH H) as (v & Hv & Hin). exists v. split; [exact Hv|right; exact Hin].
Qed.

(** A field of a payload that matches its schema has the type the schema
    declares. *)
Lemma conforms_field (s : Schema) (src : value) (k : jsstring) (t : field_type) (v : value) :
  conforms s src = true ->
  get_prop src k = Ok v ->
  existsb (str_eqb k) (required s) = true ->
  option_map snd (List.find (fun p => str_eqb k (fst p)) (properties s)) = Some t ->
  conforms_type t v = true.
Proof.
  destruct src as [| | | | | |o]; try discriminate. cbn [conforms get_prop].
  intros Hc [= <-] Hr Ht. apply andb_true_iff in Hc as [Hreq Hall].
  apply existsb_exists in Hr as (k' & Hin & Hk). apply str_eqb_true in Hk. subst k'.
  rewrite forallb_forall in Hreq. specialize (Hreq k Hin).
  destruct (lookup_key o k Hreq) as (v & Hv & Hino).
  unfold obj_get. rewrite Hv. cbn [default].
  rewrite forallb_forall in Hall. specialize (Hall (k, v) Hino). cbn [fst snd] in Hall.
  destruct (List.find (fun p => str_eqb k (fst p)) (properties s)) as [p|]; [|discriminate].
  cbn in Ht. injection Ht as <-. exact Hall.
Qed.

Lemma raw_name_is_text (raw : list (jsstring * jsstring)) (k : jsstring) (name : value) :
  get_prop (obj_of_strings raw) k = Ok name ->
  conforms_type TString (or_null name) = true.
Proof.
  unfold obj_of_strings. cbn [get_prop]. intros [= <-]. unfold obj_get.
  induction raw as [|[k' s] raw IH]; [reflexivity|].
  cbn [map lookup_prop fst snd]. destruct (str_eqb k k'); [|exact IH].
  unfold or_null. cbn. destruct (negb (str_eqb s [])); reflexivity.
Qed.

Lemma keys_distinct :
  List.NoDup record_keys /\ List.NoDup record_keys_with_url.
Proof.
  split; apply NoDup_ListNoDup, (bool_decide_unpack _); vm_compute; reflexivity.
Qed.

(** The entries of an assembled record, one by one. *)
Ltac assembled H :=
  cbv zeta in H;
  let id := fresh "id" in let name := fresh "name" in
  let now := fresh "now" in let rest := fresh "rest" in
  let w1 := fresh "w" in let w2 := fresh "w" in
  let w3 := fresh "w" in let w4 := fresh "w" in
  let Hid := fresh "Hid" in let Hname := fresh "Hname" in
  let Hnow := fresh "Hnow" in let Hrest := fresh "Hrest" in
  apply bind_ok in H as (id & w1 & Hid & H);
  apply bind_ok in H as (name & w2 & Hname & H);
  apply bind_ok in H as (now & w3 & Hnow & H);
  apply bind_ok in H as (rest & w4 & Hrest & H);
  apply ret_ok in H as [-> ->];
  apply lift_ok in Hname as [Hname ->];
  apply lift_ok in Hrest as [Hrest ->];
  unfold getUuid in Hid; injection Hid as <- <-;
  unfold nowISO in Hnow; injection Hnow as <- <-;
  repeat (let v := fresh "v" in let o := fresh "o" in let Hv := fresh "Hv" in
          apply read_props_cons in Hrest as (v & o & Hv & -> & Hrest));
  cbn [read_props] in Hrest; injection Hrest as <-.

(** A field read by name in a record whose entries are known. *)
Ltac field_of_record Hn :=
  erewrite (lookup_in _ _ _ Hn); [reflexivity|];
  cbn [app]; repeat first [left; reflexivity | right].

(** The record is checked against its schema entry by entry: the four
    entries of the assembler are texts or [null], and every other entry has
    the type its stage's schema declares. *)
Ltac record_conforms Hk :=
  unfold conforms; apply andb_true_intro; split;
  [ rewrite Hk; vm_compute; reflexivity
  | let k := fresh "key" in let v := fresh "val" in let Hin := fresh "Hin" in
    apply forallb_forall; intros [k v] Hin; cbn [app] in Hin;
    repeat destruct Hin as [Hin|Hin]; [..|destruct Hin];
    injection Hin as <- <-; cbn [fst snd];
    match goal with
    | |- context [List.find ?f ?l] =>
        let r := eval vm_compute in (List.find f l) in
        let E := fresh "E" in
        assert (E : List.find f l = r) by (vm_compute; reflexivity);
        rewrite E; clear E; cbn [snd]
    end;
    first
      [ reflexivity
      | eapply raw_name_is_text; eassumption
      | match goal with
        | Hg : get_prop ?src ?k = Ok ?v, Hs : conforms ?S ?src = true
          |- conforms_type ?t ?v = true =>
            apply (conforms_field S src k t v Hs Hg); vm_compute; reflexivity
        end ] ].

(** C7 (as amended). [assembleCompleteRecord] succeeds exactly when none of
    its stage-output arguments is [undefined] or [null], whatever the values
    inside them (all [null] included). When it succeeds the record has
    exactly the keys of the record schema, in order; its [id] is the UUID
    drawn from the platform by this call, its [date_created] the time read
    by this call, its [doc_url] the link to the document; in the first
    revision its [company_name] is the raw field "Company Name", or [null];
    and under every field of the schema of a stage it holds what the output
    of that stage holds under it, unchecked. So the record matches the
    closed record schema whenever every stage output matches the closed
    schema of its stage (and, in the first revision, the raw fields are
    texts). Both revisions. *)
Theorem assemble_succeeds_iff_outputs_present (pf : Platform) (docId : jsstring)
    (rawFields simpleFields acvData customerData churnData burnData valuationData : value)
    (w : World) :
  (is_ok (fst (Rev1.assembleCompleteRecord pf docId rawFields simpleFields acvData
                 customerData churnData burnData valuationData w))
   = forallb (fun v => negb (nullish v))
       [rawFields; simpleFields; acvData; customerData; churnData; burnData; valuationData]
   /\ forall record w',
       Rev1.assembleCompleteRecord pf docId rawFields simpleFields acvData
         customerData churnData burnData valuationData w = (Ok record, w') ->
       keys record = record_keys
       /\ prop record "id" = VStr (uuid_at pf (uuids w))
       /\ prop record "date_created" = VStr (iso_at pf (ticks w))
       /\ uuids w' = S (uuids w)
       /\ prop record "doc_url" = VStr (js "https://docs.google.com/document/d/" ++ docId)
       /\ (exists name, get_prop rawFields (js "Company Name") = Ok name
                        /\ prop record "company_name" = or_null name)
       /\ merges record
            (stage_outputs simple_props simpleFields acvData customerData churnData
               burnData valuationData)
       /\ ((exists raw, rawFields = obj_of_strings raw) ->
           Forall (fun stage => conforms (fst stage) (snd stage) = true)
             (stage_outputs simple_props simpleFields acvData customerData churnData
                burnData valuationData) ->
           conforms
             (record_schema ["id"; "company_name"; "doc_url"; "date_created"]
                (map fst (stage_outputs simple_props simpleFields acvData customerData
                            churnData burnData valuationData)))
             (VObj record) = true))
  /\
  (is_ok (fst (Rev2.assembleCompleteRecord pf docId simpleFields acvData
                 customerData churnData burnData valuationData w))
   = forallb (fun v => negb (nullish v))
       [simpleFields; acvData; customerData; churnData; burnData; valuationData]
   /\ forall record w',
       Rev2.assembleCompleteRecord pf docId simpleFields acvData
         customerData churnData burnData valuationData w = (Ok record, w') ->
       keys record = record_keys_with_url
       /\ prop record "id" = VStr (uuid_at pf (uuids w))
       /\ prop record "date_created" = VStr (iso_at pf (ticks w))
       /\ uuids w' = S (uuids w)
       /\ prop record "doc_url" = VStr (js "https://docs.google.com/document/d/" ++ docId)
       /\ merges record
            (stage_outputs ([("company_name", TString); ("url", TString)] ++ simple_props)
               simpleFields acvData customerData churnData burnData valuationData)
       /\ (Forall (fun stage => conforms (fst stage) (snd stage) = true)
             (stage_outputs ([("company_name", TString); ("url", TString)] ++ simple_props)
                simpleFields acvData customerData churnData burnData valuationData) ->
           conforms
             (record_schema ["id"; "doc_url"; "date_created"]
                (map fst (stage_outputs
                            ([("company_name", TString); ("url", TString)] ++ simple_props)
                            simpleFields acvData customerData churnData burnData
                            valuationData)))
             (VObj record) = true)).
Proof.
  destruct keys_distinct as [Hn1 Hn2].
  split; split.
  - unfold Rev1.assembleCompleteRecord. run.
    pose proof (get_prop_ok rawFields (js "Company Name")) as Hcn.
    destruct (get_prop rawFields (js "Company Name")); cbn [is_ok] in Hcn.
    + match goal with |- context [read_props ?e] =>
        pose proof (read_props_ok e) as Hr; destruct (read_props e) end;
      cbn [is_ok fst forallb snd] in *; rewrite <- Hcn, Hr;
      destruct (nullish simpleFields), (nullish acvData), (nullish customerData),
        (nullish churnData), (nullish burnData), (nullish valuationData); reflexivity.
    + cbn [fst is_ok forallb]. rewrite <- Hcn. reflexivity.
  - intros record w' H. unfold Rev1.assembleCompleteRecord in H. assembled H.
    match goal with
    | |- keys ?r = _ /\ _ => set (record := r);
        assert (Hk : keys record = record_keys) by reflexivity
    end.
    rewrite <- Hk in Hn1.
    split; [exact Hk|].
    split; [unfold prop; subst record; field_of_record Hn1|].
    split; [unfold prop; subst record; field_of_record Hn1|].
    split; [reflexivity|].
    split; [unfold prop; subst record; field_of_record Hn1|].
    split; [exists name; split; [assumption|unfold prop; subst record; field_of_record Hn1]|].
    split.
    + unfold merges, stage_outputs. cbn [closed_schema required map fst snd simple_props].
      repeat constructor;
        match goal with
        | |- get_prop _ _ = Ok _ => 
            etransitivity; [eassumption|]; f_equal; symmetry; subst record; field_of_record Hn1
        end.
    + intros [raw ->] Hc. unfold stage_outputs in Hc.
      repeat match goal with
             | H : Forall _ (_ :: _) |- _ =>
                 apply List.Forall_cons_iff in H as [? H]
             end.
      cbn [fst snd] in *. subst record. record_conforms Hk.
  - unfold Rev2.assembleCompleteRecord. run.
    pose proof (get_prop_ok simpleFields (js "company_name")) as Hcn.
    destruct (get_prop simpleFields (js "company_name")); cbn [is_ok] in Hcn.
    + match goal with |- context [read_props ?e] =>
        pose proof (read_props_ok e) as Hr; destruct (read_props e) end;
      cbn [is_ok fst forallb snd] in *; rewrite Hr; rewrite <- Hcn;
      destruct (nullish acvData), (nullish customerData),
        (nullish churnData), (nullish burnData), (nullish valuationData); reflexivity.
    + cbn [fst is_ok forallb]. rewrite <- Hcn. reflexivity.
  - intros record w' H. unfold Rev2.assembleCompleteRecord in H. assembled H.
    match goal with
    | |- keys ?r = _ /\ _ => set (record := r);
        assert (Hk : keys record = record_keys_with_url) by reflexivity
    end.
    rewrite <- Hk in Hn2.
    split; [exact Hk|].
    split; [unfold prop; subst record; field_of_record Hn2|].
    split; [unfold prop; subst record; field_of_record Hn2|].
    split; [reflexivity|].
    split; [unfold prop; subst record; field_of_record Hn2|].
    split.
    + unfold merges, stage_outputs. cbn [closed_schema required map fst snd simple_props app].
      repeat constructor;
        match goal with
        | |- get_prop _ _ = Ok _ =>
            etransitivity; [eassumption|]; f_equal; symmetry; subst record;
            field_of_record Hn2
        end.
    + intros Hc. unfold stage_outputs in Hc.
      repeat match goal with
             | H : Forall _ (_ :: _) |- _ =>
                 apply List.Forall_cons_iff in H as [? H]
             end.
      cbn [fst snd] in *. subst record. record_conforms Hk.
Qed.

(** Stage outputs whose values are all [null] are assembled into a record
    that matches the record schema; a missing stage output is not
    assembled. *)
Example assemble_null_outputs :
  let simple := snd Sample.simple_reply in
  let acv := snd (Sample.null_fields ["acv"; "acv_2"]) in
  let stages := stage_outputs ([("company_name", TString); ("url", TString)] ++ simple_props)
                  simple acv (snd Sample.customer_reply) (snd Sample.churn_reply)
                  (snd Sample.burn_reply) (snd Sample.valuation_reply) in
  forallb (fun stage => conforms (fst stage) (snd stage)) stages = true
  /\ match fst (Rev2.assembleCompleteRecord Sample.offline (js "doc1") simple acv
                  (snd Sample.customer_reply) (snd Sample.churn_reply)
                  (snd Sample.burn_reply) (snd Sample.valuation_reply) Sample.w0) with
     | Ok record =>
         conforms (record_schema ["id"; "doc_url"; "date_created"] (map fst stages))
                  (VObj record)
     | Throw _ => false
     end = true
  /\ fst (Rev2.assembleCompleteRecord Sample.offline (js "doc1") simple VUndef
            (snd Sample.customer_reply) (snd Sample.churn_reply)
            (snd Sample.burn_reply) (snd Sample.valuation_reply) Sample.w0)
     = Throw (TypeError "property read on undefined or null").
Proof. vm_compute. repeat split; reflexivity. Qed.

(** C7 fails as stated: an ACV stage output that is a present object
    without properties is assembled, in both revisions, into a record that
    holds [undefined] under [acv] and [acv_2]; it does not match the record
    schema, whose fields are values of their type or [null]. *)
Lemma output_without_fields_is_assembled :
  let simple := snd Sample.simple_reply in
  let raw := obj_of_strings [(js "Company Name", js "Acme")] in
  let stages1 := stage_outputs simple_props
                   (snd (Sample.null_fields (map fst simple_props))) (VObj []) (snd Sample.customer_reply) (snd Sample.churn_reply)
                   (snd Sample.burn_reply) (snd Sample.valuation_reply) in
  let stages2 := stage_outputs ([("company_name", TString); ("url", TString)] ++ simple_props)
                   simple (VObj []) (snd Sample.customer_reply) (snd Sample.churn_reply)
                   (snd Sample.burn_reply) (snd Sample.valuation_reply) in
  let run1 := fst (Rev1.assembleCompleteRecord Sample.offline (js "doc1") raw
                     (snd (Sample.null_fields (map fst simple_props))) (VObj []) (snd Sample.customer_reply) (snd Sample.churn_reply)
                     (snd Sample.burn_reply) (snd Sample.valuation_reply) Sample.w0) in
  let run2 := fst (Rev2.assembleCompleteRecord Sample.offline (js "doc1") simple
                     (VObj []) (snd Sample.customer_reply) (snd Sample.churn_reply)
                     (snd Sample.burn_reply) (snd Sample.valuation_reply) Sample.w0) in
  is_ok run1 = true /\ is_ok run2 = true
  /\ field_of run1 "acv" = Some VUndef /\ field_of run1 "acv_2" = Some VUndef
  /\ field_of run2 "acv" = Some VUndef /\ field_of run2 "acv_2" = Some VUndef
  /\ match run1 with
     | Ok record =>
         conforms (record_schema ["id"; "company_name"; "doc_url"; "date_created"]
                     (map fst stages1)) (VObj record)
     | Throw _ => true
     end = false
  /\ match run2 with
     | Ok record =>
         conforms (record_schema ["id"; "doc_url"; "date_created"] (map fst stages2))
                  (VObj record)
     | Throw _ => true
     end = false.
Proof. vm_compute. repeat split; reflexivity. Qed.

(** ** C5: re-running the pipeline *)

Section Related.
Context {A B : Type}.

Lemma agree_refl (o : outcome A) : agree eq o o.
Proof. destruct o; reflexivity. Qed.

Lemma related_ret (R : A -> A -> Prop) (a b : A) : R a b -> related R (ret a) (ret b).
Proof. intros H w1 w2. exact H. Qed.

Lemma related_throw (R : A -> A -> Prop) (e : exn) : related R (throw e) (throw e).
Proof. intros w1 w2. reflexivity. Qed.

Lemma related_lift (o : outcome A) : related eq (lift o) (lift o).
Proof. intros w1 w2. apply agree_refl. Qed.

Lemma related_bind (Q : A -> A -> Prop) (R : B -> B -> Prop)
    (m1 m2 : M A) (k1 k2 : A -> M B) :
  related Q m1 m2 -> (forall a b, Q a b -> related R (k1 a) (k2 b)) ->
  related R (bind m1 k1) (bind m2 k2).
Proof.
  intros Hm Hk w1 w2. specialize (Hm w1 w2). unfold bind.
  destruct (m1 w1) as [[a|e1] w1'], (m2 w2) as [[b|e2] w2']; cbn in *;
    try contradiction.
  - apply Hk. exact Hm.
  - exact Hm.
Qed.

Lemma related_bind_eq (R : B -> B -> Prop) (m1 m2 : M A) (k1 k2 : A -> M B) :
  related eq m1 m2 -> (forall a, related R (k1 a) (k2 a)) ->
  related R (bind m1 k1) (bind m2 k2).
Proof. intros Hm Hk. apply (related_bind eq); [exact Hm|]. intros a b <-. apply Hk. Qed.

Lemma related_try (R : A -> A -> Prop) (m1 m2 : M A) (h1 h2 : exn -> M A) :
  related R m1 m2 -> (forall e, related R (h1 e) (h2 e)) ->
  related R (try_catch m1 h1) (try_catch m2 h2).
Proof.
  intros Hm Hh w1 w2. specialize (Hm w1 w2). unfold try_catch.
  destruct (m1 w1) as [[a|e1] w1'], (m2 w2) as [[b|e2] w2']; cbn in *;
    try contradiction.
  - exact Hm.
  - subst e2. apply Hh.
Qed.

End Related.

Lemma related_log (t1 t2 : string) (a1 a2 : list logarg) :
  related eq (log t1 a1) (log t2 a2).
Proof. intros w1 w2. reflexivity. Qed.

Lemma related_fetch (pf : Platform) (r : Request) :
  deterministic pf -> related eq (do_fetch pf r) (do_fetch pf r).
Proof.
  intros Hd w1 w2. unfold do_fetch. cbn [fst].
  rewrite (Hd (fetched w1) (fetched w2)). apply agree_refl.
Qed.

(** One step of a proof that a computation is related to itself. *)
Ltac rel_step :=
  first
    [ apply related_ret; reflexivity
    | apply related_throw
    | apply related_lift
    | apply related_log
    | apply related_fetch; assumption
    | apply related_try; [| intros ?]
    | apply related_bind_eq; [| intros ?]
    | match goal with
      | |- related _ (if ?b then _ else _) (if ?b then _ else _) => destruct b
      end ].

Lemma related_call (pf : Platform) (p : Prompt) (s : Schema) (n : jsstring) :
  deterministic pf ->
  related eq (callOpenAIStructured pf p s n) (callOpenAIStructured pf p s n).
Proof. intros Hd. unfold callOpenAIStructured. repeat rel_step. Qed.

Lemma related_uuid (pf : Platform) :
  related (fun _ _ => True) (getUuid pf) (getUuid pf).
Proof. intros w1 w2. exact I. Qed.

Lemma related_now (pf : Platform) :
  related (fun _ _ => True) (nowISO pf) (nowISO pf).
Proof. intros w1 w2. exact I. Qed.

Lemma same_fields_assembled (id1 id2 d1 d2 : jsstring) (name url : value) (rest : object) :
  same_fields
    ([(js "id", VStr id1); (js "company_name", name); (js "doc_url", url);
      (js "date_created", VStr d1)] ++ rest)
    ([(js "id", VStr id2); (js "company_name", name); (js "doc_url", url);
      (js "date_created", VStr d2)] ++ rest).
Proof.
  split; [reflexivity|].
  intros k Hid Hdate. unfold obj_get. cbn [app lookup_prop].
  destruct (str_eqb k (js "id")) eqn:E1; [apply str_eqb_true in E1; contradiction|].
  destruct (str_eqb k (js "company_name")); [reflexivity|].
  destruct (str_eqb k (js "doc_url")); [reflexivity|].
  destruct (str_eqb k (js "date_created")) eqn:E2;
    [apply str_eqb_true in E2; contradiction|].
  reflexivity.
Qed.

Lemma related_assemble1 (pf : Platform) (docId : jsstring)
    (rawFields simpleFields acvData customerData churnData burnData valuationData : value) :
  related same_fields
    (Rev1.assembleCompleteRecord pf docId rawFields simpleFields acvData
       customerData churnData burnData valuationData)
    (Rev1.assembleCompleteRecord pf docId rawFields simpleFields acvData
       customerData churnData burnData valuationData).
Proof.
  unfold Rev1.assembleCompleteRecord. cbv zeta.
  apply (related_bind (fun _ _ => True)); [apply related_uuid|]. intros id1 id2 _.
  apply related_bind_eq; [apply related_lift|]. intros name.
  apply (related_bind (fun _ _ => True)); [apply related_now|]. intros d1 d2 _.
  apply related_bind_eq; [apply related_lift|]. intros rest.
  apply related_ret. apply same_fields_assembled.
Qed.

Lemma related_assemble2 (pf : Platform) (docId : jsstring)
    (simpleFields acvData customerData churnData burnData valuationData : value) :
  related same_fields
    (Rev2.assembleCompleteRecord pf docId simpleFields acvData
       customerData churnData burnData valuationData)
    (Rev2.assembleCompleteRecord pf docId simpleFields acvData
       customerData churnData burnData valuationData).
Proof.
  unfold Rev2.assembleCompleteRecord. cbv zeta.
  apply (related_bind (fun _ _ => True)); [apply related_uuid|]. intros id1 id2 _.
  apply related_bind_eq; [apply related_lift|]. intros name.
  apply (related_bind (fun _ _ => True)); [apply related_now|]. intros d1 d2 _.
  apply related_bind_eq; [apply related_lift|]. intros rest.
  apply related_ret. apply same_fields_assembled.
Qed.

(** A step through the body of [parseCompanyFromDoc]: the assembler is
    related up to [id] and [date_created], every other statement exactly. *)
Ltac rel_pipeline :=
  first
    [ match goal with
      | |- related _ (bind (Rev1.assembleCompleteRecord _ _ _ _ _ _ _ _ _) _) _ =>
          apply (related_bind same_fields); [apply related_assemble1 | intros ? ? ?]
      | |- related _ (bind (Rev2.assembleCompleteRecord _ _ _ _ _ _ _ _) _) _ =>
          apply (related_bind same_fields); [apply related_assemble2 | intros ? ? ?]
      | |- related same_fields (ret _) (ret _) => apply related_ret; assumption
      end
    | apply related_call; assumption
    | rel_step
    | progress cbv zeta ].

(** C5. With a classifier that is a function of its request, two runs of
    the pipeline on the same document, started in any two worlds (other
    UUIDs drawn, other clock readings, other earlier requests), either throw
    the same exception or return records with the same keys and the same
    value under every key except [id] and [date_created]. Both revisions. *)
Theorem rerun_agrees_except_id_and_date (pf : Platform) (docId : jsstring)
    (w1 w2 : World) :
  deterministic pf ->
  agree same_fields (fst (Rev1.parseCompanyFromDoc pf docId w1))
                    (fst (Rev1.parseCompanyFromDoc pf docId w2))
  /\ agree same_fields (fst (Rev2.parseCompanyFromDoc pf docId w1))
                       (fst (Rev2.parseCompanyFromDoc pf docId w2)).
Proof.
  intros Hd. split.
  - revert w1 w2. change (related same_fields (Rev1.parseCompanyFromDoc pf docId)
                                               (Rev1.parseCompanyFromDoc pf docId)).
    unfold Rev1.parseCompanyFromDoc, Rev1.extractRawFieldsFromDoc,
      Rev1.parseSimpleFieldsBatch, Rev1.analyzeACVComplexity,
      Rev1.analyzeCustomerComplexity, Rev1.convertChurnToAnnual,
      Rev1.normalizeMonthlyBurn, Rev1.extractLastRoundValuation.
    repeat rel_pipeline.
  - revert w1 w2. change (related same_fields (Rev2.parseCompanyFromDoc pf docId)
                                               (Rev2.parseCompanyFromDoc pf docId)).
    unfold Rev2.parseCompanyFromDoc,
      Rev2.parseSimpleFieldsBatch, Rev2.analyzeACVComplexity,
      Rev2.analyzeCustomerComplexity, Rev2.convertChurnToAnnual,
      Rev2.normalizeMonthlyBurn, Rev2.extractLastRoundValuation.
    repeat rel_pipeline.
Qed.

Lemma rerun_agrees_except_id_and_date_witness :
  let pf := Sample.stage_platform Sample.simple_reply Sample.secondary_only_reply
              Sample.customer_reply Sample.churn_reply Sample.burn_reply
              Sample.valuation_reply Sample.acme_doc in
  let later := mkWorld [churn_request "rev1" (js "earlier")] 3 5 [] None in
  agree same_fields (fst (Rev1.parseCompanyFromDoc pf (js "doc1") Sample.w0))
                    (fst (Rev1.parseCompanyFromDoc pf (js "doc1") later))
  /\ agree same_fields (fst (Rev2.parseCompanyFromDoc pf (js "doc1") Sample.w0))
                       (fst (Rev2.parseCompanyFromDoc pf (js "doc1") later)).
Proof.
  intros pf later.
  apply (rerun_agrees_except_id_and_date pf (js "doc1") Sample.w0 later).
  intros h1 h2 r. reflexivity.
Defined.

(** ** C4: a failed classification call fails the run *)

Lemma all_answered_nil (pf : Platform) (h : list Request) : all_answered pf h [].
Proof. intros pre r post H. destruct pre; discriminate. Qed.

Lemma all_answered_single (pf : Platform) (h : list Request) (r : Request) :
  is_ok (classification pf h r) = true -> all_answered pf h [r].
Proof.
  intros H pre r' post E. destruct pre as [|x pre].
  - injection E as <- _. rewrite app_nil_r. exact H.
  - injection E as _ E. destruct pre; discriminate.
Qed.

Lemma all_answered_app (pf : Platform) (h c1 c2 : list Request) :
  all_answered pf h c1 -> all_answered pf (h ++ c1) c2 ->
  all_answered pf h (c1 ++ c2).
Proof.
  intros H1 H2 pre r post E.
  apply app_eq_app in E as [l [[E1 E2]|[E1 E2]]].
  - destruct l as [|x l].
    + rewrite app_nil_r in E1. subst pre. cbn in E2. subst c2.
      specialize (H2 [] r post eq_refl). rewrite app_nil_r in H2. exact H2.
    + injection E2 as <- E2. apply (H1 pre r l). exact E1.
  - subst pre. rewrite app_assoc. apply (H2 l r post). exact E2.
Qed.

Lemma fails_last_app (pf : Platform) (h c1 c2 : list Request) (e : exn) :
  all_answered pf h c1 -> fails_last pf (h ++ c1) c2 e ->
  fails_last pf h (c1 ++ c2) e.
Proof.
  intros H1 (pre & r & -> & Hpre & Hr).
  exists (c1 ++ pre), r. split; [apply app_assoc|]. split.
  - apply all_answered_app; assumption.
  - rewrite app_assoc. exact Hr.
Qed.

Section FailFast.
Variable pf : Platform.
Context {A B : Type}.

Lemma stage_like_quiet (m : M A) :
  (forall w, sends w (snd (m w)) []) -> stage_like pf m.
Proof.
  intros H w. exists []. split; [apply H|]. left. apply all_answered_nil.
Qed.

Lemma stage_like_bind (m : M A) (k : A -> M B) :
  stage_like pf m -> (forall a, stage_like pf (k a)) -> stage_like pf (bind m k).
Proof.
  intros Hm Hk w. destruct (Hm w) as (c1 & S1 & H1). unfold bind.
  destruct (m w) as [[a|e] w1] eqn:E; cbn [fst snd] in *.
  - destruct (Hk a w1) as (c2 & S2 & H2).
    exists (c1 ++ c2). split; [exact (sends_trans _ _ _ _ _ S1 S2)|].
    destruct H1 as [H1|(e & _ & He)]; [|discriminate].
    destruct S1 as (F1 & _). rewrite F1 in H2.
    destruct H2 as [H2|(e & H2 & He)].
    + left. apply all_answered_app; assumption.
    + right. exists e. split; [apply fails_last_app; assumption|exact He].
  - exists c1. split; [exact S1|].
    destruct H1 as [H1|(e' & H1 & He)]; [left; exact H1|].
    right. exists e'. split; [exact H1|]. congruence.
Qed.

Lemma stage_like_rethrow (m : M A) (t : string) (a : exn -> list logarg) :
  stage_like pf m ->
  stage_like pf (try_catch m (fun error => log t (a error) ;; throw error)).
Proof.
  intros Hm w. destruct (Hm w) as (c & S & H). unfold try_catch.
  destruct (m w) as [[x|e] w1] eqn:E; cbn [fst snd] in *.
  - exists c. split; [exact S|exact H].
  - exists c. split.
    + rewrite <- (app_nil_r c). apply (sends_trans _ _ _ _ _ S).
      unfold bind, log, throw. cbn. unfold sends. cbn. rewrite app_nil_r. auto.
    + exact H.
Qed.

Lemma fail_fast_stage (m : M A) (k : A -> M B) :
  stage_like pf m -> (forall a, fail_fast pf (k a)) -> fail_fast pf (bind m k).
Proof.
  intros Hm Hk w. destruct (Hm w) as (c1 & S1 & H1). unfold bind.
  destruct (m w) as [[a|e] w1] eqn:E; cbn [fst snd] in *.
  - destruct (Hk a w1) as (c2 & F2 & H2).
    destruct S1 as (F1 & U1 & _).
    exists (c1 ++ c2). split; [rewrite F2, F1; symmetry; apply app_assoc|].
    destruct H1 as [H1|(e & _ & He)]; [|discriminate].
    rewrite F1 in H2.
    destruct H2 as [H2|(e & H2 & He & Hu)].
    + left. apply all_answered_app; assumption.
    + right. exists e. split; [apply fails_last_app; assumption|].
      split; [exact He|]. rewrite Hu. exact U1.
  - exists c1. destruct S1 as (F1 & U1 & _). split; [exact F1|].
    destruct H1 as [H1|(e' & H1 & He)]; [left; exact H1|].
    right. exists e'. split; [exact H1|]. split; [congruence|exact U1].
Qed.

Lemma fail_fast_silent (m : M A) :
  (forall w, fetched (snd (m w)) = fetched w) -> fail_fast pf m.
Proof.
  intros H w. exists []. rewrite app_nil_r. split; [apply H|].
  left. apply all_answered_nil.
Qed.

Lemma fail_fast_rethrow (m : M A) (t : string) (a : exn -> list logarg) :
  fail_fast pf m ->
  fail_fast pf (try_catch m (fun error => log t (a error) ;; throw error)).
Proof.
  intros Hm w. destruct (Hm w) as (c & F & H). unfold try_catch.
  destruct (m w) as [[x|e] w1] eqn:E; cbn [fst snd] in *.
  - exists c. split; [exact F|exact H].
  - exists c. split; [exact F|exact H].
Qed.

End FailFast.

Lemma stage_like_call (pf : Platform) (p : Prompt) (s : Schema) (n : jsstring) :
  stage_like pf (callOpenAIStructured pf p s n).
Proof.
  intros w. exists [mkRequest p n s]. split; [apply call_sends|].
  rewrite call_outcome.
  destruct (classification pf (fetched w) (mkRequest p n s)) as [v|e] eqn:E.
  - left. apply all_answered_single. rewrite E. reflexivity.
  - right. exists e. split; [|reflexivity].
    exists [], (mkRequest p n s). split; [reflexivity|].
    split; [apply all_answered_nil|]. rewrite app_nil_r. exact E.
Qed.

Lemma stage_like_ret (pf : Platform) {A} (a : A) : stage_like pf (ret a).
Proof. apply stage_like_quiet. intros w. apply sends_refl. Qed.

Lemma stage_like_lift (pf : Platform) {A} (o : outcome A) : stage_like pf (lift o).
Proof. apply stage_like_quiet. intros w. apply sends_refl. Qed.

Lemma stage_like_log (pf : Platform) (t : string) (a : list logarg) :
  stage_like pf (log t a).
Proof. apply stage_like_quiet. intros w. apply sends_log. Qed.

Ltac stage_step :=
  first
    [ apply stage_like_call
    | apply stage_like_ret
    | apply stage_like_lift
    | apply stage_like_log
    | apply stage_like_rethrow
    | apply stage_like_bind; [| intros ?]
    | match goal with
      | |- stage_like _ (if ?b then _ else _) => destruct b
      end
    | progress cbv zeta ].

Section Stages.
Variable pf : Platform.

Lemma stage_like_extract (docId : jsstring) :
  stage_like pf (Rev1.extractRawFieldsFromDoc pf docId).
Proof. unfold Rev1.extractRawFieldsFromDoc. repeat stage_step. Qed.

Lemma stage_like_simple1 (rawFields : list (jsstring * jsstring)) :
  stage_like pf (Rev1.parseSimpleFieldsBatch pf rawFields).
Proof. unfold Rev1.parseSimpleFieldsBatch. repeat stage_step. Qed.

Lemma stage_like_acv1 (text : jsstring) (context : list (jsstring * jsstring)) :
  stage_like pf (Rev1.analyzeACVComplexity pf text context).
Proof. unfold Rev1.analyzeACVComplexity. repeat stage_step. Qed.

Lemma stage_like_customer1 (text : jsstring) (context : list (jsstring * jsstring)) :
  stage_like pf (Rev1.analyzeCustomerComplexity pf text context).
Proof. unfold Rev1.analyzeCustomerComplexity. repeat stage_step. Qed.

Lemma stage_like_churn1 (text : jsstring) :
  stage_like pf (Rev1.convertChurnToAnnual pf text).
Proof. unfold Rev1.convertChurnToAnnual. repeat stage_step. Qed.

Lemma stage_like_burn1 (text : jsstring) :
  stage_like pf (Rev1.normalizeMonthlyBurn pf text).
Proof. unfold Rev1.normalizeMonthlyBurn. repeat stage_step. Qed.

Lemma stage_like_valuation1 (text : jsstring) (context : list (jsstring * jsstring)) :
  stage_like pf (Rev1.extractLastRoundValuation pf text context).
Proof. unfold Rev1.extractLastRoundValuation. repeat stage_step. Qed.

Lemma stage_like_simple2 (text : jsstring) :
  stage_like pf (Rev2.parseSimpleFieldsBatch pf text).
Proof. unfold Rev2.parseSimpleFieldsBatch. repeat stage_step. Qed.

Lemma stage_like_acv2 (text : jsstring) :
  stage_like pf (Rev2.analyzeACVComplexity pf text).
Proof. unfold Rev2.analyzeACVComplexity. repeat stage_step. Qed.

Lemma stage_like_customer2 (text : jsstring) :
  stage_like pf (Rev2.analyzeCustomerComplexity pf text).
Proof. unfold Rev2.analyzeCustomerComplexity. repeat stage_step. Qed.

Lemma stage_like_churn2 (text : jsstring) :
  stage_like pf (Rev2.convertChurnToAnnual pf text).
Proof. unfold Rev2.convertChurnToAnnual. repeat stage_step. Qed.

Lemma stage_like_burn2 (text : jsstring) :
  stage_like pf (Rev2.normalizeMonthlyBurn pf text).
Proof. unfold Rev2.normalizeMonthlyBurn. repeat stage_step. Qed.

Lemma stage_like_valuation2 (text : jsstring) :
  stage_like pf (Rev2.extractLastRoundValuation pf text).
Proof. unfold Rev2.extractLastRoundValuation. repeat stage_step. Qed.

(** The assembler, and the log line after it, send no request. *)
Lemma assemble1_silent (docId : jsstring) (a1 a2 a3 a4 a5 a6 a7 : value)
    (k : object -> list logarg) (w : World) :
  fetched (snd ((let* completeRecord :=
                   Rev1.assembleCompleteRecord pf docId a1 a2 a3 a4 a5 a6 a7 in
                 log "Successfully parsed company" (k completeRecord) ;;
                 ret completeRecord) w)) = fetched w.
Proof.
  unfold Rev1.assembleCompleteRecord. run.
  repeat (break_match; run; try reflexivity).
Qed.

Lemma assemble2_silent (docId : jsstring) (a2 a3 a4 a5 a6 a7 : value)
    (k : object -> list logarg) (w : World) :
  fetched (snd ((let* completeRecord :=
                   Rev2.assembleCompleteRecord pf docId a2 a3 a4 a5 a6 a7 in
                 log "Successfully parsed company" (k completeRecord) ;;
                 ret completeRecord) w)) = fetched w.
Proof.
  unfold Rev2.assembleCompleteRecord. run.
  repeat (break_match; run; try reflexivity).
Qed.

Ltac pipeline_step :=
  first
    [ apply fail_fast_stage;
      [ first [ apply stage_like_log | apply stage_like_lift
              | apply stage_like_extract
              | apply stage_like_simple1 | apply stage_like_acv1
              | apply stage_like_customer1 | apply stage_like_churn1
              | apply stage_like_burn1 | apply stage_like_valuation1
              | apply stage_like_simple2 | apply stage_like_acv2
              | apply stage_like_customer2 | apply stage_like_churn2
              | apply stage_like_burn2 | apply stage_like_valuation2 ]
      | intros ? ]
    | apply fail_fast_silent; intros ?;
      first [ apply (assemble1_silent _ _ _ _ _ _ _ _
                       (fun r => [LV (prop r "company_name")]))
            | apply (assemble2_silent _ _ _ _ _ _ _
                       (fun r => [LV (prop r "company_name")])) ] ].

Lemma fail_fast_parse1 (docId : jsstring) :
  fail_fast pf (Rev1.parseCompanyFromDoc pf docId).
Proof.
  unfold Rev1.parseCompanyFromDoc.
  apply (fail_fast_rethrow pf _ _ (fun error => [LS docId; LE error])).
  repeat pipeline_step.
Qed.

Lemma fail_fast_parse2 (docId : jsstring) :
  fail_fast pf (Rev2.parseCompanyFromDoc pf docId).
Proof.
  unfold Rev2.parseCompanyFromDoc.
  apply (fail_fast_rethrow pf _ _ (fun error => [LS docId; LE error])).
  repeat pipeline_step.
Qed.

End Stages.

Lemma fail_fast_failed_call (pf : Platform) {A} (m : M A) :
  fail_fast pf m ->
  forall w, exists calls,
    fetched (snd (m w)) = fetched w ++ calls
    /\ forall pre r post e,
         calls = pre ++ r :: post ->
         classification pf (fetched w ++ pre) r = Throw e ->
         fst (m w) = Throw e /\ post = [] /\ uuids (snd (m w)) = uuids w.
Proof.
  intros Hm w. destruct (Hm w) as (calls & F & H). exists calls. split; [exact F|].
  intros pre r post e E Hr.
  destruct H as [H|(e0 & (pre0 & r0 & E0 & Hpre & Hr0) & He & Hu)].
  - specialize (H pre r post E). rewrite Hr in H. discriminate.
  - rewrite E0 in E.
    induction post as [|y post' _] using rev_ind.
    + apply app_inj_tail in E as [-> ->].
      rewrite Hr in Hr0. injection Hr0 as ->. auto.
    + exfalso.
      change (pre0 ++ [r0] = pre ++ (r :: post') ++ [y]) in E.
      rewrite app_assoc in E. apply app_inj_tail in E as [-> _].
      specialize (Hpre pre r post' eq_refl). rewrite Hr in Hpre. discriminate.
Qed.

Lemma truthy_get_prop (v : value) (k : jsstring) :
  truthy v = true -> exists x, get_prop v k = Ok x.
Proof. destruct v; cbn; try discriminate; eauto. Qed.

Lemma truthy_get_first (v : value) :
  truthy v = true -> exists x, get_first v = Ok x.
Proof. destruct v; cbn; try discriminate; eauto. Qed.

Lemma classification_ends (pf : Platform) (h : list Request) (r : Request) :
  call_ends pf h r (classification pf h r).
Proof.
  unfold classification, callOpenAIStructured. run.
  replace (mkRequest (input r) (schemaName r) (schema r)) with r by (destruct r; reflexivity).
  destruct (fetch pf h r) as [response|e] eqn:F; run;
    [|apply transport_failure; exact F].
  destruct (getResponseCode response =? 200)%N eqn:C; run;
    [apply N.eqb_eq in C|apply N.eqb_neq in C; apply status_failure; assumption].
  unfold parse_json at 1.
  destruct (JSON_parse pf (VStr (getContentText response))) as [result|] eqn:P; run;
    [|eapply body_failure; eassumption].
  destruct (get_prop result (js "output")) as [output|e] eqn:O; run;
    [|eapply structure_failure; eauto using reads_text].
  destruct (find_message output) as [message|e] eqn:Fm; run;
    [|eapply structure_failure; eauto using reads_text].
  destruct (truthy message) eqn:Tm; run;
    [|eapply structure_failure; eauto using reads_text].
  destruct (truthy_get_prop message (js "content") Tm) as [content Hc]. rewrite Hc. run.
  destruct (truthy content) eqn:Tc; run;
    [|eapply structure_failure; eauto using reads_text].
  destruct (truthy_get_first content Tc) as [first Hf]. rewrite Hf. run.
  destruct (truthy first) eqn:Tf; run;
    [|eapply structure_failure; eauto using reads_text].
  destruct (truthy_get_prop first (js "text") Tf) as [text Ht]. rewrite Ht. run.
  unfold parse_json.
  destruct (JSON_parse pf text) as [payload|] eqn:Pt; run.
  - eapply payload_returned; eauto using reads_text.
  - eapply payload_failure; eauto using reads_text.
Qed.

Lemma reads_text_unique (result : value) (o1 o2 : outcome value) :
  reads_text result o1 -> reads_text result o2 -> o1 = o2.
Proof.
  intros H1 H2.
  destruct H1; destruct H2;
    repeat match goal with
           | H : ?x = _, H' : ?x = _ |- _ => rewrite H in H'
           | H : Ok _ = Ok _ |- _ => injection H as ->
           | H : Throw _ = Throw _ |- _ => injection H as ->
           end;
    try congruence.
Qed.

Lemma call_ends_unique (pf : Platform) (h : list Request) (r : Request)
    (o1 o2 : outcome value) :
  call_ends pf h r o1 -> call_ends pf h r o2 -> o1 = o2.
Proof.
  intros H1 H2.
  destruct H1; destruct H2;
    repeat match goal with
           | H : ?x = _, H' : ?x = _ |- _ => rewrite H in H'
           | H : Ok _ = Ok _ |- _ => injection H as ->
           | H : Some _ = Some _ |- _ => injection H as ->
           | H : Throw _ = Throw _ |- _ => injection H as ->
           | H1 : reads_text ?x ?a, H2 : reads_text ?x ?b |- _ =>
               pose proof (reads_text_unique x a b H1 H2); clear H2
           end;
    try congruence.
Qed.

Lemma classification_iff (pf : Platform) (h : list Request) (r : Request)
    (o : outcome value) :
  classification pf h r = o <-> call_ends pf h r o.
Proof.
  split.
  - intros <-. apply classification_ends.
  - intros H. eapply call_ends_unique; [apply classification_ends|exact H].
Qed.

Lemma call_ends_iff (pf : Platform) (prompt : Prompt) (schema : Schema)
    (schemaName : jsstring) (w : World) (o : outcome value) :
  fst (callOpenAIStructured pf prompt schema schemaName w) = o
  <-> call_ends pf (fetched w) (mkRequest prompt schemaName schema) o.
Proof. rewrite call_outcome. apply classification_iff. Qed.

Lemma fail_fast_call_ends (pf : Platform) {A} (m : M A) :
  fail_fast pf m ->
  forall w, exists calls,
    fetched (snd (m w)) = fetched w ++ calls
    /\ forall pre r post e,
         calls = pre ++ r :: post ->
         call_ends pf (fetched w ++ pre) r (Throw e) ->
         fst (m w) = Throw e /\ post = [] /\ uuids (snd (m w)) = uuids w.
Proof.
  intros Hm w. destruct (fail_fast_failed_call pf m Hm w) as (calls & F & H).
  exists calls. split; [exact F|].
  intros pre r post e E Hr. apply (H pre r post e E).
  apply classification_iff. exact Hr.
Qed.

(** C4 (as amended). A call of [callOpenAIStructured] ends in one of six
    ways, and in no other: the fetch throws; the response code is not 200;
    the response body does not parse; the body has no message text (no
    output list, no item of type message, no content, no first part); the
    message text does not parse; or the parsed message text is returned,
    whatever it is (it is not compared with the schema). A run of
    [parseCompanyFromDoc] sends its classifier requests one after the other,
    and if the call of one of them fails in one of the five ways, the run
    throws that same exception, no further request is sent, and no UUID has
    been drawn: no record was assembled. Both revisions. *)
Theorem failed_call_fails_run (pf : Platform) (docId : jsstring) (w : World) :
  (forall prompt schema schemaName w0 o,
     fst (callOpenAIStructured pf prompt schema schemaName w0) = o
     <-> call_ends pf (fetched w0) (mkRequest prompt schemaName schema) o)
  /\
  (exists calls,
     fetched (snd (Rev1.parseCompanyFromDoc pf docId w)) = fetched w ++ calls
     /\ forall pre r post e,
          calls = pre ++ r :: post ->
          call_ends pf (fetched w ++ pre) r (Throw e) ->
          fst (Rev1.parseCompanyFromDoc pf docId w) = Throw e /\ post = []
          /\ uuids (snd (Rev1.parseCompanyFromDoc pf docId w)) = uuids w)
  /\
  (exists calls,
     fetched (snd (Rev2.parseCompanyFromDoc pf docId w)) = fetched w ++ calls
     /\ forall pre r post e,
          calls = pre ++ r :: post ->
          call_ends pf (fetched w ++ pre) r (Throw e) ->
          fst (Rev2.parseCompanyFromDoc pf docId w) = Throw e /\ post = []
          /\ uuids (snd (Rev2.parseCompanyFromDoc pf docId w)) = uuids w).
Proof.
  split; [intros; apply call_ends_iff|]. split.
  - apply fail_fast_call_ends, fail_fast_parse1.
  - apply fail_fast_call_ends, fail_fast_parse2.
Qed.

(** A classifier out of reach, a response with code 500 and a body that is
    not JSON each fail the run at the first request, before any UUID is
    drawn. *)
Example failed_calls_fail_the_run :
  fst (Rev2.parseCompanyFromDoc Sample.offline (js "doc1") Sample.w0)
    = Throw (ServiceError (js "request failed"))
  /\ fst (Rev1.parseCompanyFromDoc (Sample.status_platform 500 "Internal error")
            (js "doc1") Sample.w0)
     = Throw (Error (js "OpenAI API error: 500"))
  /\ fst (Rev2.parseCompanyFromDoc (Sample.status_platform 200 "<html>")
            (js "doc1") Sample.w0)
     = Throw SyntaxError
  /\ length (fetched (snd (Rev2.parseCompanyFromDoc (Sample.status_platform 200 "<html>")
                             (js "doc1") Sample.w0))) = 1
  /\ uuids (snd (Rev2.parseCompanyFromDoc (Sample.status_platform 200 "<html>")
                   (js "doc1") Sample.w0)) = 0.
Proof. vm_compute. repeat split; reflexivity. Qed.

(** C4 fails as stated: the ACV stage is answered with code 200 and the
    payload [{}], which parses and does not match the closed schema of the
    stage; the run does not fail, it returns a record whose [acv] is
    [undefined]. *)
Lemma schema_violation_is_not_detected :
  let pf := Sample.stage_platform Sample.simple_reply Sample.empty_reply
              Sample.customer_reply Sample.churn_reply Sample.burn_reply
              Sample.valuation_reply Sample.acme_doc in
  conforms acv_schema (snd Sample.empty_reply) = false
  /\ classification pf [] (mkRequest (mkPrompt "rev2/analyzeACVComplexity" [Sample.acme_doc])
                             (js "acv_complexity_analysis") acv_schema)
     = Ok (snd Sample.empty_reply)
  /\ field_of (fst (Rev1.parseCompanyFromDoc pf (js "doc1") Sample.w0)) "acv"
     = Some VUndef
  /\ field_of (fst (Rev2.parseCompanyFromDoc pf (js "doc1") Sample.w0)) "acv"
     = Some VUndef.
Proof. vm_compute. repeat split; reflexivity. Qed.

(** ** C2: a secondary segment value without its primary *)

Lemma strict_eq_null (v : value) : strict_eq v VNull = true <-> v = VNull.
Proof. destruct v; cbn; split; congruence. Qed.

Lemma consistency_check (secondary primary : value) (message : jsstring) :
  (if negb (strict_eq secondary VNull) && strict_eq primary VNull
   then [message] else []) = [] ->
  secondary <> VNull -> primary <> VNull.
Proof.
  intros H Hs Hp. apply strict_eq_null in Hp. rewrite Hp, andb_true_r in H.
  destruct (strict_eq secondary VNull) eqn:E; [|discriminate].
  apply strict_eq_null in E. contradiction.
Qed.

Lemma check_each_nil (companyRecord : object) (fields : list string)
    (bad : value -> bool) (message : string -> jsstring) :
  DbWrite.check_each companyRecord fields bad message = [] ->
  Forall (fun field => bad (prop companyRecord field) = false) fields.
Proof.
  unfold DbWrite.check_each. induction fields as [|f fields IH]; cbn [flat_map].
  - constructor.
  - destruct (bad (prop companyRecord f)) eqn:Hb; [discriminate|].
    intros H. constructor; auto.
Qed.

Lemma no_error (l : list jsstring) : (length l =? 0) = true -> l = [].
Proof. destruct l; [reflexivity|discriminate]. Qed.

(** What acceptance amounts to: no check has pushed a message. *)
Lemma passes_checks (pf : Platform) (companyRecord : object) (w : World) :
  passes pf companyRecord w = true ->
  Forall (fun field =>
            (negb (truthy (prop companyRecord field))
             || str_eqb (trim (DbWrite.js_ToString pf (prop companyRecord field))) [])
            = false) DbWrite.requiredFields
  /\ Forall (fun field =>
               (DbWrite.present (prop companyRecord field)
                && (DbWrite.isNaN pf (prop companyRecord field)
                    || negb (DbWrite.is_number (prop companyRecord field))))
               = false) DbWrite.numericFields
  /\ Forall (fun field =>
               (DbWrite.present (prop companyRecord field)
                && (PrimFloat.ltb (DbWrite.js_ToNumber pf (prop companyRecord field)) 0
                    || PrimFloat.ltb 5 (DbWrite.js_ToNumber pf (prop companyRecord field))))
               = false) DbWrite.percentageFields
  /\ Forall (fun field =>
               (DbWrite.present (prop companyRecord field)
                && negb (DbWrite.Number_isInteger (prop companyRecord field)))
               = false) DbWrite.integerFields
  /\ (DbWrite.present (prop companyRecord "year_founded") = true ->
      (PrimFloat.ltb (DbWrite.js_ToNumber pf (prop companyRecord "year_founded")) 1800
       || PrimFloat.ltb (year_at pf (ticks w))
            (DbWrite.js_ToNumber pf (prop companyRecord "year_founded"))) = false).
Proof.
  unfold passes, DbWrite.validateCompanyRecord. cbv zeta.
  match goal with
  | |- context [DbWrite.check_each companyRecord DbWrite.requiredFields ?b ?m] =>
      set (e1 := DbWrite.check_each companyRecord DbWrite.requiredFields b m)
  end.
  match goal with
  | |- context [DbWrite.check_each companyRecord DbWrite.numericFields ?b ?m] =>
      set (e2 := DbWrite.check_each companyRecord DbWrite.numericFields b m)
  end.
  match goal with
  | |- context [DbWrite.check_each companyRecord DbWrite.percentageFields ?b ?m] =>
      set (e3 := DbWrite.check_each companyRecord DbWrite.percentageFields b m)
  end.
  match goal with
  | |- context [DbWrite.check_each companyRecord DbWrite.integerFields ?b ?m] =>
      set (e4 := DbWrite.check_each companyRecord DbWrite.integerFields b m)
  end.
  destruct (DbWrite.present (prop companyRecord "year_founded")) eqn:Hy; run;
    [destruct (PrimFloat.ltb _ 1800 || PrimFloat.ltb (year_at pf (ticks w)) _) eqn:Hr; run|];
    cbn [DbWrite.isValid]; intros H; apply no_error in H;
    repeat match goal with
           | H : _ ++ _ = [] |- _ => apply app_eq_nil in H as [? ?]
           end;
    try discriminate;
    repeat split;
    subst e1 e2 e3 e4;
    try match goal with
        | H : DbWrite.check_each _ ?f _ _ = [] |- Forall _ ?f =>
            exact (check_each_nil _ _ _ _ H)
        end;
    first [ intros _; assumption | discriminate ].
Qed.

Lemma check_each_message (companyRecord : object) (fields : list string)
    (bad : value -> bool) (message : string -> jsstring) (m : jsstring) :
  In m (DbWrite.check_each companyRecord fields bad message) ->
  exists field, m = message field.
Proof.
  unfold DbWrite.check_each. intros H. apply in_flat_map in H as (f & _ & H).
  destruct (bad (prop companyRecord f)); [|destruct H].
  destruct H as [<-|[]]. exists f. reflexivity.
Qed.

Lemma consistency_error (secondary primary : value) (message : jsstring) :
  In message (if negb (strict_eq secondary VNull) && strict_eq primary VNull
              then [message] else [])
  <-> secondary <> VNull /\ primary = VNull.
Proof.
  destruct (strict_eq secondary VNull) eqn:Es, (strict_eq primary VNull) eqn:Ep;
    cbn [negb andb]; split.
  - intros [].
  - intros [Hs _]. apply strict_eq_null in Es. contradiction.
  - intros [].
  - intros [Hs _]. apply strict_eq_null in Es. contradiction.
  - intros _. split; [|apply strict_eq_null; exact Ep].
    intros Hs. apply strict_eq_null in Hs. congruence.
  - intros _. left. reflexivity.
  - intros [].
  - intros [_ Hp]. apply strict_eq_null in Hp. congruence.
Qed.

Lemma numeric_or_absent (pf : Platform) (v : value) :
  (DbWrite.present v && (DbWrite.isNaN pf v || negb (DbWrite.is_number v))) = false ->
  v <> VNull ->
  v = VUndef \/ exists x, v = VNum x /\ PrimFloat.is_nan x = false.
Proof.
  destruct v as [| | |x| | |]; cbn; rewrite ?orb_true_r, ?orb_false_r;
    try discriminate; try congruence; auto.
  intros H _. right. exists x. split; [reflexivity|exact H].
Qed.

Lemma integer_or_absent (v : value) :
  (DbWrite.present v && negb (DbWrite.Number_isInteger v)) = false ->
  v <> VNull ->
  v = VUndef \/ exists x, v = VNum x /\ float_isInteger x = true.
Proof.
  destruct v as [| | |x| | |]; cbn; try discriminate; try congruence; auto.
  intros H _. right. exists x. split; [reflexivity|].
  apply negb_false_iff in H. exact H.
Qed.

(** C2 (as amended). [validateCompanyRecord] never throws, and it accepts a
    record exactly when it has pushed no error. It pushes the error of the
    ACV pair exactly when [acv_2] is not [null] (a missing [acv_2] counts as
    not [null]) while [acv] is [null], and the error of the customer pair
    exactly when [customer_count_2] is not [null] while [customer_count] is
    [null]: the comparison is with [null] only. So in a record it accepts,
    when [acv_2] is not [null], [acv] is a number that is not NaN or is
    absent ([undefined]); when [customer_count_2] is not [null],
    [customer_count] is an integral number or is absent. The pipeline
    itself copies both values of a pair from the classifier's reply without
    comparing them. *)
Theorem validated_record_has_primary (pf : Platform) (companyRecord : object) (w : World) :
  exists result w',
    DbWrite.validateCompanyRecord pf companyRecord w = (Ok result, w')
    /\ (DbWrite.isValid result = true <-> DbWrite.errors result = [])
    /\ (In (js "Invalid ACV data: acv_2 exists but primary acv is null")
           (DbWrite.errors result)
        <-> prop companyRecord "acv_2" <> VNull /\ prop companyRecord "acv" = VNull)
    /\ (In (js "Invalid customer count data: customer_count_2 exists but primary customer_count is null")
           (DbWrite.errors result)
        <-> prop companyRecord "customer_count_2" <> VNull
            /\ prop companyRecord "customer_count" = VNull)
    /\ (DbWrite.isValid result = true ->
        (prop companyRecord "acv_2" <> VNull ->
         prop companyRecord "acv" = VUndef
         \/ exists x, prop companyRecord "acv" = VNum x /\ PrimFloat.is_nan x = false)
        /\ (prop companyRecord "customer_count_2" <> VNull ->
            prop companyRecord "customer_count" = VUndef
            \/ exists x, prop companyRecord "customer_count" = VNum x
                         /\ float_isInteger x = true)).
Proof.
  assert (Ha : In "acv" DbWrite.numericFields) by (cbn; tauto).
  assert (Hc : In "customer_count" DbWrite.integerFields) by (cbn; tauto).
  pose proof (passes_checks pf companyRecord w) as Hp.
  unfold passes, DbWrite.validateCompanyRecord in *. cbv zeta in *.
  repeat match goal with
         | |- context [DbWrite.check_each companyRecord ?f ?b ?m] =>
             let e := fresh "e" in
             pose proof (check_each_message companyRecord f b m) as ?;
             set (e := DbWrite.check_each companyRecord f b m) in *
         end.
  revert Hp.
  destruct (DbWrite.present (prop companyRecord "year_founded")); run;
    [destruct (PrimFloat.ltb _ 1800 || PrimFloat.ltb (year_at pf (ticks w)) _); run|];
    cbn [DbWrite.isValid]; intros Hp;
    (eexists _, _; split; [reflexivity|]);
    cbn [DbWrite.isValid DbWrite.errors];
    (split; [split; [apply no_error|intros ->; reflexivity]|]);
    (split; [|split]).
  all: try (rewrite !in_app_iff, consistency_error; split;
            [ intros H';
              repeat match goal with
                     | H : _ \/ _ |- _ => destruct H as [H|H]
                     | H : In _ ?e, Hm : forall m, In m ?e -> _ |- _ =>
                         apply Hm in H as [? H]; vm_compute in H; discriminate H
                     | H : In _ [_] |- _ => destruct H as [H|[]]; vm_compute in H;
                                            discriminate H
                     | H : In _ (if ?b then _ else _) |- _ =>
                         destruct b; [destruct H as [H|[]]; discriminate H|destruct H]
                     end; assumption
            | tauto ]).
  all: intros Hv; specialize (Hp Hv); destruct Hp as (_ & Hn & _ & Hi & _);
    apply no_error in Hv;
    repeat match goal with
           | H : _ ++ _ = [] |- _ => apply app_eq_nil in H as [? ?]
           end;
    rewrite List.Forall_forall in Hn, Hi;
    specialize (Hn _ Ha); specialize (Hi _ Hc); cbv beta in Hn, Hi;
    (split; intros Hs;
     [ eapply numeric_or_absent; [exact Hn|]
     | apply integer_or_absent; [exact Hi|] ];
     eapply consistency_check; eassumption).
Qed.

(** The record of a run whose ACV reply has a primary value only is
    accepted; the record with a secondary value and a [null] primary is
    rejected; the record of a reply that has a secondary value and no
    [acv] property holds no [acv] and is accepted. *)
Example validation_of_assembled_records :
  let good := Sample.stage_platform Sample.simple_reply Sample.primary_only_reply
                Sample.customer_reply Sample.churn_reply Sample.burn_reply
                Sample.valuation_reply Sample.acme_doc in
  let bad := Sample.stage_platform Sample.simple_reply Sample.secondary_only_reply
                Sample.customer_reply Sample.churn_reply Sample.burn_reply
                Sample.valuation_reply Sample.acme_doc in
  let absent := Sample.stage_platform Sample.simple_reply Sample.secondary_alone_reply
                Sample.customer_reply Sample.churn_reply Sample.burn_reply
                Sample.valuation_reply Sample.acme_doc in
  accepted good (fst (Rev2.parseCompanyFromDoc good (js "doc1") Sample.w0)) = Some true
  /\ accepted bad (fst (Rev2.parseCompanyFromDoc bad (js "doc1") Sample.w0)) = Some false
  /\ field_of (fst (Rev2.parseCompanyFromDoc absent (js "doc1") Sample.w0)) "acv_2"
     = Some (VNum 5000)
  /\ field_of (fst (Rev2.parseCompanyFromDoc absent (js "doc1") Sample.w0)) "acv"
     = Some VUndef
  /\ accepted absent (fst (Rev2.parseCompanyFromDoc absent (js "doc1") Sample.w0))
     = Some true
  /\ accepted absent (fst (Rev1.parseCompanyFromDoc absent (js "doc1") Sample.w0))
     = Some true.
Proof. vm_compute. repeat split; reflexivity. Qed.

(** C2 fails as stated: the ACV stage is answered with the payload
    [{acv: null, acv_2: 5000}], which matches the closed schema of the
    stage; both revisions return a record whose [acv_2] is 5000 and whose
    [acv] is [null]. *)
Lemma secondary_without_primary_is_assembled :
  let pf := Sample.stage_platform Sample.simple_reply Sample.secondary_only_reply
              Sample.customer_reply Sample.churn_reply Sample.burn_reply
              Sample.valuation_reply Sample.acme_doc in
  conforms acv_schema (snd Sample.secondary_only_reply) = true
  /\ field_of (fst (Rev1.parseCompanyFromDoc pf (js "doc1") Sample.w0)) "acv_2"
     = Some (VNum 5000)
  /\ field_of (fst (Rev1.parseCompanyFromDoc pf (js "doc1") Sample.w0)) "acv"
     = Some VNull
  /\ field_of (fst (Rev2.parseCompanyFromDoc pf (js "doc1") Sample.w0)) "acv_2"
     = Some (VNum 5000)
  /\ field_of (fst (Rev2.parseCompanyFromDoc pf (js "doc1") Sample.w0)) "acv"
     = Some VNull.
Proof. vm_compute. repeat split; reflexivity. Qed.

(** ** C9: the first save into an empty sheet *)

Lemma configured_set (pf : Platform) :
  configured pf -> negb (property_set (SaveToDb.SPREADSHEET_ID pf)) = false.
Proof. unfold configured. intros ->. reflexivity. Qed.

(** *** Running the monad on known outcomes *)

Lemma bind_run {A B} (m : M A) (k : A -> M B) (w w' : World) (o : outcome A) :
  m w = (o, w') ->
  bind m k w = match o with
               | Ok a => k a w'
               | Throw e => (Throw e, w')
               end.
Proof. intros E. unfold bind. rewrite E. reflexivity. Qed.

Lemma try_run {A} (m : M A) (h : exn -> M A) (w w' : World) (o : outcome A) :
  m w = (o, w') ->
  try_catch m h w = match o with
                    | Ok a => (Ok a, w')
                    | Throw e => h e w'
                    end.
Proof. intros E. unfold try_catch. rewrite E. reflexivity. Qed.

Lemma ends_bind {A B} (m : M A) (k : A -> M B) (w w' : World) (a : A)
    (o : outcome B) (b : option Sheet) :
  m w = (Ok a, w') -> ends (k a) w' o b -> ends (bind m k) w o b.
Proof.
  intros E (w'' & Ek & Hb). exists w''. rewrite (bind_run _ _ _ _ _ E). auto.
Qed.

Lemma ends_bind_throw {A B} (m : M A) (k : A -> M B) (w : World) (e : exn)
    (b : option Sheet) :
  ends m w (Throw e) b -> ends (bind m k) w (Throw e) b.
Proof.
  intros (w' & E & Hb). exists w'. rewrite (bind_run _ _ _ _ _ E). auto.
Qed.

Lemma ends_bind_ends {A B} (m : M A) (k : A -> M B) (w : World) (a : A)
    (o : outcome B) (b b' : option Sheet) :
  ends m w (Ok a) b' ->
  (forall w', book w' = b' -> ends (k a) w' o b) ->
  ends (bind m k) w o b.
Proof.
  intros (w' & E & Hb) Hk. destruct (Hk w' Hb) as (w'' & Ek & Hb'').
  exists w''. rewrite (bind_run _ _ _ _ _ E). auto.
Qed.

Lemma ends_log (t : string) (a : list logarg) (w : World) (b : option Sheet) :
  book w = b -> ends (log t a) w (Ok tt) b.
Proof. intros <-. eexists. split; reflexivity. Qed.

Lemma ends_rethrow {A} (m : M A) (t : string) (a : exn -> list logarg)
    (w : World) (o : outcome A) (b : option Sheet) :
  ends m w o b ->
  ends (try_catch m (fun error => log t (a error) ;; throw error)) w o b.
Proof.
  intros (w' & E & Hb). rewrite <- Hb.
  destruct o as [x|e]; eexists; rewrite (try_run _ _ _ _ _ E); split; reflexivity.
Qed.

(** *** The sheet operations *)

Lemma getRange_run (r c nr nc : nat) (w : World) :
  r <> 0 -> c <> 0 -> nr <> 0 -> nc <> 0 ->
  getRange r c nr nc w = (Ok (mkRange r c nr nc), w).
Proof.
  intros Hr Hc Hnr Hnc. unfold getRange.
  apply Nat.eqb_neq in Hr, Hc, Hnr, Hnc. rewrite Hr, Hc, Hnr, Hnc. reflexivity.
Qed.

Lemma getRange_no_column (r c nr : nat) (w : World) :
  getRange r c nr 0 w
  = (Throw (RangeError "the range has no cell or starts before row or column 1"), w).
Proof. unfold getRange. cbn [Nat.eqb]. rewrite !orb_true_r. reflexivity. Qed.

Lemma the_sheet_run (w : World) (s : Sheet) :
  book w = Some s -> the_sheet w = (Ok s, w).
Proof. intros H. unfold the_sheet. rewrite H. reflexivity. Qed.

Lemma setValues_row (pf : Platform) (r c : nat) (vals : list value) (w : World) (s : Sheet) :
  book w = Some s ->
  ends (setValues pf (mkRange r c 1 (length vals)) [vals]) w (Ok tt)
       (Some (mkSheet (write_row (r - 1) (c - 1) (map (stored pf) vals) (grid s))
                      (frozenRows s))).
Proof.
  intros Hb. unfold setValues. cbn [length forallb numRows numColumns Nat.eqb andb].
  rewrite Nat.eqb_refl. cbn [andb].
  eapply ends_bind; [apply (the_sheet_run w s Hb)|].
  eexists. split; reflexivity.
Qed.

Lemma appendRow_run (pf : Platform) (vals : list value) (w : World) (s : Sheet) :
  book w = Some s ->
  ends (appendRow pf vals) w (Ok tt)
       (Some (mkSheet (write_row (lastRow (grid s)) 0 (map (stored pf) vals) (grid s))
                      (frozenRows s))).
Proof.
  intros Hb. unfold appendRow.
  eapply ends_bind; [apply (the_sheet_run w s Hb)|].
  eexists. split; reflexivity.
Qed.

Lemma getOrCreateSheet_run (w : World) :
  ends SaveToDb.getOrCreateSheet w (Ok tt) (Some (sheet_found w)).
Proof.
  unfold SaveToDb.getOrCreateSheet, sheet_found, ends.
  destruct (book w) as [s|] eqn:Hb.
  - exists w. rewrite Hb. split; reflexivity.
  - eexists. run. split; reflexivity.
Qed.

Lemma setHeaders_run (pf : Platform) (headers : list value) (w : World) (s : Sheet) :
  book w = Some s -> headers <> [] ->
  ends (SaveToDb.setHeaders pf headers) w (Ok tt)
       (Some (mkSheet (write_row 0 0 (map (stored pf) headers) (grid s)) 1)).
Proof.
  intros Hb Hne. unfold SaveToDb.setHeaders.
  assert (Hlen : length headers <> 0) by (destruct headers; [contradiction|discriminate]).
  eapply ends_bind; [apply getRange_run; auto|].
  eapply ends_bind_ends; [apply (setValues_row pf 1 1 headers w s Hb)|].
  intros w1 H1. unfold setFrozenRows.
  eapply ends_bind_ends.
  - eapply ends_bind; [apply (the_sheet_run w1 _ H1)|]. eexists. split; reflexivity.
  - intros w2 H2. apply ends_log. rewrite H2. reflexivity.
Qed.

Lemma setHeaders_empty (pf : Platform) (w : World) :
  ends (SaveToDb.setHeaders pf []) w
       (Throw (RangeError "the range has no cell or starts before row or column 1"))
       (book w).
Proof.
  unfold SaveToDb.setHeaders. apply ends_bind_throw.
  exists w. split; [apply getRange_no_column|reflexivity].
Qed.

Lemma getHeaders_empty (w : World) (s : Sheet) :
  book w = Some s -> lastRow (grid s) = 0 ->
  SaveToDb.getHeaders w = (Ok [], w).
Proof.
  intros Hb H0. unfold SaveToDb.getHeaders.
  rewrite (bind_run _ _ _ _ _ (the_sheet_run w s Hb)), H0. reflexivity.
Qed.

(** C9 (as amended). When the sheet has no row with content, or does not
    exist yet, [saveCompanyRecord] always throws and writes no data row.
    For a record with at least one key it throws the TypeError of the
    assignment to the constant [headers], after [setHeaders] has written
    the record's keys into row 1 and frozen that row. For a record without
    keys the empty header range is refused and the sheet stays as found. *)
Theorem first_save_throws_after_headers (pf : Platform) (companyRecord : object) (w : World) :
  configured pf ->
  lastRow (grid (sheet_found w)) = 0 ->
  ends (SaveToDb.saveCompanyRecord pf companyRecord) w
    (Throw (match companyRecord with
            | [] => RangeError "the range has no cell or starts before row or column 1"
            | _ :: _ => TypeError "Assignment to constant variable."
            end))
    (Some (match companyRecord with
           | [] => sheet_found w
           | _ :: _ =>
               mkSheet (write_row 0 0 (map (stored pf) (map VStr (keys companyRecord)))
                          (grid (sheet_found w))) 1
           end)).
Proof.
  intros Hc Hempty. unfold SaveToDb.saveCompanyRecord.
  rewrite (configured_set pf Hc).
  apply (ends_rethrow _ _ (fun error => [LE error])).
  eapply ends_bind_ends; [apply getOrCreateSheet_run|]. intros w1 H1.
  eapply ends_bind; [apply (getHeaders_empty w1 _ H1 Hempty)|].
  apply ends_bind_throw. cbn [length Nat.eqb].
  destruct companyRecord as [|kv rest].
  - rewrite <- H1. apply ends_bind_throw. apply setHeaders_empty.
  - eapply ends_bind_ends; [apply (setHeaders_run pf _ w1 _ H1); discriminate|].
    intros w2 H2. exists w2. split; [reflexivity|exact H2].
Qed.

Lemma first_save_throws_after_headers_witness :
  ends (SaveToDb.saveCompanyRecord Sample.offline
          [(js "id", VStr (js "a")); (js "company_name", VStr (js "Acme"))])
       (mkWorld [] 0 0 [] (Some (mkSheet [] 0)))
       (Throw (TypeError "Assignment to constant variable."))
       (Some (mkSheet [[VStr (js "id"); VStr (js "company_name")]] 1)).
Proof.
  apply (first_save_throws_after_headers Sample.offline
           [(js "id", VStr (js "a")); (js "company_name", VStr (js "Acme"))]
           (mkWorld [] 0 0 [] (Some (mkSheet [] 0)))).
  - reflexivity.
  - reflexivity.
Defined.

(** C9 fails as stated: the first save of a record into an empty sheet
    throws, and the sheet is not left as it was: its first row now holds
    the record's keys and is frozen. *)
Lemma first_save_writes_the_header_row :
  let w := mkWorld [] 0 0 [] (Some (mkSheet [] 0)) in
  let companyRecord := [(js "id", VStr (js "a")); (js "company_name", VStr (js "Acme"))] in
  book w = Some (mkSheet [] 0)
  /\ fst (SaveToDb.saveCompanyRecord Sample.offline companyRecord w)
     = Throw (TypeError "Assignment to constant variable.")
  /\ book (snd (SaveToDb.saveCompanyRecord Sample.offline companyRecord w))
     = Some (mkSheet [[VStr (js "id"); VStr (js "company_name")]] 1).
Proof. vm_compute. repeat split; reflexivity. Qed.

(** ** C6: saving a record whose id is in the sheet *)

Section LastPos.
Context {A : Type} (has : A -> bool) (d : A).
Hypothesis has_default : has d = false.

Lemma nth_nil (n : nat) : nth n (@nil A) d = d.
Proof. destruct n; reflexivity. Qed.

Lemma last_pos_beyond (l : list A) (n : nat) :
  last_pos has l <= n -> has (nth n l d) = false.
Proof.
  revert n. induction l as [|x l IH]; intros n H.
  - rewrite nth_nil. exact has_default.
  - cbn [last_pos] in H. destruct n as [|n]; cbn [nth].
    + destruct (last_pos has l); [|lia]. destruct (has x); [lia|reflexivity].
    + apply IH. destruct (last_pos has l); [lia|]. lia.
Qed.

Lemma last_pos_last (l : list A) :
  last_pos has l <> 0 -> has (nth (last_pos has l - 1) l d) = true.
Proof.
  induction l as [|x l IH]; cbn [last_pos]; [congruence|].
  destruct (last_pos has l) as [|p] eqn:E.
  - destruct (has x) eqn:Hx; [intros _; exact Hx|congruence].
  - intros _. replace (S (S p) - 1) with (S (S p - 1)) by lia.
    cbn [nth]. apply IH. congruence.
Qed.

Lemma last_pos_unique (l : list A) (p : nat) :
  (p <> 0 -> has (nth (p - 1) l d) = true) ->
  (forall n, p <= n -> has (nth n l d) = false) ->
  last_pos has l = p.
Proof.
  intros Hlast Hbeyond.
  destruct (Nat.lt_trichotomy (last_pos has l) p) as [Hlt|[Heq|Hgt]]; [|exact Heq|].
  - assert (Hp : p <> 0) by lia. specialize (Hlast Hp).
    rewrite last_pos_beyond in Hlast by lia. discriminate.
  - assert (Hq : last_pos has l <> 0) by lia.
    pose proof (last_pos_last l Hq) as H.
    rewrite Hbeyond in H by lia. discriminate.
Qed.

(** The position depends on the list through [has] only. *)
Lemma last_pos_same (l l' : list A) :
  (forall n, has (nth n l' d) = has (nth n l d)) ->
  last_pos has l' = last_pos has l.
Proof.
  intros H. apply last_pos_unique.
  - intros Hp. rewrite H. apply last_pos_last. exact Hp.
  - intros n Hn. rewrite H. apply last_pos_beyond. exact Hn.
Qed.

Lemma last_pos_le_length (l : list A) : last_pos has l <= length l.
Proof.
  induction l as [|x l IH]; cbn [last_pos length]; [lia|].
  destruct (last_pos has l); [destruct (has x); lia|lia].
Qed.

End LastPos.

Lemma row_has_content_nth (r : list value) (j : nat) :
  nonblank (nth j r empty_cell) = true -> row_has_content r = true.
Proof.
  intros H. unfold row_has_content. apply existsb_exists.
  destruct (nth_in_or_default j r empty_cell) as [Hin|Hd].
  - exists (nth j r empty_cell). split; [exact Hin|exact H].
  - rewrite Hd in H. discriminate.
Qed.

Lemma row_without_content (r : list value) (j : nat) :
  row_has_content r = false -> nth j r empty_cell = empty_cell.
Proof.
  intros H. destruct (nonblank (nth j r empty_cell)) eqn:E.
  - rewrite (row_has_content_nth r j E) in H. discriminate.
  - unfold nonblank, cell_blank in E.
    destruct (nth j r empty_cell) as [| | | |[|c s]| |]; try discriminate. reflexivity.
Qed.

(** A cell below the last row with content is empty. *)
Lemma cell_below_last_row (g : list (list value)) (r c : nat) :
  lastRow g < r -> cell_at g r c = empty_cell.
Proof.
  intros H. unfold cell_at. apply row_without_content.
  apply (last_pos_beyond row_has_content []); [reflexivity|]. unfold lastRow in H. lia.
Qed.

Lemma nth_write_row (r c : nat) (vals : list value) (g : list (list value)) (n : nat) :
  nth n (write_row r c vals g) []
  = if n =? r then write_cells c vals (nth r g []) else nth n g [].
Proof.
  revert g n. induction r as [|r IH]; intros g n.
  - destruct g as [|x g], n as [|n]; cbn; try reflexivity. destruct n; reflexivity.
  - destruct g as [|x g], n as [|n]; cbn [write_row nth Nat.eqb]; try reflexivity.
    + rewrite IH. rewrite !(nth_nil []). reflexivity.
    + apply IH.
Qed.

Lemma nth_write_cells (vals old : list value) (j : nat) :
  nth j (write_cells 0 vals old) empty_cell
  = if j <? length vals then nth j vals empty_cell else nth j old empty_cell.
Proof.
  cbn [write_cells]. destruct (j <? length vals) eqn:E.
  - apply Nat.ltb_lt in E. apply app_nth1. exact E.
  - apply Nat.ltb_ge in E. rewrite app_nth2 by exact E.
    rewrite nth_skipn. f_equal. lia.
Qed.

(** The cells of a sheet after a row was written from its first column. *)
Lemma cell_at_write_row (g : list (list value)) (r : nat) (vals : list value) (r' c : nat) :
  r' <> 0 -> c <> 0 ->
  cell_at (write_row r 0 vals g) r' c
  = if (r' - 1 =? r) && (c - 1 <? length vals) then nth (c - 1) vals empty_cell
    else cell_at g r' c.
Proof.
  intros Hr Hc. unfold cell_at. rewrite nth_write_row.
  destruct (r' - 1 =? r) eqn:E; [|reflexivity].
  apply Nat.eqb_eq in E. rewrite nth_write_cells, E.
  destruct (c - 1 <? length vals); reflexivity.
Qed.

Lemma lastColumn_of_header (g : list (list value)) :
  header_row g <> [] -> lastColumn g <> 0.
Proof. unfold header_row. destruct (lastColumn g); [contradiction|discriminate]. Qed.

Lemma getValues_run (rg : Range) (w : World) (s : Sheet) :
  book w = Some s ->
  getValues rg w
  = (Ok (map (fun i => map (fun j => cell_at (grid s) (row rg + i) (column rg + j))
                          (seq 0 (numColumns rg)))
            (seq 0 (numRows rg))), w).
Proof.
  intros Hb. unfold getValues. rewrite (bind_run _ _ _ _ _ (the_sheet_run w s Hb)).
  reflexivity.
Qed.

Lemma getHeaders_run (w : World) (s : Sheet) :
  book w = Some s -> lastRow (grid s) <> 0 -> lastColumn (grid s) <> 0 ->
  SaveToDb.getHeaders w = (Ok (header_row (grid s)), w).
Proof.
  intros Hb HL HC. unfold SaveToDb.getHeaders.
  rewrite (bind_run _ _ _ _ _ (the_sheet_run w s Hb)).
  apply Nat.eqb_neq in HL. rewrite HL.
  rewrite (bind_run _ _ _ _ _ (getRange_run 1 1 1 (lastColumn (grid s)) w
             ltac:(discriminate) ltac:(discriminate) ltac:(discriminate) HC)).
  rewrite (bind_run _ _ _ _ _ (getValues_run _ w s Hb)).
  reflexivity.
Qed.

Lemma concat_singletons {X Y} (f : X -> Y) (l : list X) :
  concat (map (fun x => [f x]) l) = map f l.
Proof. induction l as [|x l IH]; cbn; [reflexivity|]. rewrite IH. reflexivity. Qed.

Lemma id_column_values (g : list (list value)) (i : nat) :
  concat (map (fun k => map (fun j => cell_at g (2 + k) (i + 1 + j)) (seq 0 1))
              (seq 0 (lastRow g)))
  = id_column g i.
Proof.
  unfold id_column. cbn [seq map]. rewrite concat_singletons.
  apply map_ext. intros k. rewrite Nat.add_0_r. reflexivity.
Qed.

(** What a save does to a sheet that has a header row. *)
Lemma save_with_headers (pf : Platform) (companyRecord : object) (w : World) (s : Sheet) :
  configured pf -> book w = Some s ->
  lastRow (grid s) <> 0 -> header_row (grid s) <> [] ->
  ends (SaveToDb.saveCompanyRecord pf companyRecord) w (Ok tt)
    (Some (mkSheet
       (match indexOf (header_row (grid s)) (VStr (js "id")) with
        | Some i =>
            match indexOf (id_column (grid s) i) (prop companyRecord "id") with
            | Some k => write_row (k + 1) 0 (new_row pf companyRecord (grid s)) (grid s)
            | None => write_row (lastRow (grid s)) 0
                        (new_row pf companyRecord (grid s)) (grid s)
            end
        | None => write_row (lastRow (grid s)) 0
                    (new_row pf companyRecord (grid s)) (grid s)
        end)
       (frozenRows s))).
Proof.
  intros Hc Hb HL Hh. unfold SaveToDb.saveCompanyRecord.
  rewrite (configured_set pf Hc).
  apply (ends_rethrow _ _ (fun error => [LE error])).
  eapply ends_bind_ends; [apply getOrCreateSheet_run|]. intros w1 H1.
  assert (Hs : book w1 = Some s).
  { rewrite H1. unfold sheet_found. rewrite Hb. reflexivity. }
  eapply ends_bind;
    [apply (getHeaders_run w1 s Hs HL (lastColumn_of_header _ Hh))|].
  assert (Hlen : length (header_row (grid s)) <> 0).
  { destruct (header_row (grid s)); [contradiction|discriminate]. }
  pose proof Hlen as Hlen'. apply Nat.eqb_neq in Hlen'. rewrite Hlen'.
  eapply ends_bind; [reflexivity|].
  eapply ends_bind_ends; [|intros w2 H2; apply ends_log; exact H2].
  destruct (indexOf (header_row (grid s)) (VStr (js "id"))) as [i|].
  - eapply ends_bind; [apply (the_sheet_run w1 s Hs)|].
    eapply ends_bind; [apply getRange_run; lia|].
    eapply ends_bind; [apply (getValues_run _ w1 s Hs)|].
    cbn [row column numRows numColumns]. rewrite id_column_values.
    destruct (indexOf (id_column (grid s) i) (prop companyRecord "id")) as [k|].
    + eapply ends_bind_ends; [apply ends_log; reflexivity|]. intros w2 H2.
      eapply ends_bind.
      { apply getRange_run; try lia. rewrite length_map. exact Hlen. }
      destruct (setValues_row pf (k + 2) 1
                  (map (SaveToDb.row_entry pf companyRecord) (header_row (grid s)))
                  w2 s ltac:(congruence)) as (w3 & E3 & H3).
      exists w3. split; [exact E3|]. rewrite H3.
      replace (k + 2 - 1) with (k + 1) by lia. reflexivity.
    + eapply ends_bind_ends; [apply ends_log; reflexivity|]. intros w2 H2.
      apply appendRow_run. congruence.
  - eapply ends_bind_ends; [apply ends_log; reflexivity|]. intros w2 H2.
    apply appendRow_run. congruence.
Qed.

Lemma indexOf_Some (l : list value) (x : value) (k : nat) :
  indexOf l x = Some k ->
  k < length l /\ strict_eq (nth k l empty_cell) x = true
  /\ forall j, j < k -> strict_eq (nth j l empty_cell) x = false.
Proof.
  revert k. induction l as [|y l IH]; intros k H; [discriminate|].
  cbn [indexOf] in H. destruct (strict_eq y x) eqn:E.
  - injection H as <-. cbn. repeat split; [lia|exact E|lia].
  - destruct (indexOf l x) as [k'|]; [|discriminate]. injection H as <-.
    destruct (IH k' eq_refl) as (Hlt & Hk & Hj). cbn [length nth].
    repeat split; [lia|exact Hk|].
    intros [|j] Hlt'; [exact E|]. apply Hj. lia.
Qed.

Lemma indexOf_None (l : list value) (x : value) :
  indexOf l x = None <->
  forall j, j < length l -> strict_eq (nth j l empty_cell) x = false.
Proof.
  induction l as [|y l IH]; cbn [indexOf length].
  - split; [intros _ j Hj; lia|reflexivity].
  - destruct (strict_eq y x) eqn:E.
    + split; [discriminate|]. intros H. specialize (H 0 ltac:(lia)). cbn in H. congruence.
    + destruct (indexOf l x) as [k|].
      * split; [discriminate|]. intros H.
        assert (Hn : @None nat = None) by reflexivity.
        destruct IH as [_ IH]. rewrite IH; [reflexivity|].
        intros j Hj. apply (H (S j)). lia.
      * split; [|reflexivity]. intros _ [|j] Hj; [exact E|].
        cbn [nth]. apply IH; [reflexivity|lia].
Qed.

Lemma strict_eq_str (v : value) (s : jsstring) :
  strict_eq v (VStr s) = true <-> v = VStr s.
Proof.
  destruct v; cbn; try (split; [discriminate|discriminate]).
  rewrite str_eqb_true. split; congruence.
Qed.

Lemma nth_map_seq {X} (f : nat -> X) (n k : nat) (d : X) :
  k < n -> nth k (map f (seq 0 n)) d = f k.
Proof.
  intros H. rewrite (nth_indep _ d (f 0)) by (rewrite length_map, length_seq; exact H).
  rewrite map_nth, seq_nth by exact H. reflexivity.
Qed.

Lemma filter_map_same {X} (p : value -> bool) (f f' : X -> value) (l : list X) :
  (forall x, In x l -> p (f' x) = p (f x)) ->
  length (List.filter p (map f' l)) = length (List.filter p (map f l)).
Proof.
  induction l as [|x l IH]; intros H; [reflexivity|].
  cbn [map List.filter]. rewrite (H x (or_introl eq_refl)).
  destruct (p (f x)); cbn [length]; rewrite IH; auto;
    intros y Hy; apply H; right; exact Hy.
Qed.

Lemma filter_none (p : value -> bool) (l : list value) :
  length (List.filter p l) = 0 -> forall x, In x l -> p x = false.
Proof.
  induction l as [|y l IH]; intros H x Hin; [destruct Hin|].
  cbn [List.filter] in H. destruct (p y) eqn:E; [discriminate|].
  destruct Hin as [<-|Hin]; [exact E|]. apply IH; assumption.
Qed.

Lemma filter_some (p : value -> bool) (l : list value) :
  0 < length (List.filter p l) ->
  exists k, k < length l /\ p (nth k l empty_cell) = true.
Proof.
  induction l as [|y l IH]; cbn [List.filter length]; [lia|].
  destruct (p y) eqn:E.
  - intros _. exists 0. split; [lia|exact E].
  - intros H. destruct (IH H) as (k & Hk & Hp). exists (S k). split; [lia|exact Hp].
Qed.

Lemma last_pos_at_most {X} (has : X -> bool) (d : X) (l : list X) (n : nat) :
  (forall j, n <= j -> has (nth j l d) = false) -> last_pos has l <= n.
Proof.
  intros H. destruct (Nat.le_gt_cases (last_pos has l) n) as [Hle|Hgt]; [exact Hle|].
  assert (Hq : last_pos has l <> 0) by lia.
  pose proof (last_pos_last has d l Hq) as Hl.
  rewrite H in Hl by lia. discriminate.
Qed.

Lemma no_content_no_column (r : list value) :
  row_has_content r = false -> last_pos (fun v => negb (cell_blank v)) r = 0.
Proof.
  intros H. apply (last_pos_unique _ empty_cell); [reflexivity|congruence|].
  intros n _. rewrite (row_without_content r n H). reflexivity.
Qed.

(** Writing into a row without content widens the sheet to the written
    row at most. *)
Lemma lastColumn_write_row (r : nat) (vals : list value) (g : list (list value)) :
  last_pos (fun v => negb (cell_blank v)) (nth r g []) = 0 ->
  lastColumn (write_row r 0 vals g)
  = Nat.max (lastColumn g)
      (last_pos (fun v => negb (cell_blank v)) (write_cells 0 vals (nth r g []))).
Proof.
  revert g. induction r as [|r IH]; intros g H.
  - destruct g as [|x g]; cbn [write_row lastColumn fold_right nth] in *.
    + lia.
    + fold (lastColumn g). rewrite H. lia.
  - destruct g as [|x g]; cbn [write_row lastColumn fold_right nth] in *.
    + fold (lastColumn (write_row r 0 vals [])). rewrite IH.
      * rewrite (nth_nil []). cbn. lia.
      * rewrite (nth_nil []). reflexivity.
    + fold (lastColumn (write_row r 0 vals g)). fold (lastColumn g).
      rewrite (IH g H). lia.
Qed.

Section SaveById.
Variable pf : Platform.
Variable companyRecord : object.
Variable uuid : jsstring.
Hypothesis record_id : prop companyRecord "id" = VStr uuid.
Hypothesis id_not_empty : uuid <> [].
Hypothesis id_stored : stored pf (VStr uuid) = VStr uuid.

Variable g : list (list value).
Variable i : nat.
Hypothesis has_rows : lastRow g <> 0.
Hypothesis id_header : indexOf (header_row g) (VStr (js "id")) = Some i.

Lemma id_nonblank : nonblank (VStr uuid) = true.
Proof. unfold nonblank. cbn. destruct uuid; [contradiction|reflexivity]. Qed.

Lemma id_in_width : i < lastColumn g.
Proof.
  destruct (indexOf_Some _ _ _ id_header) as (H & _).
  unfold header_row in H. rewrite length_map, length_seq in H. exact H.
Qed.

Lemma new_row_length : length (new_row pf companyRecord g) = lastColumn g.
Proof. unfold new_row, header_row. rewrite !length_map, length_seq. reflexivity. Qed.

Lemma new_row_id : nth i (new_row pf companyRecord g) empty_cell = VStr uuid.
Proof.
  destruct (indexOf_Some _ _ _ id_header) as (Hlt & Hid & _).
  apply strict_eq_str in Hid. unfold new_row.
  rewrite (nth_indep _ empty_cell
             (stored pf (SaveToDb.row_entry pf companyRecord empty_cell)))
    by (rewrite !length_map; exact Hlt).
  rewrite !map_nth, Hid. unfold SaveToDb.row_entry, SaveToDb.to_key.
  fold (prop companyRecord "id"). rewrite record_id. exact id_stored.
Qed.

(** The id column of the sheet after the new row was written as row [r + 1]. *)
Lemma id_cell_after_write (r k : nat) :
  cell_at (write_row r 0 (new_row pf companyRecord g) g) (2 + k) (i + 1)
  = if 1 + k =? r then VStr uuid else cell_at g (2 + k) (i + 1).
Proof.
  rewrite cell_at_write_row by lia. rewrite new_row_length.
  replace (2 + k - 1) with (1 + k) by lia. replace (i + 1 - 1) with i by lia.
  pose proof id_in_width as Hw. apply Nat.ltb_lt in Hw. rewrite Hw, andb_true_r.
  rewrite new_row_id. reflexivity.
Qed.

Lemma written_row_has_content (r : nat) :
  row_has_content (nth r (write_row r 0 (new_row pf companyRecord g) g) []) = true.
Proof.
  rewrite nth_write_row, Nat.eqb_refl.
  apply (row_has_content_nth _ i). rewrite nth_write_cells, new_row_length.
  pose proof id_in_width as Hw. apply Nat.ltb_lt in Hw. rewrite Hw, new_row_id.
  exact id_nonblank.
Qed.

(** *** The id is in the sheet: the row is overwritten *)

Lemma found_in_rows (k : nat) :
  indexOf (id_column g i) (VStr uuid) = Some k ->
  k < lastRow g - 1 /\ cell_at g (2 + k) (i + 1) = VStr uuid.
Proof.
  intros H. destruct (indexOf_Some _ _ _ H) as (Hlt & Hk & _).
  unfold id_column in Hlt, Hk. rewrite length_map, length_seq in Hlt.
  rewrite nth_map_seq in Hk by exact Hlt. apply strict_eq_str in Hk.
  split; [|exact Hk].
  destruct (Nat.lt_ge_cases k (lastRow g - 1)) as [Hin|Hout]; [exact Hin|].
  rewrite cell_below_last_row in Hk by lia.
  injection Hk as Hk. symmetry in Hk. contradiction.
Qed.

Lemma overwrite_keeps_last_row (k : nat) :
  indexOf (id_column g i) (VStr uuid) = Some k ->
  lastRow (write_row (k + 1) 0 (new_row pf companyRecord g) g) = lastRow g.
Proof.
  intros H. destruct (found_in_rows k H) as (Hk & Hcell).
  unfold lastRow. apply (last_pos_same _ []); [reflexivity|].
  intros n. destruct (Nat.eq_dec n (k + 1)) as [->|Hn].
  - rewrite written_row_has_content. symmetry.
    apply (row_has_content_nth _ i). unfold cell_at in Hcell.
    replace (2 + k - 1) with (k + 1) in Hcell by lia.
    replace (i + 1 - 1) with i in Hcell by lia.
    rewrite Hcell. exact id_nonblank.
  - rewrite nth_write_row. apply Nat.eqb_neq in Hn. rewrite Hn. reflexivity.
Qed.

Lemma overwrite_keeps_count (k : nat) :
  indexOf (id_column g i) (VStr uuid) = Some k ->
  rows_with_id (write_row (k + 1) 0 (new_row pf companyRecord g) g) i (VStr uuid)
  = rows_with_id g i (VStr uuid).
Proof.
  intros H. destruct (found_in_rows k H) as (Hk & Hcell).
  unfold rows_with_id, id_cells. rewrite (overwrite_keeps_last_row k H).
  apply filter_map_same. intros k' _. rewrite id_cell_after_write.
  destruct (1 + k' =? k + 1) eqn:E; [|reflexivity].
  apply Nat.eqb_eq in E. replace k' with k by lia. rewrite Hcell. reflexivity.
Qed.

Lemma counted_is_found :
  0 < rows_with_id g i (VStr uuid) ->
  exists k, indexOf (id_column g i) (VStr uuid) = Some k.
Proof.
  intros H. apply filter_some in H as (k & Hk & Hp).
  unfold id_cells in Hk, Hp. rewrite length_map, length_seq in Hk.
  rewrite nth_map_seq in Hp by exact Hk.
  destruct (indexOf (id_column g i) (VStr uuid)) as [k0|] eqn:E; [eauto|].
  exfalso. rewrite indexOf_None in E. specialize (E k).
  unfold id_column in E. rewrite length_map, length_seq in E.
  rewrite nth_map_seq in E by lia. rewrite E in Hp by lia. discriminate.
Qed.

(** *** The id is not in the sheet: a row is appended *)

Lemma not_counted_is_not_found :
  rows_with_id g i (VStr uuid) = 0 ->
  indexOf (id_column g i) (VStr uuid) = None.
Proof.
  intros H. apply indexOf_None. intros k Hk.
  unfold id_column in *. rewrite length_map, length_seq in Hk.
  rewrite nth_map_seq by exact Hk.
  destruct (Nat.lt_ge_cases k (lastRow g - 1)) as [Hin|Hout].
  - apply (filter_none _ _ H). unfold id_cells. apply in_map_iff.
    exists k. split; [reflexivity|]. apply in_seq. lia.
  - rewrite cell_below_last_row by lia. cbn.
    destruct (str_eqb [] uuid) eqn:E; [|reflexivity].
    apply str_eqb_true in E. symmetry in E. contradiction.
Qed.

Lemma row_after_last_is_blank :
  row_has_content (nth (lastRow g) g []) = false.
Proof. apply (last_pos_beyond row_has_content []); [reflexivity|]. unfold lastRow. lia. Qed.

Lemma append_last_row :
  lastRow (write_row (lastRow g) 0 (new_row pf companyRecord g) g) = S (lastRow g).
Proof.
  unfold lastRow at 1. apply (last_pos_unique _ []); [reflexivity| |].
  - intros _. replace (S (lastRow g) - 1) with (lastRow g) by lia.
    apply written_row_has_content.
  - intros n Hn. rewrite nth_write_row.
    destruct (n =? lastRow g) eqn:E; [apply Nat.eqb_eq in E; lia|].
    apply (last_pos_beyond row_has_content []); [reflexivity|]. unfold lastRow in Hn. lia.
Qed.

Lemma append_keeps_width :
  lastColumn (write_row (lastRow g) 0 (new_row pf companyRecord g) g) = lastColumn g.
Proof.
  rewrite lastColumn_write_row
    by (apply no_content_no_column, row_after_last_is_blank).
  apply Nat.max_l. apply (last_pos_at_most _ empty_cell).
  intros j Hj. rewrite nth_write_cells, new_row_length.
  destruct (j <? lastColumn g) eqn:E; [apply Nat.ltb_lt in E; lia|].
  rewrite (row_without_content _ j row_after_last_is_blank). reflexivity.
Qed.

Lemma append_keeps_headers :
  header_row (write_row (lastRow g) 0 (new_row pf companyRecord g) g) = header_row g.
Proof.
  unfold header_row. rewrite append_keeps_width. apply map_ext. intros j.
  rewrite cell_at_write_row by lia.
  replace (1 - 1 =? lastRow g) with false; [reflexivity|].
  symmetry. apply Nat.eqb_neq. cbn. lia.
Qed.

Lemma append_adds_one :
  rows_with_id (write_row (lastRow g) 0 (new_row pf companyRecord g) g) i (VStr uuid)
  = S (rows_with_id g i (VStr uuid)).
Proof.
  unfold rows_with_id, id_cells. rewrite append_last_row.
  replace (S (lastRow g) - 1) with (S (lastRow g - 1)) by lia.
  rewrite seq_S, map_app, List.filter_app, length_app, Nat.add_0_l.
  cbn [map List.filter]. rewrite id_cell_after_write.
  replace (1 + (lastRow g - 1) =? lastRow g) with true
    by (symmetry; apply Nat.eqb_eq; lia).
  replace (strict_eq (VStr uuid) (VStr uuid)) with true
    by (symmetry; apply strict_eq_str; reflexivity).
  cbn [length]. rewrite Nat.add_1_r. f_equal.
  apply filter_map_same. intros k Hk. apply in_seq in Hk.
  rewrite id_cell_after_write.
  replace (1 + k =? lastRow g) with false; [reflexivity|].
  symmetry. apply Nat.eqb_neq. lia.
Qed.

End SaveById.

Lemma header_of_id (g : list (list value)) (i : nat) :
  indexOf (header_row g) (VStr (js "id")) = Some i -> header_row g <> [].
Proof. intros H E. rewrite E in H. discriminate. Qed.

(** A save into a sheet that holds the record's id overwrites the first row
    that holds it. *)
Lemma save_overwrites (pf : Platform) (companyRecord : object) (w : World) (s : Sheet)
    (i : nat) (uuid : jsstring) :
  configured pf -> book w = Some s -> lastRow (grid s) <> 0 ->
  indexOf (header_row (grid s)) (VStr (js "id")) = Some i ->
  prop companyRecord "id" = VStr uuid -> uuid <> [] ->
  stored pf (VStr uuid) = VStr uuid ->
  0 < rows_with_id (grid s) i (VStr uuid) ->
  exists k,
    k < lastRow (grid s) - 1 /\ cell_at (grid s) (2 + k) (i + 1) = VStr uuid
    /\ ends (SaveToDb.saveCompanyRecord pf companyRecord) w (Ok tt)
         (Some (mkSheet (write_row (k + 1) 0 (new_row pf companyRecord (grid s)) (grid s))
                        (frozenRows s)))
    /\ lastRow (write_row (k + 1) 0 (new_row pf companyRecord (grid s)) (grid s))
       = lastRow (grid s)
    /\ rows_with_id (write_row (k + 1) 0 (new_row pf companyRecord (grid s)) (grid s))
         i (VStr uuid)
       = rows_with_id (grid s) i (VStr uuid).
Proof.
  intros Hc Hb HL Hi Hid Hne Hst Hpos.
  destruct (counted_is_found uuid (grid s) i) as (k & Hk); [assumption..|].
  destruct (found_in_rows uuid Hne (grid s) i) with (k := k) as (Hlt & Hcell);
    [assumption..|].
  exists k. split; [exact Hlt|]. split; [exact Hcell|]. split; [|split].
  - pose proof (save_with_headers pf companyRecord w s Hc Hb HL (header_of_id _ _ Hi)) as H.
    rewrite Hi, Hid, Hk in H. exact H.
  - eapply overwrite_keeps_last_row; eassumption.
  - eapply overwrite_keeps_count; eassumption.
Qed.

(** C6. Let the sheet have rows, a header [id] in column [i + 1], and let
    the record's id be a non-empty string that the sheet stores as it is.
    If a row after the first holds that id, [saveCompanyRecord] succeeds
    and overwrites such a row in place: the last row with content and the
    number of rows with that id stay what they were. If no row holds it,
    saving the record twice succeeds and leaves exactly one row with that
    id. *)
Theorem save_is_idempotent_in_id (pf : Platform) (companyRecord : object) (w : World)
    (s : Sheet) (i : nat) (uuid : jsstring) :
  configured pf -> book w = Some s -> lastRow (grid s) <> 0 ->
  indexOf (header_row (grid s)) (VStr (js "id")) = Some i ->
  prop companyRecord "id" = VStr uuid -> uuid <> [] ->
  stored pf (VStr uuid) = VStr uuid ->
  (0 < rows_with_id (grid s) i (VStr uuid) ->
   exists k s',
     k < lastRow (grid s) - 1 /\ cell_at (grid s) (2 + k) (i + 1) = VStr uuid
     /\ ends (SaveToDb.saveCompanyRecord pf companyRecord) w (Ok tt) (Some s')
     /\ grid s' = write_row (k + 1) 0 (new_row pf companyRecord (grid s)) (grid s)
     /\ lastRow (grid s') = lastRow (grid s)
     /\ rows_with_id (grid s') i (VStr uuid) = rows_with_id (grid s) i (VStr uuid))
  /\
  (rows_with_id (grid s) i (VStr uuid) = 0 ->
   exists w1 s2,
     SaveToDb.saveCompanyRecord pf companyRecord w = (Ok tt, w1)
     /\ ends (SaveToDb.saveCompanyRecord pf companyRecord) w1 (Ok tt) (Some s2)
     /\ rows_with_id (grid s2) i (VStr uuid) = 1).
Proof.
  intros Hc Hb HL Hi Hid Hne Hst. split.
  - intros Hpos.
    destruct (save_overwrites pf companyRecord w s i uuid Hc Hb HL Hi Hid Hne Hst Hpos)
      as (k & Hlt & Hcell & Hends & Hlast & Hcount).
    exists k. eexists. split; [exact Hlt|]. split; [exact Hcell|].
    split; [exact Hends|]. split; [reflexivity|]. split; assumption.
  - intros Hzero.
    pose proof (save_with_headers pf companyRecord w s Hc Hb HL (header_of_id _ _ Hi)) as H.
    rewrite Hi, Hid in H.
    rewrite (not_counted_is_not_found uuid Hne (grid s) i) in H by assumption.
    destruct H as (w1 & E1 & H1).
    set (g1 := write_row (lastRow (grid s)) 0 (new_row pf companyRecord (grid s)) (grid s))
      in *.
    assert (HL1 : lastRow g1 <> 0).
    { unfold g1. erewrite append_last_row by eassumption. discriminate. }
    assert (Hi1 : indexOf (header_row g1) (VStr (js "id")) = Some i).
    { unfold g1. rewrite append_keeps_headers by assumption. exact Hi. }
    assert (Hc1 : rows_with_id g1 i (VStr uuid) = 1).
    { unfold g1. erewrite append_adds_one by eassumption.
      rewrite Hzero. reflexivity. }
    destruct (save_overwrites pf companyRecord w1 (mkSheet g1 (frozenRows s)) i uuid
                Hc H1 HL1 Hi1 Hid Hne Hst ltac:(cbn [grid]; lia))
      as (k & _ & _ & Hends & _ & Hcount).
    exists w1. eexists. split; [exact E1|]. split; [exact Hends|].
    cbn [grid] in *. rewrite Hcount. exact Hc1.
Qed.

Lemma save_is_idempotent_in_id_witness :
  (exists k s',
     k < lastRow (grid Sample.one_record_sheet) - 1
     /\ cell_at (grid Sample.one_record_sheet) (2 + k) (0 + 1) = VStr (js "u1")
     /\ ends (SaveToDb.saveCompanyRecord Sample.offline Sample.renamed_record)
          (mkWorld [] 0 0 [] (Some Sample.one_record_sheet)) (Ok tt) (Some s')
     /\ grid s' = write_row (k + 1) 0
                    (new_row Sample.offline Sample.renamed_record
                       (grid Sample.one_record_sheet))
                    (grid Sample.one_record_sheet)
     /\ lastRow (grid s') = lastRow (grid Sample.one_record_sheet)
     /\ rows_with_id (grid s') 0 (VStr (js "u1"))
        = rows_with_id (grid Sample.one_record_sheet) 0 (VStr (js "u1"))).
Proof.
  refine (proj1 (save_is_idempotent_in_id Sample.offline Sample.renamed_record
                   (mkWorld [] 0 0 [] (Some Sample.one_record_sheet))
                   Sample.one_record_sheet 0 (js "u1") _ _ _ _ _ _ _) _).
  - reflexivity.
  - reflexivity.
  - vm_compute. discriminate.
  - vm_compute. reflexivity.
  - vm_compute. reflexivity.
  - discriminate.
  - reflexivity.
  - vm_compute. lia.
Defined.

(** Saving the record with id [u1] into the sample sheet rewrites row 2;
    saving it twice into the sheet that has headers only leaves one row
    with that id below the headers. *)
Example save_twice_leaves_one_row :
  book (snd (SaveToDb.saveCompanyRecord Sample.offline Sample.renamed_record
               (mkWorld [] 0 0 [] (Some Sample.one_record_sheet))))
  = Some (mkSheet [[VStr (js "id"); VStr (js "company_name")];
                   [VStr (js "u1"); VStr (js "Acme Inc")]] 1)
  /\ book (snd (SaveToDb.saveCompanyRecord Sample.offline Sample.renamed_record
                  (snd (SaveToDb.saveCompanyRecord Sample.offline Sample.renamed_record
                          (mkWorld [] 0 0 [] (Some Sample.headers_only_sheet))))))
     = Some (mkSheet [[VStr (js "id"); VStr (js "company_name")];
                      [VStr (js "u1"); VStr (js "Acme Inc")]] 1).
Proof. vm_compute. split; reflexivity. Qed.

(** The first save into an empty sheet throws and leaves the header row;
    the second save of the same record then succeeds. *)
Example second_save_succeeds :
  let w := mkWorld [] 0 0 [] (Some (mkSheet [] 0)) in
  let w1 := snd (SaveToDb.saveCompanyRecord Sample.offline Sample.renamed_record w) in
  fst (SaveToDb.saveCompanyRecord Sample.offline Sample.renamed_record w)
    = Throw (TypeError "Assignment to constant variable.")
  /\ fst (SaveToDb.saveCompanyRecord Sample.offline Sample.renamed_record w1) = Ok tt
  /\ book (snd (SaveToDb.saveCompanyRecord Sample.offline Sample.renamed_record w1))
     = Some (mkSheet [[VStr (js "id"); VStr (js "company_name")];
                      [VStr (js "u1"); VStr (js "Acme Inc")]] 1).
Proof. vm_compute. repeat split; reflexivity. Qed.

(** ** C8 and C10: the batch drivers *)

Lemma bind_log {B} (t : string) (a : list logarg) (k : unit -> M B) (w : World) :
  bind (log t a) k w = k tt (snd (log t a w)).
Proof. reflexivity. Qed.

Section Drivers.
Variable pf : Platform.
Variable parse : jsstring -> M object.

Lemma process_file_run (file : File) (counts : nat * nat) (w : World) :
  exists w', Main.process_file pf parse file counts w
             = (Ok (bump (file_verdict pf parse file w) counts), w').
Proof.
  unfold Main.process_file, file_verdict.
  rewrite bind_log.
  set (w0 := snd (log "-- Found document" [LS (file_name file); LS (file_id file)] w)).
  unfold try_catch at 1. unfold bind at 1.
  destruct (parse (file_id file) w0) as [[companyRecord|e] w1].
  - cbn [truthy andb].
    destruct (truthy (prop companyRecord "company_name")).
    + unfold bind at 1.
      destruct (SaveToDb.saveCompanyRecord pf companyRecord w1) as [[[]|e] w2];
        cbn [fst]; eexists; reflexivity.
    + eexists. reflexivity.
  - eexists. reflexivity.
Qed.

Lemma inner_loop_run (files : list File) (counts : nat * nat) (w : World) :
  exists counts' w',
    foldM (Main.process_file pf parse) files counts w = (Ok counts', w')
    /\ batch_run pf parse files counts w counts' w'.
Proof.
  revert counts w. induction files as [|file rest IH]; intros counts w.
  - exists counts, w. split; [reflexivity|constructor].
  - destruct (process_file_run file counts w) as (w1 & E1).
    destruct (IH (bump (file_verdict pf parse file w) counts) w1) as (c' & w' & E & R).
    exists c', w'. split.
    + cbn [foldM]. rewrite (bind_run _ _ _ _ _ E1). exact E.
    + econstructor; eassumption.
Qed.

Lemma outer_loop_run (folders : list Folder) (counts : nat * nat) (w : World) :
  exists counts' w',
    foldM (Main.process_folder pf parse) folders counts w = (Ok counts', w')
    /\ folders_run pf parse folders counts w counts' w'.
Proof.
  revert counts w. induction folders as [|folder rest IH]; intros counts w.
  - exists counts, w. split; [reflexivity|constructor].
  - cbn [foldM]. unfold Main.process_folder at 1.
    destruct (inner_loop_run (folder_docs folder) counts
                (snd (log "Scanning subfolder" [LS (folder_name folder)] w)))
      as (c1 & w1 & E1 & R1).
    destruct (IH c1 w1) as (c' & w' & E & R).
    exists c', w'. split.
    + rewrite (bind_run _ _ w w1 (Ok c1)); [exact E|]. rewrite bind_log. exact E1.
    + econstructor; eassumption.
Qed.

Lemma parseAndSaveCompany_run (docId : jsstring) (w : World) :
  exists result w', DbWrite.parseAndSaveCompany pf parse docId w = (Ok result, w').
Proof.
  unfold DbWrite.parseAndSaveCompany.
  rewrite bind_log. unfold try_catch at 1.
  match goal with |- context [let (o, w') := ?m ?w0 in _] => destruct (m w0) as [[r|e] w1] end.
  - eauto.
  - eexists. eexists. reflexivity.
Qed.

End Drivers.

Section Documents.
Variable pf : Platform.
Variable parse : jsstring -> M object.

Lemma batch_step_result (n index : nat) (docId : jsstring)
    (results : DbWrite.BatchResults) (w w1 : World) (result : object) :
  DbWrite.parseAndSaveCompany pf parse docId w = (Ok result, w1) ->
  DbWrite.batch_step pf parse n (index, docId) results w
  = (Ok (DbWrite.mkBatch (DbWrite.total results)
           (DbWrite.successful results + (if succeeded result then 1 else 0))
           (DbWrite.failed results + (if succeeded result then 0 else 1))
           (DbWrite.details results ++ [result])),
     progress n index w1).
Proof.
  intros E. unfold DbWrite.batch_step, progress, succeeded.
  rewrite (bind_run _ _ _ _ _ E).
  destruct (truthy (prop result "success"));
    destruct ((index + 1) mod 5 =? 0); run;
    cbn [DbWrite.total DbWrite.successful DbWrite.failed DbWrite.details];
    rewrite ?Nat.add_0_r, ?Nat.add_1_r; reflexivity.
Qed.

Lemma documents_loop_run (n : nat) (docIds : list jsstring) (index : nat)
    (results : DbWrite.BatchResults) (w : World) :
  exists details w',
    documents_run pf parse n index docIds w details w'
    /\ foldM (DbWrite.batch_step pf parse n) (combine (seq index (length docIds)) docIds)
         results w
       = (Ok (DbWrite.mkBatch (DbWrite.total results)
                (DbWrite.successful results + length (List.filter succeeded details))
                (DbWrite.failed results
                 + length (List.filter (fun result => negb (succeeded result)) details))
                (DbWrite.details results ++ details)),
          w').
Proof.
  revert index results w. induction docIds as [|docId rest IH]; intros index results w.
  - exists [], w. split; [constructor|].
    cbn. rewrite !Nat.add_0_r, app_nil_r. destruct results; reflexivity.
  - destruct (parseAndSaveCompany_run pf parse docId w) as (result & w1 & E).
    specialize (IH (S index)
      (DbWrite.mkBatch (DbWrite.total results)
         (DbWrite.successful results + (if succeeded result then 1 else 0))
         (DbWrite.failed results + (if succeeded result then 0 else 1))
         (DbWrite.details results ++ [result]))
      (progress n index w1)).
    destruct IH as (details & w' & R & F).
    exists (result :: details), w'. split; [econstructor; eassumption|].
    cbn [length seq combine foldM].
    rewrite (bind_run _ _ _ _ _ (batch_step_result n index docId results w w1 result E)).
    rewrite F. cbn [DbWrite.total DbWrite.successful DbWrite.failed DbWrite.details
                    List.filter].
    rewrite <- app_assoc. cbn [app].
    destruct (succeeded result); cbn [negb length];
      rewrite ?Nat.add_0_r, <- ?Nat.add_assoc; reflexivity.
Qed.

End Documents.

(** C8. Neither batch driver is aborted by a document. In main.js the body
    of the loop catches what the parse or the save of a file throws: it logs
    the error, adds one to the error count and returns, and a file that is
    parsed and saved adds one to the processed count. Every file of a
    folder is processed from the state its predecessor left and gets its
    own verdict (saved, skipped, or failed), whatever the verdicts before
    it; the loop over the files and the loop over the folders return
    normally. Once the master folder is found, the whole function runs the
    loop over all its folders from the first logger line on, logs its five
    closing lines with the two counts and returns. In the database write
    utility [parseAndSaveCompany] turns an exception of the parse into a
    result whose [success] is [false], and otherwise reports the [success]
    of the save; [batchParseAndSave] handles every document in turn, each
    from the state its predecessor left, keeps every result in [details] in
    order, counts the results that report a success as [successful] and all
    the others as [failed], and returns normally. *)
Theorem batch_never_aborts (pf : Platform) (parse : jsstring -> M object) :
  (forall file counts w,
     let w0 := snd (log "-- Found document" [LS (file_name file); LS (file_id file)] w) in
     (forall e w1,
        parse (file_id file) w0 = (Throw e, w1) ->
        Main.process_file pf parse file counts w
        = (Ok (fst counts, S (snd counts)),
           snd (log "---- ERROR processing document" [LS (file_name file); LE e] w1)))
     /\ (forall companyRecord w1 e w2,
           parse (file_id file) w0 = (Ok companyRecord, w1) ->
           truthy (prop companyRecord "company_name") = true ->
           SaveToDb.saveCompanyRecord pf companyRecord w1 = (Throw e, w2) ->
           Main.process_file pf parse file counts w
           = (Ok (fst counts, S (snd counts)),
              snd (log "---- ERROR processing document" [LS (file_name file); LE e] w2)))
     /\ (forall companyRecord w1 w2,
           parse (file_id file) w0 = (Ok companyRecord, w1) ->
           truthy (prop companyRecord "company_name") = true ->
           SaveToDb.saveCompanyRecord pf companyRecord w1 = (Ok tt, w2) ->
           Main.process_file pf parse file counts w
           = (Ok (S (fst counts), snd counts), w2)))
  /\ (forall files counts w, exists counts' w',
        foldM (Main.process_file pf parse) files counts w = (Ok counts', w')
        /\ batch_run pf parse files counts w counts' w')
  /\ (forall folders counts w, exists counts' w',
        foldM (Main.process_folder pf parse) folders counts w = (Ok counts', w')
        /\ folders_run pf parse folders counts w counts' w')
  /\ (forall masterFolder w,
        property_set (Main.MASTER_FOLDER_ID pf) = true ->
        getFolderById pf (default [] (Main.MASTER_FOLDER_ID pf)) = Ok masterFolder ->
        exists counts w1,
          folders_run pf parse (snd masterFolder) (0, 0)
            (snd (log "Starting company processing for master folder"
                    [LS (fst masterFolder)] w))
            counts w1
          /\ Main.processAllCompaniesInMasterFolder pf parse w
             = (Ok counts,
                mkWorld (fetched w1) (uuids w1) (ticks w1)
                        (logs w1 ++ closing_lines counts) (book w1)))
  /\ (forall docId w,
        let w0 := snd (log "Starting parse and save workflow for doc" [LS docId] w) in
        (forall e w1,
           parse docId w0 = (Throw e, w1) ->
           DbWrite.parseAndSaveCompany pf parse docId w
           = (Ok [(js "success", VBool false);
                  (js "operation", VStr (js "parse_and_save"));
                  (js "doc_id", VStr docId);
                  (js "error", VStr (exn_toString e))],
              snd (log "Error in parse and save workflow" [LE e] w1)))
        /\ (forall parsedData w1 saveResult w2,
              parse docId w0 = (Ok parsedData, w1) ->
              DbWrite.saveCompanyToDatabase pf (DbWrite.sanitizeCompanyRecord pf parsedData) w1
              = (Ok saveResult, w2) ->
              DbWrite.parseAndSaveCompany pf parse docId w
              = (Ok [(js "success", prop saveResult "success");
                     (js "operation", VStr (js "parse_and_save"));
                     (js "doc_id", VStr docId);
                     (js "company_name", prop parsedData "company_name");
                     (js "database_result", VObj saveResult)],
                 w2)))
  /\ (forall docIds w, exists details w1,
        documents_run pf parse (length docIds) 0 docIds
          (snd (log "Starting batch parse and save" [LN (length docIds)] w)) details w1
        /\ DbWrite.batchParseAndSave pf parse docIds w
           = (Ok (DbWrite.mkBatch (length docIds)
                    (length (List.filter succeeded details))
                    (length (List.filter (fun result => negb (succeeded result)) details))
                    details),
              snd (log "Batch processing complete"
                     [LN (length (List.filter succeeded details));
                      LN (length (List.filter (fun result => negb (succeeded result))
                                              details))]
                     w1))).
Proof.
  split.
  { intros file counts w w0. subst w0. unfold Main.process_file.
    repeat split.
    - intros e w1 E. rewrite bind_log. unfold try_catch at 1. unfold bind at 1.
      rewrite E. reflexivity.
    - intros companyRecord w1 e w2 E Hn Es. rewrite bind_log.
      unfold try_catch at 1. unfold bind at 1. rewrite E.
      cbn [truthy andb]. rewrite Hn. unfold bind at 1. rewrite Es. reflexivity.
    - intros companyRecord w1 w2 E Hn Es. rewrite bind_log.
      unfold try_catch at 1. unfold bind at 1. rewrite E.
      cbn [truthy andb]. rewrite Hn. unfold bind at 1. rewrite Es. reflexivity. }
  split; [apply inner_loop_run|]. split; [apply outer_loop_run|]. split; [|split].
  - intros masterFolder w Hset Hf.
    unfold Main.processAllCompaniesInMasterFolder. rewrite Hset, Hf. cbn [negb].
    rewrite (bind_run _ _ w w (Ok masterFolder) eq_refl).
    rewrite bind_log.
    destruct (outer_loop_run pf parse (snd masterFolder) (0, 0)
                (snd (log "Starting company processing for master folder"
                       [LS (fst masterFolder)] w))) as (c & w1 & E1 & R).
    rewrite (bind_run _ _ _ _ _ E1). exists c, w1. split; [exact R|].
    run. unfold closing_lines. rewrite <- !app_assoc. reflexivity.
  - intros docId w w0. subst w0. unfold DbWrite.parseAndSaveCompany. split.
    + intros e w1 E. rewrite bind_log. unfold try_catch at 1. unfold bind at 1.
      rewrite E. reflexivity.
    + intros parsedData w1 saveResult w2 E Es. rewrite bind_log.
      unfold try_catch at 1. unfold bind at 1. rewrite E. unfold bind at 1.
      rewrite Es. reflexivity.
  - intros docIds w. unfold DbWrite.batchParseAndSave. rewrite bind_log.
    destruct (documents_loop_run pf parse (length docIds) docIds 0
                (DbWrite.mkBatch (length docIds) 0 0 [])
                (snd (log "Starting batch parse and save" [LN (length docIds)] w)))
      as (details & w1 & R & F).
    exists details, w1. split; [exact R|].
    rewrite (bind_run _ _ _ _ _ F). reflexivity.
Qed.

(** C10. When the parse of a document succeeds with a record whose
    [company_name] is [null] or the empty string, the driver's loop body
    returns normally with both counters as they were; it adds one logger
    line to the world the parse left, so the sheet is the one the parse
    left and [saveCompanyRecord] is not run. *)
Theorem nameless_record_is_skipped (pf : Platform) (parse : jsstring -> M object)
    (file : File) (counts : nat * nat) (w w1 : World) (companyRecord : object) :
  parse (file_id file)
        (snd (log "-- Found document" [LS (file_name file); LS (file_id file)] w))
    = (Ok companyRecord, w1) ->
  prop companyRecord "company_name" = VNull
    \/ prop companyRecord "company_name" = VStr [] ->
  Main.process_file pf parse file counts w
    = (Ok counts,
       snd (log "---- Skipping file, parsing did not return a valid company record for"
              [LS (file_name file)] w1))
  /\ file_verdict pf parse file w = Skipped.
Proof.
  intros E Hname.
  assert (Hf : truthy (prop companyRecord "company_name") = false)
    by (destruct Hname as [-> | ->]; reflexivity).
  unfold Main.process_file, file_verdict. rewrite bind_log.
  unfold try_catch at 1. unfold bind at 1. rewrite E.
  cbn [truthy andb]. rewrite Hf. split; reflexivity.
Qed.

Lemma nameless_record_is_skipped_witness :
  let pf := Sample.stage_platform Sample.simple_reply Sample.primary_only_reply
              Sample.customer_reply Sample.churn_reply Sample.burn_reply
              Sample.valuation_reply Sample.nameless_doc in
  let file := mkFile (js "notes") (js "doc1") in
  let w := mkWorld [] 0 0 [] (Some (mkSheet [[VStr (js "id")]] 1)) in
  fst (Main.process_file pf (Rev1.parseCompanyFromDoc pf) file (3, 1) w) = Ok (3, 1)
  /\ book (snd (Main.process_file pf (Rev1.parseCompanyFromDoc pf) file (3, 1) w))
     = book w.
Proof.
  intros pf file w.
  pose (run := Rev1.parseCompanyFromDoc pf (file_id file)
                 (snd (log "-- Found document" [LS (file_name file); LS (file_id file)] w))).
  pose (companyRecord := match fst run with Ok r => r | Throw _ => [] end).
  destruct (nameless_record_is_skipped pf (Rev1.parseCompanyFromDoc pf) file (3, 1) w
              (snd run) companyRecord) as [E _].
  - vm_compute. reflexivity.
  - left. vm_compute. reflexivity.
  - rewrite E. split; [reflexivity|]. vm_compute. reflexivity.
Defined.

(** Three documents and an empty sheet: the save of the first document
    throws (the header row is written on the way), which is counted as an
    error, and the two documents after it are parsed and saved. *)
Example batch_continues_after_a_failure :
  let pf := Sample.stage_platform Sample.simple_reply Sample.primary_only_reply
              Sample.customer_reply Sample.churn_reply Sample.burn_reply
              Sample.valuation_reply Sample.acme_doc in
  fst (Main.processAllCompaniesInMasterFolder pf (Rev2.parseCompanyFromDoc pf) Sample.w0)
    = Ok (2, 1)
  /\ fst (Main.processAllCompaniesInMasterFolder pf (Rev1.parseCompanyFromDoc pf) Sample.w0)
    = Ok (2, 1)
  /\ option_map (fun s => lastRow (grid s))
       (book (snd (Main.processAllCompaniesInMasterFolder pf
                     (Rev2.parseCompanyFromDoc pf) Sample.w0)))
     = Some 3.
Proof. vm_compute. repeat split; reflexivity. Qed.

(** * Further properties of the code *)

(** ** The raw fields of the first revision *)

Lemma trimStart_head (s : jsstring) (c : N) (r : jsstring) :
  trimStart s = c :: r -> is_whitespace c = false.
Proof.
  induction s as [|d s IH]; simpl; [discriminate|].
  destruct (is_whitespace d) eqn:Hd; [exact IH|].
  intros H. injection H as <- _. exact Hd.
Qed.

Lemma trimStart_keeps (s : jsstring) (c : N) (r : jsstring) :
  s = c :: r -> is_whitespace c = false -> trimStart s = s.
Proof. intros -> H. simpl. rewrite H. reflexivity. Qed.

Lemma trimStart_suffix (s : jsstring) : exists p, s = p ++ trimStart s.
Proof.
  induction s as [|c s [p IH]]; [exists []; reflexivity|].
  simpl. destruct (is_whitespace c).
  - exists (c :: p). simpl. rewrite <- IH. reflexivity.
  - exists []. reflexivity.
Qed.

(** Trimming a trimmed string changes nothing. *)
Lemma trim_trim (s : jsstring) : trim (trim s) = trim s.
Proof.
  unfold trim.
  set (t := trimStart s). set (u := trimStart (rev t)).
  assert (Hu : trimStart u = u).
  { destruct u as [|c r] eqn:E; [reflexivity|].
    apply (trimStart_keeps _ c r eq_refl). apply (trimStart_head (rev t) c r). exact E. }
  assert (Hr : trimStart (rev u) = rev u).
  { destruct (rev u) as [|c r] eqn:E; [reflexivity|].
    apply (trimStart_keeps _ c r eq_refl).
    destruct (trimStart_suffix (rev t)) as [p Hp]. fold u in Hp.
    apply (f_equal (@rev N)) in Hp. rewrite rev_involutive, rev_app_distr, E in Hp.
    apply (trimStart_head s c (r ++ rev p)). exact Hp. }
  rewrite Hr, rev_involutive, Hu. reflexivity.
Qed.

Lemma Forall_trimStart (P : N -> Prop) (s : jsstring) :
  Forall P s -> Forall P (trimStart s).
Proof.
  induction 1 as [|c s Hc Hs IH]; simpl; [constructor|].
  destruct (is_whitespace c); [exact IH|]. constructor; assumption.
Qed.

Lemma Forall_trim (P : N -> Prop) (s : jsstring) : Forall P s -> Forall P (trim s).
Proof.
  intros H. unfold trim.
  apply List.Forall_rev, Forall_trimStart, List.Forall_rev, Forall_trimStart, H.
Qed.

Lemma span_line_fst (t : jsstring) :
  Forall (fun c => is_line_terminator c = false) (fst (span_line t)).
Proof.
  induction t as [|c t IH]; simpl; [constructor|].
  destruct (is_line_terminator c) eqn:Hc; [constructor|].
  destruct (span_line t) as [l r]. simpl in *. constructor; assumption.
Qed.

Lemma capture_here_line (t m : jsstring) :
  capture_here t = Some m -> Forall (fun c => is_line_terminator c = false) m.
Proof.
  unfold capture_here. pose proof (span_line_fst t) as H.
  destruct (span_line t) as [[|c l] [|r rest]]; simpl in H; try discriminate.
  - intros E. injection E as <-. exact H.
  - destruct (r =? 10)%N; [|discriminate]. intros E. injection E as <-. exact H.
Qed.

Lemma after_spaces_line (t m : jsstring) :
  after_spaces t = Some m -> Forall (fun c => is_line_terminator c = false) m.
Proof.
  induction t as [|c t IH]; simpl; [discriminate|].
  destruct (is_whitespace c).
  - destruct (after_spaces t) as [m'|] eqn:E.
    + intros H. injection H as <-. apply IH. reflexivity.
    + apply capture_here_line.
  - apply capture_here_line.
Qed.

Lemma match_field_line (label text m : jsstring) :
  match_field label text = Some m -> Forall (fun c => is_line_terminator c = false) m.
Proof.
  induction text as [|c text IH]; simpl.
  - destruct (match_at label []) as [m'|] eqn:E; [|discriminate].
    intros H. injection H as <-. unfold match_at in E.
    destruct (match_label label []); [|discriminate]. eapply after_spaces_line, E.
  - destruct (match_at label (c :: text)) as [m'|] eqn:E; [|exact IH].
    intros H. injection H as <-. unfold match_at in E.
    destruct (match_label label (c :: text)); [|discriminate]. eapply after_spaces_line, E.
Qed.

Lemma extract_field_value (text : jsstring) (fieldName : string) :
  fst (Rev1.extract_field text fieldName) = js fieldName
  /\ trim (snd (Rev1.extract_field text fieldName)) = snd (Rev1.extract_field text fieldName)
  /\ Forall (fun c => is_line_terminator c = false) (snd (Rev1.extract_field text fieldName)).
Proof.
  unfold Rev1.extract_field. cbn [fst snd].
  destruct (match_field _ text) as [m|] eqn:E.
  - split; [reflexivity|]. split; [apply trim_trim|].
    apply Forall_trim. eapply match_field_line, E.
  - repeat split. constructor.
Qed.

(** X1. [extractRawFieldsFromDoc] fails only when the document cannot be
    read, and then logs the error and throws it again. Otherwise it returns,
    without any effect, an object with exactly the labels of [fieldPatterns]
    as keys, in their order, whatever the text; every value is a trimmed
    string without a line terminator. *)
Theorem raw_fields_are_trimmed_lines (pf : Platform) (docId : jsstring) (w : World) :
  match getText pf docId with
  | Ok text =>
      exists rawFields,
        Rev1.extractRawFieldsFromDoc pf docId w = (Ok rawFields, w)
        /\ map fst rawFields = map js Rev1.fieldPatterns
        /\ Forall (fun kv => trim (snd kv) = snd kv
                     /\ Forall (fun c => is_line_terminator c = false) (snd kv))
                  rawFields
  | Throw e =>
      Rev1.extractRawFieldsFromDoc pf docId w
      = (Throw e, snd (log "Error extracting from doc" [LS docId; LE e] w))
  end.
Proof.
  unfold Rev1.extractRawFieldsFromDoc.
  destruct (getText pf docId) as [text|e] eqn:E; run; [|reflexivity].
  exists (map (Rev1.extract_field text) Rev1.fieldPatterns).
  split; [reflexivity|]. split.
  - rewrite map_map. apply map_ext. intros f. apply extract_field_value.
  - apply List.Forall_forall. intros kv Hin. apply in_map_iff in Hin as (f & <- & _).
    apply extract_field_value.
Qed.

Lemma match_field_absent (label text : jsstring) :
  label_index label text = None -> match_field label text = None.
Proof.
  induction text as [|c text IH]; simpl; unfold match_at.
  - destruct (match_label label []); [discriminate|reflexivity].
  - destruct (match_label label (c :: text)); [discriminate|].
    destruct (label_index label text); [discriminate|]. intros _. apply IH. reflexivity.
Qed.

(** X2. A field whose label, followed by a colon, stands nowhere in the
    text (letter case ignored) is read as the empty string. *)
Theorem absent_label_reads_empty (text : jsstring) (fieldName : string) :
  label_index (js fieldName ++ js ":") text = None ->
  Rev1.extract_field text fieldName = (js fieldName, []).
Proof.
  intros H. unfold Rev1.extract_field. rewrite (match_field_absent _ _ H). reflexivity.
Qed.

Lemma absent_label_reads_empty_witness :
  Rev1.extract_field (js "ACV: 5k") "Cash" = (js "Cash", []).
Proof. apply (absent_label_reads_empty (js "ACV: 5k") "Cash"). reflexivity. Defined.

Lemma match_label_rest (label text rest : jsstring) :
  match_label label text = Some rest -> rest = drop (length label) text.
Proof.
  revert text. induction label as [|p label IH]; intros text; simpl.
  - intros H. injection H as <-. reflexivity.
  - destruct text as [|c text]; [discriminate|].
    destruct (fold_case p =? fold_case c)%N; [|discriminate]. apply IH.
Qed.

Lemma match_field_from (label pre rest : jsstring) :
  label_index label (pre ++ rest) = Some (length pre) ->
  match_field label (pre ++ rest) = match_field label rest
  /\ match_label label rest = Some (drop (length label) rest).
Proof.
  induction pre as [|c pre IH]; simpl.
  - intros H. split; [reflexivity|].
    destruct (match_label label rest) as [x|] eqn:E.
    + rewrite (match_label_rest _ _ _ E). reflexivity.
    + exfalso. destruct rest; simpl in H; rewrite E in H; [discriminate|].
      destruct (label_index label rest); discriminate.
  - unfold match_at. destruct (match_label label (c :: pre ++ rest)); [discriminate|].
    destruct (label_index label (pre ++ rest)) as [n|] eqn:E; [|discriminate].
    intros H. injection H as ->. apply IH. reflexivity.
Qed.

Lemma span_line_value (val rest : jsstring) :
  Forall (fun c => is_line_terminator c = false) val ->
  (rest = [] \/ exists rest', rest = 10%N :: rest') ->
  span_line (val ++ rest) = (val, rest).
Proof.
  intros Hv Hr. induction Hv as [|c val Hc _ IH]; simpl.
  - destruct Hr as [->|[rest' ->]]; reflexivity.
  - rewrite Hc, IH. reflexivity.
Qed.

Lemma after_spaces_value (ws val rest : jsstring) (c : N) (val' : jsstring) :
  Forall (fun c => is_whitespace c = true) ws ->
  val = c :: val' -> is_whitespace c = false ->
  Forall (fun c => is_line_terminator c = false) val ->
  (rest = [] \/ exists rest', rest = 10%N :: rest') ->
  after_spaces (ws ++ val ++ rest) = Some val.
Proof.
  intros Hws Hval Hc Hv Hr.
  assert (Hcap : capture_here (val ++ rest) = Some val).
  { unfold capture_here. rewrite (span_line_value _ _ Hv Hr). subst val.
    destruct Hr as [->|[rest' ->]]; reflexivity. }
  induction Hws as [|d ws Hd _ IH]; simpl.
  - subst val. simpl. rewrite Hc. exact Hcap.
  - rewrite Hd, IH. reflexivity.
Qed.

(** X3. When the line that holds the value ends with a line feed or with
    the end of the text, the value of a field is read at the first place
    where its label stands, in any letter case: after the colon, white
    space is skipped, line breaks included, and the characters from the
    first other character up to that line feed or end, none of them a line
    terminator, are the value, trimmed. So a label with nothing after it on
    its line takes the next line that is not blank as its value. A value
    line that ends with a carriage return or with another line terminator
    than the line feed is not covered. *)
Theorem labelled_value_is_read (fieldName : string)
    (pre lab ws val rest : jsstring) (c : N) (val' : jsstring) :
  label_index (js fieldName ++ js ":") (pre ++ lab ++ ws ++ val ++ rest)
    = Some (length pre) ->
  length lab = length (js fieldName ++ js ":") ->
  Forall (fun c => is_whitespace c = true) ws ->
  val = c :: val' -> is_whitespace c = false ->
  Forall (fun c => is_line_terminator c = false) val ->
  (rest = [] \/ exists rest', rest = 10%N :: rest') ->
  Rev1.extract_field (pre ++ lab ++ ws ++ val ++ rest) fieldName
    = (js fieldName, trim val).
Proof.
  intros Hi Hl Hws Hval Hc Hv Hr.
  destruct (match_field_from _ _ _ Hi) as [Hf Hm].
  unfold Rev1.extract_field. rewrite Hf.
  assert (Hat : match_at (js fieldName ++ js ":") (lab ++ ws ++ val ++ rest) = Some val).
  { unfold match_at. rewrite Hm, <- Hl, drop_app_length.
    eapply after_spaces_value; eassumption. }
  destruct (lab ++ ws ++ val ++ rest); simpl; rewrite Hat; reflexivity.
Qed.

Lemma labelled_value_is_read_witness :
  Rev1.extract_field
    (js "Company Name: Acme" ++ [10%N] ++ js "acv: " ++ [10%N] ++ js "Cash: 5 "
     ++ [10%N] ++ js "Runway: 3") "ACV"
  = (js "ACV", js "Cash: 5").
Proof.
  apply (labelled_value_is_read "ACV" (js "Company Name: Acme" ++ [10%N]) (js "acv:")
           [32%N; 10%N] (js "Cash: 5 ") (10%N :: js "Runway: 3") 67%N (js "ash: 5 ")).
  - reflexivity.
  - reflexivity.
  - repeat constructor.
  - reflexivity.
  - reflexivity.
  - repeat constructor.
  - right. eexists. reflexivity.
Defined.

(** ** The classifier call and the single-field stages *)

(** X4. Every call of [callOpenAIStructured] sends exactly one request, the
    one built from its arguments, whether the call succeeds or fails: there
    is no retry. It draws no UUID, reads no clock and leaves the sheet
    alone. A successful call logs nothing. A failed call logs the line
    "Error in OpenAI API call" with the schema name and the error, and
    throws that error; before that line it logs the line "API Error" with
    the status code and the response body exactly when a response arrived
    whose code is not 200, and nothing else. A response whose code is not
    200 always makes the call throw the error "OpenAI API error: " followed
    by the code. *)
Theorem classifier_call_sends_one_request (pf : Platform) (prompt : Prompt)
    (schema : Schema) (schemaName : jsstring) (w : World) :
  fetched (snd (callOpenAIStructured pf prompt schema schemaName w))
    = fetched w ++ [mkRequest prompt schemaName schema]
  /\ uuids (snd (callOpenAIStructured pf prompt schema schemaName w)) = uuids w
  /\ ticks (snd (callOpenAIStructured pf prompt schema schemaName w)) = ticks w
  /\ book (snd (callOpenAIStructured pf prompt schema schemaName w)) = book w
  /\ match fst (callOpenAIStructured pf prompt schema schemaName w) with
     | Ok _ => logs (snd (callOpenAIStructured pf prompt schema schemaName w)) = logs w
     | Throw e =>
         logs (snd (callOpenAIStructured pf prompt schema schemaName w))
         = logs w
           ++ status_line pf (fetched w) (mkRequest prompt schemaName schema)
           ++ [mkLog "Error in OpenAI API call" [LS schemaName; LE e]]
     end
  /\ (forall response,
        fetch pf (fetched w) (mkRequest prompt schemaName schema) = Ok response ->
        getResponseCode response <> 200%N ->
        fst (callOpenAIStructured pf prompt schema schemaName w)
        = Throw (Error (js "OpenAI API error: " ++ dec (getResponseCode response)))).
Proof.
  unfold callOpenAIStructured, status_line. run.
  destruct (fetch pf (fetched w) (mkRequest prompt schemaName schema))
    as [response|e0] eqn:F; run.
  - destruct (getResponseCode response =? 200)%N eqn:C; cbn [negb]; run.
    + repeat (break_match; run); repeat split;
        try (intros ? [= <-] Hc; apply N.eqb_eq in C; contradiction).
    + rewrite <- app_assoc. repeat split.
      intros ? [= <-] _. reflexivity.
  - repeat split. intros ? [=].
Qed.

(** X5. On a text that is empty or white space only, the three
    single-field stages ([convertChurnToAnnual], [normalizeMonthlyBurn] and
    [extractLastRoundValuation], in both revisions) return their field as
    [null] and leave the world as it was: no request is sent. *)
Theorem blank_text_skips_single_field_stages (pf : Platform) (text : jsstring)
    (context : list (jsstring * jsstring)) (w : World) :
  Forall (fun c => is_whitespace c = true) text ->
  Rev1.convertChurnToAnnual pf text w = (Ok (VObj [(js "logo_churn_annual", VNull)]), w)
  /\ Rev1.normalizeMonthlyBurn pf text w = (Ok (VObj [(js "monthly_burn", VNull)]), w)
  /\ Rev1.extractLastRoundValuation pf text context w
     = (Ok (VObj [(js "last_round_valuation", VNull)]), w)
  /\ Rev2.convertChurnToAnnual pf text w = (Ok (VObj [(js "logo_churn_annual", VNull)]), w)
  /\ Rev2.normalizeMonthlyBurn pf text w = (Ok (VObj [(js "monthly_burn", VNull)]), w)
  /\ Rev2.extractLastRoundValuation pf text w
     = (Ok (VObj [(js "last_round_valuation", VNull)]), w).
Proof.
  intros H. apply is_blank_whitespace in H.
  unfold Rev1.convertChurnToAnnual, Rev1.normalizeMonthlyBurn,
    Rev1.extractLastRoundValuation, Rev2.convertChurnToAnnual,
    Rev2.normalizeMonthlyBurn, Rev2.extractLastRoundValuation.
  rewrite H. repeat split; reflexivity.
Qed.

Lemma blank_text_skips_single_field_stages_witness :
  Rev1.convertChurnToAnnual Sample.offline (js " ") Sample.w0
    = (Ok (VObj [(js "logo_churn_annual", VNull)]), Sample.w0)
  /\ Rev1.normalizeMonthlyBurn Sample.offline (js " ") Sample.w0
     = (Ok (VObj [(js "monthly_burn", VNull)]), Sample.w0)
  /\ Rev1.extractLastRoundValuation Sample.offline (js " ") [] Sample.w0
     = (Ok (VObj [(js "last_round_valuation", VNull)]), Sample.w0)
  /\ Rev2.convertChurnToAnnual Sample.offline (js " ") Sample.w0
     = (Ok (VObj [(js "logo_churn_annual", VNull)]), Sample.w0)
  /\ Rev2.normalizeMonthlyBurn Sample.offline (js " ") Sample.w0
     = (Ok (VObj [(js "monthly_burn", VNull)]), Sample.w0)
  /\ Rev2.extractLastRoundValuation Sample.offline (js " ") Sample.w0
     = (Ok (VObj [(js "last_round_valuation", VNull)]), Sample.w0).
Proof.
  apply (blank_text_skips_single_field_stages Sample.offline (js " ") [] Sample.w0).
  repeat constructor.
Defined.

(** The result of a stage that copies one property of the reply. *)
Lemma one_key_result (pf : Platform) (p : Prompt) (s : Schema) (n k : jsstring)
    (w : World) (v : value) :
  fst ((let* result := callOpenAIStructured pf p s n in
        let* x := lift (get_prop result k) in
        ret (VObj [(k, x)])) w) = Ok v ->
  exists x, v = VObj [(k, x)].
Proof.
  unfold bind at 1. destruct (callOpenAIStructured pf p s n w) as [[result|e] w1].
  - run. destruct (get_prop result k) as [x|e]; cbn; [|discriminate].
    intros H. injection H as <-. exists x. reflexivity.
  - cbn. discriminate.
Qed.

(** X6. Whatever the classifier replies, a single-field stage that returns
    hands on an object with exactly one key, its own field: every other
    property of the reply is dropped. Both revisions. *)
Theorem single_field_stages_return_one_key (pf : Platform) (text : jsstring)
    (context : list (jsstring * jsstring)) (w : World) :
  (forall v, fst (Rev1.convertChurnToAnnual pf text w) = Ok v ->
     exists x, v = VObj [(js "logo_churn_annual", x)])
  /\ (forall v, fst (Rev1.normalizeMonthlyBurn pf text w) = Ok v ->
        exists x, v = VObj [(js "monthly_burn", x)])
  /\ (forall v, fst (Rev1.extractLastRoundValuation pf text context w) = Ok v ->
        exists x, v = VObj [(js "last_round_valuation", x)])
  /\ (forall v, fst (Rev2.convertChurnToAnnual pf text w) = Ok v ->
        exists x, v = VObj [(js "logo_churn_annual", x)])
  /\ (forall v, fst (Rev2.normalizeMonthlyBurn pf text w) = Ok v ->
        exists x, v = VObj [(js "monthly_burn", x)])
  /\ (forall v, fst (Rev2.extractLastRoundValuation pf text w) = Ok v ->
        exists x, v = VObj [(js "last_round_valuation", x)]).
Proof.
  unfold Rev1.convertChurnToAnnual, Rev1.normalizeMonthlyBurn,
    Rev1.extractLastRoundValuation, Rev2.convertChurnToAnnual,
    Rev2.normalizeMonthlyBurn, Rev2.extractLastRoundValuation.
  destruct (is_blank text);
    repeat split; intros v H;
    first [ injection H as <-; eexists; reflexivity
          | eapply one_key_result; exact H ].
Qed.

(** ** The requests of a run *)

Section InOrder.
Context {A B : Type}.

Lemma in_order_quiet (m : M A) :
  (forall w, fetched (snd (m w)) = fetched w) -> sends_in_order m [].
Proof.
  intros H w. rewrite H. split.
  - exists 0. rewrite app_nil_r. reflexivity.
  - intros _. rewrite app_nil_r. reflexivity.
Qed.

Lemma in_order_bind (m : M A) (k : A -> M B) (l1 l2 : list Request) :
  sends_in_order m l1 -> (forall a, sends_in_order (k a) l2) ->
  sends_in_order (bind m k) (l1 ++ l2).
Proof.
  intros Hm Hk w. specialize (Hm w). unfold bind.
  destruct (m w) as [[a|e] w1]; cbn [fst snd is_ok] in *.
  - destruct Hm as [_ Hm]. specialize (Hm eq_refl).
    destruct (Hk a w1) as [[n Hn] Hall]. rewrite Hm in *. split.
    + exists (length l1 + n). rewrite Hn, <- app_assoc. f_equal.
      rewrite firstn_app, (firstn_all2 l1) by lia. f_equal. f_equal. lia.
    + intros Hok. rewrite (Hall Hok), app_assoc. reflexivity.
  - destruct Hm as [[n Hn] _]. split; [|discriminate].
    exists (Nat.min n (length l1)). rewrite Hn. f_equal.
    rewrite firstn_app. replace (Nat.min n (length l1) - length l1) with 0 by lia.
    rewrite firstn_O, app_nil_r.
    destruct (Nat.le_ge_cases n (length l1)).
    + rewrite Nat.min_l by lia. reflexivity.
    + rewrite Nat.min_r by lia. rewrite !firstn_all2 by lia. reflexivity.
Qed.

(** A step that always returns [a] and has no effect. *)
Lemma in_order_after (m : M A) (a : A) (k : A -> M B) (l : list Request) :
  (forall w, m w = (Ok a, w)) -> sends_in_order (k a) l ->
  sends_in_order (bind m k) l.
Proof. intros Hm Hk w. unfold bind. rewrite Hm. apply Hk. Qed.

Lemma in_order_rethrow (m : M A) (t : string) (a : exn -> list logarg)
    (l : list Request) :
  sends_in_order m l ->
  sends_in_order (try_catch m (fun error => log t (a error) ;; throw error)) l.
Proof.
  intros Hm w. specialize (Hm w). unfold try_catch.
  destruct (m w) as [[x|e] w1]; [exact Hm|]. exact Hm.
Qed.

Lemma in_order_if (b : bool) (m1 m2 : M A) (l1 l2 : list Request) :
  sends_in_order m1 l1 -> sends_in_order m2 l2 ->
  sends_in_order (if b then m1 else m2) (if b then l1 else l2).
Proof. destruct b; auto. Qed.

End InOrder.

Lemma in_order_call (pf : Platform) (p : Prompt) (s : Schema) (n : jsstring) :
  sends_in_order (callOpenAIStructured pf p s n) [mkRequest p n s].
Proof.
  intros w. destruct (call_sends pf p s n w) as [H _]. split; [exists 1|]; auto.
Qed.

Lemma in_order_log (t : string) (a : list logarg) : sends_in_order (log t a) [].
Proof. apply in_order_quiet. reflexivity. Qed.

Lemma in_order_ret {A} (a : A) : sends_in_order (ret a) [].
Proof. apply in_order_quiet. reflexivity. Qed.

Lemma in_order_lift {A} (o : outcome A) : sends_in_order (lift o) [].
Proof. apply in_order_quiet. reflexivity. Qed.

Lemma assemble1_quiet (pf : Platform) (docId : jsstring) (a1 a2 a3 a4 a5 a6 a7 : value)
    (w : World) :
  fetched (snd (Rev1.assembleCompleteRecord pf docId a1 a2 a3 a4 a5 a6 a7 w)) = fetched w.
Proof.
  unfold Rev1.assembleCompleteRecord. run. repeat (break_match; run); reflexivity.
Qed.

Lemma assemble2_quiet (pf : Platform) (docId : jsstring) (a2 a3 a4 a5 a6 a7 : value)
    (w : World) :
  fetched (snd (Rev2.assembleCompleteRecord pf docId a2 a3 a4 a5 a6 a7 w)) = fetched w.
Proof.
  unfold Rev2.assembleCompleteRecord. run. repeat (break_match; run); reflexivity.
Qed.

Ltac in_order_step :=
  first
    [ apply in_order_call
    | apply in_order_ret
    | apply in_order_lift
    | apply in_order_log
    | apply in_order_quiet; intros ?; apply assemble1_quiet
    | apply in_order_quiet; intros ?; apply assemble2_quiet
    | apply in_order_rethrow
    | apply in_order_if
    | eapply in_order_bind; [| intros ?]
    | progress cbv zeta ].

Lemma in_order_rev2 (pf : Platform) (docId docText : jsstring) :
  getText pf docId = Ok docText ->
  sends_in_order (Rev2.parseCompanyFromDoc pf docId) (rev2_requests docText).
Proof.
  intros Ht.
  assert (H : exists l, sends_in_order (Rev2.parseCompanyFromDoc pf docId) l
                        /\ l = rev2_requests docText).
  { eexists. split.
    - unfold Rev2.parseCompanyFromDoc. rewrite Ht.
      apply in_order_rethrow. eapply in_order_bind; [apply in_order_log|intros _].
      apply (in_order_after _ docText); [reflexivity|].
      unfold Rev2.parseSimpleFieldsBatch, Rev2.analyzeACVComplexity,
        Rev2.analyzeCustomerComplexity, Rev2.convertChurnToAnnual,
        Rev2.normalizeMonthlyBurn, Rev2.extractLastRoundValuation.
      repeat in_order_step.
    - unfold rev2_requests. destruct (is_blank docText); reflexivity. }
  destruct H as (l & H & ->). exact H.
Qed.

(** X7. A run of the second revision on a document that can be read sends
    its requests in a fixed order: the simple fields, then ACV, customers,
    churn, burn and valuation, each with the whole text of the document, and
    only the first when the text is blank. A run that fails has sent a
    prefix of them; a run that returns has sent them all, once each. When
    the document cannot be read the run fails without any request. *)
Theorem rev2_requests_in_order (pf : Platform) (docId : jsstring) (w : World) :
  match getText pf docId with
  | Ok docText =>
      (exists n, fetched (snd (Rev2.parseCompanyFromDoc pf docId w))
                 = fetched w ++ firstn n (rev2_requests docText))
      /\ (is_ok (fst (Rev2.parseCompanyFromDoc pf docId w)) = true ->
          fetched (snd (Rev2.parseCompanyFromDoc pf docId w))
          = fetched w ++ rev2_requests docText)
  | Throw e =>
      fst (Rev2.parseCompanyFromDoc pf docId w) = Throw e
      /\ fetched (snd (Rev2.parseCompanyFromDoc pf docId w)) = fetched w
  end.
Proof.
  destruct (getText pf docId) as [docText|e] eqn:Ht.
  - apply (in_order_rev2 pf docId docText Ht w).
  - unfold Rev2.parseCompanyFromDoc. rewrite Ht. split; reflexivity.
Qed.

Lemma extract_run (pf : Platform) (docId text : jsstring) (w : World) :
  getText pf docId = Ok text ->
  Rev1.extractRawFieldsFromDoc pf docId w
  = (Ok (map (Rev1.extract_field text) Rev1.fieldPatterns), w).
Proof. intros H. unfold Rev1.extractRawFieldsFromDoc. rewrite H. reflexivity. Qed.

Lemma in_order_rev1 (pf : Platform) (docId text : jsstring) :
  getText pf docId = Ok text ->
  exists calls,
    sends_in_order (Rev1.parseCompanyFromDoc pf docId) calls
    /\ map schemaName calls = rev1_stage_names text.
Proof.
  intros Ht. eexists. split.
  - unfold Rev1.parseCompanyFromDoc.
    apply in_order_rethrow. eapply in_order_bind; [apply in_order_log|intros _].
    apply (in_order_after _ (map (Rev1.extract_field text) Rev1.fieldPatterns));
      [intros w; apply extract_run, Ht|].
    unfold Rev1.parseSimpleFieldsBatch, Rev1.analyzeACVComplexity,
      Rev1.analyzeCustomerComplexity, Rev1.convertChurnToAnnual,
      Rev1.normalizeMonthlyBurn, Rev1.extractLastRoundValuation.
    repeat in_order_step.
  - unfold rev1_stage_names. cbv zeta.
    repeat match goal with
           | |- context [is_blank ?t] =>
               let b := fresh "b" in generalize (is_blank t); intros b
           end.
    repeat match goal with b : bool |- _ => destruct b end; reflexivity.
Qed.

(** X8. A run of the first revision on a document that can be read sends
    the request for the simple fields and then, in the order ACV, customers,
    churn, burn, valuation, one request for each stage whose raw field is
    not blank. A run that fails has sent a prefix of these requests; a run
    that returns has sent them all, once each. When the document cannot be
    read the run fails without any request. *)
Theorem rev1_requests_in_order (pf : Platform) (docId : jsstring) (w : World) :
  match getText pf docId with
  | Ok text =>
      exists calls,
        map schemaName calls = rev1_stage_names text
        /\ (exists n, fetched (snd (Rev1.parseCompanyFromDoc pf docId w))
                      = fetched w ++ firstn n calls)
        /\ (is_ok (fst (Rev1.parseCompanyFromDoc pf docId w)) = true ->
            fetched (snd (Rev1.parseCompanyFromDoc pf docId w)) = fetched w ++ calls)
  | Throw e =>
      fst (Rev1.parseCompanyFromDoc pf docId w) = Throw e
      /\ fetched (snd (Rev1.parseCompanyFromDoc pf docId w)) = fetched w
  end.
Proof.
  destruct (getText pf docId) as [text|e] eqn:Ht.
  - destruct (in_order_rev1 pf docId text Ht) as (calls & H & Hn).
    exists calls. split; [exact Hn|]. apply H.
  - unfold Rev1.parseCompanyFromDoc, Rev1.extractRawFieldsFromDoc. run.
    rewrite Ht. split; reflexivity.
Qed.

(** ** The record of a run *)

(** The first four properties of an assembled record. *)
Lemma assembled1 (pf : Platform) (docId : jsstring)
    (rawFields simpleFields acvData customerData churnData burnData valuationData : value)
    (w w' : World) (record : object) :
  Rev1.assembleCompleteRecord pf docId rawFields simpleFields acvData customerData
    churnData burnData valuationData w = (Ok record, w') ->
  exists name rest,
    get_prop rawFields (js "Company Name") = Ok name
    /\ record = [(js "id", VStr (uuid_at pf (uuids w)));
                 (js "company_name", or_null name);
                 (js "doc_url", VStr (js "https://docs.google.com/document/d/" ++ docId));
                 (js "date_created", VStr (iso_at pf (ticks w)))] ++ rest.
Proof.
  unfold Rev1.assembleCompleteRecord. intros H. cbv zeta in H.
  apply bind_ok in H as (id & w1 & Hid & H).
  apply bind_ok in H as (name & w2 & Hname & H).
  apply bind_ok in H as (now & w3 & Hnow & H).
  apply bind_ok in H as (rest & w4 & Hrest & H).
  apply ret_ok in H as [-> _]. apply lift_ok in Hname as [Hname ->].
  unfold getUuid in Hid. injection Hid as <- <-.
  unfold nowISO in Hnow. injection Hnow as <- _.
  exists name, rest. split; [exact Hname|reflexivity].
Qed.

(** X9. In the first revision the name and the document link of a record do
    not come from the classifier: the name is the raw field read after the
    label "Company Name:" of the document, [null] when that field is empty,
    and the link is the fixed prefix followed by the document id. *)
Theorem rev1_name_comes_from_document (pf : Platform) (docId : jsstring) (w : World)
    (record : object) :
  fst (Rev1.parseCompanyFromDoc pf docId w) = Ok record ->
  exists text,
    getText pf docId = Ok text
    /\ prop record "company_name"
       = or_null (VStr (snd (Rev1.extract_field text "Company Name")))
    /\ prop record "doc_url"
       = VStr (js "https://docs.google.com/document/d/" ++ docId).
Proof.
  destruct (Rev1.parseCompanyFromDoc pf docId w) as [o w'] eqn:E. cbn [fst].
  intros ->. unfold Rev1.parseCompanyFromDoc in E. returned E.
  apply ret_ok in E as [-> _].
  destruct (getText pf docId) as [text|e] eqn:Ht.
  - match goal with
    | H : Rev1.extractRawFieldsFromDoc _ _ _ = _ |- _ =>
        rewrite (extract_run pf docId text _ Ht) in H; injection H as <- _
    end.
    exists text. split; [reflexivity|].
    match goal with
    | H : Rev1.assembleCompleteRecord _ _ _ _ _ _ _ _ _ _ = _ |- _ =>
        apply assembled1 in H as (name & rest & Hname & ->)
    end.
    cbn in Hname. injection Hname as <-. split; reflexivity.
  - match goal with
    | H : Rev1.extractRawFieldsFromDoc _ _ _ = _ |- _ =>
        unfold Rev1.extractRawFieldsFromDoc in H; rewrite Ht in H; discriminate
    end.
Qed.

Lemma rev1_name_comes_from_document_witness :
  let pf := Sample.stage_platform Sample.simple_reply Sample.primary_only_reply
              Sample.customer_reply Sample.churn_reply Sample.burn_reply
              Sample.valuation_reply Sample.acme_doc in
  exists record,
    fst (Rev1.parseCompanyFromDoc pf (js "doc1") Sample.w0) = Ok record
    /\ exists text,
         getText pf (js "doc1") = Ok text
         /\ prop record "company_name"
            = or_null (VStr (snd (Rev1.extract_field text "Company Name")))
         /\ prop record "doc_url"
            = VStr (js "https://docs.google.com/document/d/" ++ js "doc1").
Proof.
  intros pf. eexists. split.
  - vm_compute. reflexivity.
  - apply (rev1_name_comes_from_document pf (js "doc1") Sample.w0).
    vm_compute. reflexivity.
Defined.

Lemma read_props_value (entries : list (string * value)) (rest : object)
    (k : string) (o : object) :
  read_props entries = Ok rest ->
  lookup_prop (js k) rest
  = option_map (fun e => match snd e with
                         | VObj o => obj_get o (js k)
                         | _ => VUndef
                         end)
               (List.find (fun e => str_eqb (js k) (js (fst e))) entries).
Proof.
  revert rest. induction entries as [|[k' src] entries IH]; intros rest; simpl.
  - intros H. injection H as <-. reflexivity.
  - destruct (get_prop src (js k')) as [v|e] eqn:Hv; [|discriminate].
    destruct (read_props entries) as [rest'|e]; [|discriminate].
    intros H. injection H as <-. simpl.
    destruct (str_eqb (js k) (js k')) eqn:Hk.
    + apply str_eqb_true in Hk. rewrite <- Hk in Hv. simpl.
      destruct src; simpl in Hv; try discriminate; injection Hv as <-; reflexivity.
    + apply IH. reflexivity.
Qed.

(** X10. A run of the second revision on a document whose text is blank
    returns, when it returns, a record whose seven analysed metrics are all
    [null], whatever the classifier answers to the one request that is
    sent. *)
Theorem blank_document_yields_null_metrics (pf : Platform) (docId docText : jsstring)
    (w : World) (record : object) :
  getText pf docId = Ok docText ->
  Forall (fun c => is_whitespace c = true) docText ->
  fst (Rev2.parseCompanyFromDoc pf docId w) = Ok record ->
  Forall (fun k => prop record k = VNull)
    ["monthly_burn"; "last_round_valuation"; "acv"; "acv_2"; "customer_count";
     "customer_count_2"; "logo_churn_annual"].
Proof.
  intros Ht Hb. apply is_blank_whitespace in Hb.
  destruct (Rev2.parseCompanyFromDoc pf docId w) as [o w'] eqn:E. cbn [fst].
  intros ->. unfold Rev2.parseCompanyFromDoc in E. rewrite Ht in E.
  unfold Rev2.analyzeACVComplexity, Rev2.analyzeCustomerComplexity,
    Rev2.convertChurnToAnnual, Rev2.normalizeMonthlyBurn,
    Rev2.extractLastRoundValuation in E.
  returned E.
  repeat match goal with
         | H : lift _ _ = (Ok _, _) |- _ => apply lift_ok in H as [H ->]
         | H : Ok _ = Ok _ |- _ => injection H as <-
         end.
  rewrite Hb in *.
  repeat match goal with
         | H : ret _ _ = (Ok _, _) |- _ => apply ret_ok in H as [-> ->]
         end.
  match goal with
  | H : Rev2.assembleCompleteRecord _ _ _ _ _ _ _ _ _ = _ |- _ =>
      unfold Rev2.assembleCompleteRecord in H; cbv zeta in H; returned H;
      apply ret_ok in H as [-> _]
  end.
  match goal with
  | H : lift (read_props _) _ = _ |- _ => apply lift_ok in H as [H _];
      pose proof (fun k => read_props_value _ _ k [] H) as Hrest
  end.
  repeat constructor; unfold prop, obj_get; cbn [lookup_prop app];
    repeat match goal with
           | |- context [str_eqb (js ?a) (js ?b)] =>
               let r := eval vm_compute in (str_eqb (js a) (js b)) in
               change (str_eqb (js a) (js b)) with r; cbv iota
           end;
    rewrite Hrest; vm_compute; reflexivity.
Qed.

Lemma blank_document_yields_null_metrics_witness :
  let pf := Sample.stage_platform Sample.simple_reply Sample.primary_only_reply
              Sample.customer_reply Sample.churn_reply Sample.burn_reply
              Sample.valuation_reply (js " ") in
  exists record,
    fst (Rev2.parseCompanyFromDoc pf (js "doc1") Sample.w0) = Ok record
    /\ Forall (fun k => prop record k = VNull)
         ["monthly_burn"; "last_round_valuation"; "acv"; "acv_2"; "customer_count";
          "customer_count_2"; "logo_churn_annual"].
Proof.
  intros pf. eexists. split.
  - vm_compute. reflexivity.
  - apply (blank_document_yields_null_metrics pf (js "doc1") (js " ") Sample.w0).
    + reflexivity.
    + repeat constructor.
    + vm_compute. reflexivity.
Defined.

(** ** The sheet: headers and rows *)

Lemma last_pos_positive {X} (has : X -> bool) (d : X) (l : list X) (n : nat) :
  has d = false -> has (nth n l d) = true -> last_pos has l <> 0.
Proof.
  intros Hd Hn H0. rewrite (last_pos_beyond has d Hd l n) in Hn; [discriminate|lia].
Qed.

Lemma lastColumn_covers (g : list (list value)) (r : nat) :
  last_pos (fun v => negb (cell_blank v)) (nth r g []) <= lastColumn g.
Proof.
  revert r. induction g as [|row g IH]; intros r.
  - rewrite nth_nil. cbn. lia.
  - unfold lastColumn. cbn [fold_right]. fold (lastColumn g).
    destruct r as [|r]; cbn [nth]; [lia|]. specialize (IH r). lia.
Qed.

Lemma content_has_column (r : list value) :
  row_has_content r = true -> last_pos (fun v => negb (cell_blank v)) r <> 0.
Proof.
  unfold row_has_content. intros H. apply existsb_exists in H as (v & Hin & Hv).
  apply (In_nth _ _ empty_cell) in Hin as (n & _ & <-).
  eapply (last_pos_positive _ empty_cell); [reflexivity|exact Hv].
Qed.

(** A sheet with a row that has content has a column that has content. *)
Lemma rows_have_columns (g : list (list value)) : lastRow g <> 0 -> lastColumn g <> 0.
Proof.
  intros H. pose proof (last_pos_last row_has_content [] g H) as Hr.
  apply content_has_column in Hr. fold (lastRow g) in Hr.
  pose proof (lastColumn_covers g (lastRow g - 1)). lia.
Qed.

Lemma no_rows_no_columns (g : list (list value)) : lastRow g = 0 -> lastColumn g = 0.
Proof.
  intros H. unfold lastColumn. induction g as [|row g IH]; [reflexivity|].
  cbn [fold_right].
  assert (Hrow : row_has_content row = false).
  { apply (last_pos_beyond row_has_content [] eq_refl (row :: g) 0). unfold lastRow in H. lia. }
  assert (Hg : lastRow g = 0).
  { unfold lastRow in *. cbn [last_pos] in H. destruct (last_pos row_has_content g); [reflexivity|discriminate]. }
  rewrite (IH Hg), (no_content_no_column _ Hrow). reflexivity.
Qed.

Lemma map_nth_seq (l : list value) :
  map (fun j => nth j l empty_cell) (seq 0 (length l)) = l.
Proof.
  apply (nth_ext _ _ empty_cell empty_cell).
  - rewrite length_map, length_seq. reflexivity.
  - intros n Hn. rewrite length_map, length_seq in Hn.
    rewrite (nth_map_seq (fun j => nth j l empty_cell)) by exact Hn. reflexivity.
Qed.

Lemma last_pos_all (vals old : list value) :
  vals <> [] -> Forall (fun v => nonblank v = true) vals ->
  row_has_content old = false ->
  last_pos (fun v => negb (cell_blank v)) (write_cells 0 vals old) = length vals.
Proof.
  intros Hne Hall Hold.
  apply (last_pos_unique (fun v => negb (cell_blank v)) empty_cell eq_refl).
  - intros _. rewrite nth_write_cells.
    assert (Hlt : length vals - 1 < length vals) by (destruct vals; [contradiction|cbn; lia]).
    apply Nat.ltb_lt in Hlt as Hb. rewrite Hb.
    rewrite List.Forall_forall in Hall. apply Hall, nth_In. exact Hlt.
  - intros n Hn. rewrite nth_write_cells.
    assert (Hb : (n <? length vals) = false) by (apply Nat.ltb_ge; exact Hn).
    rewrite Hb, (row_without_content old n Hold). reflexivity.
Qed.

(** X11. Headers written by [setHeaders] into a sheet without content are
    read back by [getHeaders]: the row of the stored header values, in
    order, when no stored header is blank; the first row is then frozen. *)
Theorem headers_round_trip (pf : Platform) (headers : list value) (w : World) (s : Sheet) :
  book w = Some s -> lastRow (grid s) = 0 -> headers <> [] ->
  Forall (fun h => nonblank (stored pf h) = true) headers ->
  exists w1,
    SaveToDb.setHeaders pf headers w = (Ok tt, w1)
    /\ SaveToDb.getHeaders w1 = (Ok (map (stored pf) headers), w1)
    /\ option_map frozenRows (book w1) = Some 1.
Proof.
  intros Hb H0 Hne Hall.
  destruct (setHeaders_run pf headers w s Hb Hne) as (w1 & E & Hb1).
  exists w1. split; [exact E|]. split; [|rewrite Hb1; reflexivity].
  set (vals := map (stored pf) headers) in *.
  set (g1 := write_row 0 0 vals (grid s)) in *.
  assert (Hvals : vals <> []) by (subst vals; destruct headers; [contradiction|discriminate]).
  assert (Hnb : Forall (fun v => nonblank v = true) vals).
  { subst vals. apply List.Forall_map. exact Hall. }
  assert (Hold : row_has_content (nth 0 (grid s) []) = false).
  { apply (last_pos_beyond row_has_content [] eq_refl). unfold lastRow in H0. lia. }
  assert (Hcol : lastColumn g1 = length vals).
  { subst g1. rewrite lastColumn_write_row by (apply no_content_no_column, Hold).
    rewrite (no_rows_no_columns _ H0), (last_pos_all _ _ Hvals Hnb Hold). reflexivity. }
  assert (Hrow : lastRow g1 <> 0).
  { apply (last_pos_positive row_has_content [] _ 0 eq_refl).
    subst g1. rewrite nth_write_row. cbn [Nat.eqb].
    destruct (row_has_content (write_cells 0 vals (nth 0 (grid s) []))) eqn:Hc; [reflexivity|].
    apply no_content_no_column in Hc. rewrite (last_pos_all _ _ Hvals Hnb Hold) in Hc.
    destruct vals; [contradiction|discriminate]. }
  rewrite (getHeaders_run w1 _ Hb1 Hrow) by (cbn [grid]; rewrite Hcol; destruct vals; [contradiction|discriminate]).
  f_equal. f_equal. unfold header_row. cbn [grid]. rewrite Hcol.
  rewrite <- (map_nth_seq vals) at 2. apply map_ext_in. intros j Hj.
  apply in_seq in Hj. subst g1. rewrite cell_at_write_row by lia.
  replace (1 + j - 1) with j by lia. cbn [Nat.sub Nat.eqb andb].
  assert (Hb' : (j <? length vals) = true) by (apply Nat.ltb_lt; lia).
  rewrite Hb'. reflexivity.
Qed.

Lemma headers_round_trip_witness :
  exists w1,
    SaveToDb.setHeaders Sample.offline [VStr (js "id"); VStr (js "company_name")]
      (mkWorld [] 0 0 [] (Some (mkSheet [] 0))) = (Ok tt, w1)
    /\ SaveToDb.getHeaders w1
       = (Ok (map (stored Sample.offline) [VStr (js "id"); VStr (js "company_name")]), w1)
    /\ option_map frozenRows (book w1) = Some 1.
Proof.
  apply (headers_round_trip Sample.offline [VStr (js "id"); VStr (js "company_name")]
           (mkWorld [] 0 0 [] (Some (mkSheet [] 0))) (mkSheet [] 0)).
  - reflexivity.
  - reflexivity.
  - discriminate.
  - repeat constructor.
Defined.

Lemma lastRow_after_append (vals : list value) (g : list (list value)) :
  row_has_content vals = true ->
  lastRow (write_row (lastRow g) 0 vals g) = S (lastRow g).
Proof.
  intros Hc. unfold lastRow at 1.
  apply (last_pos_unique row_has_content [] eq_refl).
  - intros _. replace (S (lastRow g) - 1) with (lastRow g) by lia.
    rewrite nth_write_row, Nat.eqb_refl. cbn [write_cells].
    unfold row_has_content in *. rewrite existsb_app, Hc. reflexivity.
  - intros n Hn. rewrite nth_write_row.
    assert (Hb : (n =? lastRow g) = false) by (apply Nat.eqb_neq; lia).
    rewrite Hb. apply (last_pos_beyond row_has_content [] eq_refl). unfold lastRow in Hn. lia.
Qed.

(** X12. Without a column headed "id" in the first row the save has nothing
    to match on: it appends. Saving the same record twice into such a sheet
    succeeds twice and leaves two rows, one below the other, when the row
    written for the record is not blank. *)
Theorem save_without_id_column_appends_again (pf : Platform) (companyRecord : object)
    (w : World) (s : Sheet) :
  configured pf -> book w = Some s -> lastRow (grid s) <> 0 ->
  indexOf (header_row (grid s)) (VStr (js "id")) = None ->
  row_has_content (new_row pf companyRecord (grid s)) = true ->
  exists w1 s1 s2,
    SaveToDb.saveCompanyRecord pf companyRecord w = (Ok tt, w1)
    /\ book w1 = Some s1
    /\ grid s1 = write_row (lastRow (grid s)) 0 (new_row pf companyRecord (grid s)) (grid s)
    /\ lastRow (grid s1) = S (lastRow (grid s))
    /\ ends (SaveToDb.saveCompanyRecord pf companyRecord) w1 (Ok tt) (Some s2)
    /\ grid s2 = write_row (S (lastRow (grid s))) 0 (new_row pf companyRecord (grid s))
                   (grid s1)
    /\ lastRow (grid s2) = S (S (lastRow (grid s))).
Proof.
  intros Hc Hb Hrows Hid Hrow.
  assert (Hh : header_row (grid s) <> []).
  { unfold header_row. pose proof (rows_have_columns _ Hrows).
    destruct (lastColumn (grid s)); [contradiction|discriminate]. }
  destruct (save_with_headers pf companyRecord w s Hc Hb Hrows Hh) as (w1 & E1 & Hb1).
  rewrite Hid in Hb1.
  set (g1 := write_row (lastRow (grid s)) 0 (new_row pf companyRecord (grid s)) (grid s)) in *.
  assert (Hl1 : lastRow g1 = S (lastRow (grid s))) by (apply lastRow_after_append, Hrow).
  assert (Hh1 : header_row g1 = header_row (grid s)) by (apply append_keeps_headers, Hrows).
  assert (Hn1 : new_row pf companyRecord g1 = new_row pf companyRecord (grid s)).
  { unfold new_row. rewrite Hh1. reflexivity. }
  assert (Hr1 : lastRow g1 <> 0) by lia.
  assert (Hhh : header_row g1 <> []) by (rewrite Hh1; exact Hh).
  pose proof (save_with_headers pf companyRecord w1 (mkSheet g1 (frozenRows s))
                Hc Hb1 Hr1 Hhh) as E2.
  cbn [grid frozenRows] in E2. rewrite Hh1, Hid, Hn1, Hl1 in E2.
  exists w1, (mkSheet g1 (frozenRows s)),
    (mkSheet (write_row (S (lastRow (grid s))) 0 (new_row pf companyRecord (grid s)) g1)
             (frozenRows s)).
  repeat split; try assumption; cbn [grid]; try reflexivity.
  rewrite <- Hl1. apply lastRow_after_append, Hrow.
Qed.

Lemma save_without_id_column_appends_again_witness :
  let w := mkWorld [] 0 0 [] (Some (mkSheet [[VStr (js "company_name")]] 1)) in
  exists w1 s1 s2,
    SaveToDb.saveCompanyRecord Sample.offline Sample.renamed_record w = (Ok tt, w1)
    /\ book w1 = Some s1
    /\ grid s1 = write_row 1 0 [VStr (js "Acme Inc")] [[VStr (js "company_name")]]
    /\ lastRow (grid s1) = 2
    /\ ends (SaveToDb.saveCompanyRecord Sample.offline Sample.renamed_record) w1 (Ok tt)
         (Some s2)
    /\ grid s2 = write_row 2 0 [VStr (js "Acme Inc")] (grid s1)
    /\ lastRow (grid s2) = 3.
Proof.
  intros w.
  apply (save_without_id_column_appends_again Sample.offline Sample.renamed_record w
           (mkSheet [[VStr (js "company_name")]] 1)).
  - reflexivity.
  - reflexivity.
  - discriminate.
  - reflexivity.
  - reflexivity.
Defined.

(** X13. What a save writes depends only on the values of the record under
    the keys that head a column: two records that agree on these keys leave
    the same sheet and end alike. A property of the record that heads no
    column is never written. *)
Theorem save_reads_only_header_keys (pf : Platform) (r1 r2 : object) (w : World)
    (s : Sheet) :
  configured pf -> book w = Some s -> lastRow (grid s) <> 0 ->
  (forall h, In h (header_row (grid s)) ->
     obj_get r1 (SaveToDb.to_key pf h) = obj_get r2 (SaveToDb.to_key pf h)) ->
  fst (SaveToDb.saveCompanyRecord pf r1 w) = fst (SaveToDb.saveCompanyRecord pf r2 w)
  /\ book (snd (SaveToDb.saveCompanyRecord pf r1 w))
     = book (snd (SaveToDb.saveCompanyRecord pf r2 w)).
Proof.
  intros Hc Hb Hrows Hagree.
  assert (Hh : header_row (grid s) <> []).
  { unfold header_row. pose proof (rows_have_columns _ Hrows).
    destruct (lastColumn (grid s)); [contradiction|discriminate]. }
  destruct (save_with_headers pf r1 w s Hc Hb Hrows Hh) as (w1 & E1 & Hb1).
  destruct (save_with_headers pf r2 w s Hc Hb Hrows Hh) as (w2 & E2 & Hb2).
  rewrite E1, E2. cbn [fst snd]. split; [reflexivity|]. rewrite Hb1, Hb2.
  assert (Hrow : new_row pf r1 (grid s) = new_row pf r2 (grid s)).
  { unfold new_row. f_equal. apply map_ext_in. intros h Hin.
    unfold SaveToDb.row_entry. rewrite (Hagree h Hin). reflexivity. }
  rewrite Hrow.
  destruct (indexOf (header_row (grid s)) (VStr (js "id"))) as [i|] eqn:Hi; [|reflexivity].
  apply indexOf_Some in Hi as (Hlt & Heq & _). apply strict_eq_str in Heq.
  assert (Hin : In (VStr (js "id")) (header_row (grid s))).
  { rewrite <- Heq. apply nth_In. exact Hlt. }
  specialize (Hagree _ Hin). cbn [SaveToDb.to_key] in Hagree.
  unfold prop. rewrite Hagree. reflexivity.
Qed.

Lemma save_reads_only_header_keys_witness :
  let w := mkWorld [] 0 0 [] (Some Sample.one_record_sheet) in
  let more := Sample.renamed_record ++ [(js "acv", VNum 5000)] in
  fst (SaveToDb.saveCompanyRecord Sample.offline Sample.renamed_record w)
    = fst (SaveToDb.saveCompanyRecord Sample.offline more w)
  /\ book (snd (SaveToDb.saveCompanyRecord Sample.offline Sample.renamed_record w))
     = book (snd (SaveToDb.saveCompanyRecord Sample.offline more w)).
Proof.
  intros w more.
  apply (save_reads_only_header_keys Sample.offline Sample.renamed_record more w
           Sample.one_record_sheet).
  - reflexivity.
  - reflexivity.
  - discriminate.
  - intros h Hin. vm_compute in Hin. destruct Hin as [<-|[<-|[]]]; reflexivity.
Defined.

(** The save of a record with at least one key into a sheet without
    content: the header row is written, then the save throws. *)
Lemma save_into_empty_sheet (pf : Platform) (companyRecord : object) (w : World) :
  configured pf -> companyRecord <> [] ->
  lastRow (grid (sheet_found w)) = 0 ->
  ends (SaveToDb.saveCompanyRecord pf companyRecord) w
    (Throw (TypeError "Assignment to constant variable."))
    (Some (mkSheet (write_row 0 0 (map (stored pf) (map VStr (keys companyRecord)))
                      (grid (sheet_found w))) 1)).
Proof.
  intros Hc Hne Hempty. unfold SaveToDb.saveCompanyRecord.
  rewrite (configured_set pf Hc).
  apply (ends_rethrow _ _ (fun error => [LE error])).
  eapply ends_bind_ends; [apply getOrCreateSheet_run|]. intros w1 H1.
  eapply ends_bind; [apply (getHeaders_empty w1 _ H1 Hempty)|].
  apply ends_bind_throw. cbn [length Nat.eqb].
  eapply ends_bind_ends.
  - apply (setHeaders_run pf _ w1 _ H1). destruct companyRecord; [contradiction|discriminate].
  - intros w2 H2. exists w2. split; [reflexivity|exact H2].
Qed.

(** The save of a record without keys into a sheet without content: the
    empty header range is refused. *)
Lemma save_nothing_into_empty_sheet (pf : Platform) (w : World) :
  configured pf -> lastRow (grid (sheet_found w)) = 0 ->
  ends (SaveToDb.saveCompanyRecord pf []) w
    (Throw (RangeError "the range has no cell or starts before row or column 1"))
    (Some (sheet_found w)).
Proof.
  intros Hc Hempty. unfold SaveToDb.saveCompanyRecord.
  rewrite (configured_set pf Hc).
  apply (ends_rethrow _ _ (fun error => [LE error])).
  eapply ends_bind_ends; [apply getOrCreateSheet_run|]. intros w1 H1.
  eapply ends_bind; [apply (getHeaders_empty w1 _ H1 Hempty)|].
  apply ends_bind_throw. cbn [length Nat.eqb]. rewrite <- H1.
  apply ends_bind_throw. apply setHeaders_empty.
Qed.

(** X14. With SPREADSHEET_ID set, [saveCompanyRecord] succeeds exactly when
    the sheet it finds has a row with content, whatever the record holds:
    on a sheet without content, or not yet created, every save throws. In
    both cases the sheet exists afterwards. *)
Theorem save_succeeds_iff_sheet_has_content (pf : Platform) (companyRecord : object)
    (w : World) :
  configured pf ->
  is_ok (fst (SaveToDb.saveCompanyRecord pf companyRecord w))
    = negb (lastRow (grid (sheet_found w)) =? 0)
  /\ exists s, book (snd (SaveToDb.saveCompanyRecord pf companyRecord w)) = Some s.
Proof.
  intros Hc. destruct (lastRow (grid (sheet_found w))) as [|n] eqn:Hrows.
  - destruct companyRecord as [|kv rest].
    + destruct (save_nothing_into_empty_sheet pf w Hc Hrows) as (w' & E & Hb).
      rewrite E. cbn. eauto.
    + destruct (save_into_empty_sheet pf (kv :: rest) w Hc) as (w' & E & Hb);
        [discriminate|exact Hrows|].
      rewrite E. cbn. eauto.
  - destruct (book w) as [s|] eqn:Hb; [|unfold sheet_found in Hrows; rewrite Hb in Hrows; discriminate].
    assert (Hs : sheet_found w = s) by (unfold sheet_found; rewrite Hb; reflexivity).
    rewrite Hs in Hrows.
    assert (Hr : lastRow (grid s) <> 0) by (rewrite Hrows; discriminate).
    assert (Hh : header_row (grid s) <> []).
    { unfold header_row. pose proof (rows_have_columns _ Hr).
      destruct (lastColumn (grid s)); [contradiction|discriminate]. }
    destruct (save_with_headers pf companyRecord w s Hc Hb Hr Hh) as (w' & E & Hb').
    rewrite E. cbn. eauto.
Qed.

Lemma save_succeeds_iff_sheet_has_content_witness :
  is_ok (fst (SaveToDb.saveCompanyRecord Sample.offline Sample.renamed_record
                (mkWorld [] 0 0 [] (Some Sample.headers_only_sheet))))
    = negb (lastRow (grid (sheet_found (mkWorld [] 0 0 [] (Some Sample.headers_only_sheet))))
            =? 0)
  /\ exists s,
       book (snd (SaveToDb.saveCompanyRecord Sample.offline Sample.renamed_record
                    (mkWorld [] 0 0 [] (Some Sample.headers_only_sheet)))) = Some s.
Proof.
  apply (save_succeeds_iff_sheet_has_content Sample.offline Sample.renamed_record
           (mkWorld [] 0 0 [] (Some Sample.headers_only_sheet))).
  reflexivity.
Defined.

(** ** The batch driver *)

Section KeepsBook.
Context {A B : Type}.

Lemma keeps_book_bind (m : M A) (k : A -> M B) :
  keeps_book m -> (forall a, keeps_book (k a)) -> keeps_book (bind m k).
Proof.
  intros Hm Hk w. unfold bind. specialize (Hm w).
  destruct (m w) as [[a|e] w1]; cbn [snd] in *; [rewrite Hk|]; exact Hm.
Qed.

Lemma keeps_book_try (m : M A) (h : exn -> M A) :
  keeps_book m -> (forall e, keeps_book (h e)) -> keeps_book (try_catch m h).
Proof.
  intros Hm Hh w. unfold try_catch. specialize (Hm w).
  destruct (m w) as [[a|e] w1]; cbn [snd] in *; [|rewrite Hh]; exact Hm.
Qed.

End KeepsBook.

Ltac keeps_book_step :=
  first
    [ apply keeps_book_bind; [| intros ?]
    | apply keeps_book_try; [| intros ?]
    | match goal with
      | |- keeps_book (if ?b then _ else _) => destruct b
      end
    | progress cbv zeta
    | intros ?; reflexivity ].

Lemma keeps_book_call (pf : Platform) (p : Prompt) (s : Schema) (n : jsstring) :
  keeps_book (callOpenAIStructured pf p s n).
Proof. intros w. apply (call_sends pf p s n w). Qed.

Lemma keeps_book_parse1 (pf : Platform) (docId : jsstring) :
  keeps_book (Rev1.parseCompanyFromDoc pf docId).
Proof.
  unfold Rev1.parseCompanyFromDoc, Rev1.extractRawFieldsFromDoc,
    Rev1.parseSimpleFieldsBatch, Rev1.analyzeACVComplexity,
    Rev1.analyzeCustomerComplexity, Rev1.convertChurnToAnnual,
    Rev1.normalizeMonthlyBurn, Rev1.extractLastRoundValuation,
    Rev1.assembleCompleteRecord.
  repeat first [apply keeps_book_call | keeps_book_step].
Qed.

Lemma keeps_book_parse2 (pf : Platform) (docId : jsstring) :
  keeps_book (Rev2.parseCompanyFromDoc pf docId).
Proof.
  unfold Rev2.parseCompanyFromDoc,
    Rev2.parseSimpleFieldsBatch, Rev2.analyzeACVComplexity,
    Rev2.analyzeCustomerComplexity, Rev2.convertChurnToAnnual,
    Rev2.normalizeMonthlyBurn, Rev2.extractLastRoundValuation,
    Rev2.assembleCompleteRecord.
  repeat first [apply keeps_book_call | keeps_book_step].
Qed.

Section Unconfigured.
Variable pf : Platform.
Variable parse : jsstring -> M object.
Hypothesis no_id : property_set (SaveToDb.SPREADSHEET_ID pf) = false.
Hypothesis parse_keeps : forall docId, keeps_book (parse docId).

Lemma unconfigured_file (file : File) (counts : nat * nat) (w : World) :
  exists counts' w',
    Main.process_file pf parse file counts w = (Ok counts', w')
    /\ fst counts' = fst counts /\ book w' = book w.
Proof.
  unfold Main.process_file. rewrite bind_log.
  set (w0 := snd (log "-- Found document" [LS (file_name file); LS (file_id file)] w)).
  assert (H0 : book w0 = book w) by reflexivity.
  pose proof (parse_keeps (file_id file) w0) as Hp.
  unfold try_catch at 1. unfold bind at 1.
  destruct (parse (file_id file) w0) as [[companyRecord|e] w1]; cbn [snd] in Hp.
  - cbn [truthy andb]. destruct (truthy (prop companyRecord "company_name")).
    + unfold SaveToDb.saveCompanyRecord. rewrite no_id. run.
      eexists _, _. split; [reflexivity|]. cbn [fst book]. split; congruence.
    + run. eexists _, _. split; [reflexivity|]. cbn [book]. split; congruence.
  - run. eexists _, _. split; [reflexivity|]. cbn [fst book]. split; congruence.
Qed.

Lemma unconfigured_files (files : list File) (counts : nat * nat) (w : World) :
  exists counts' w',
    foldM (Main.process_file pf parse) files counts w = (Ok counts', w')
    /\ fst counts' = fst counts /\ book w' = book w.
Proof.
  revert counts w. induction files as [|file rest IH]; intros counts w.
  - exists counts, w. repeat split.
  - destruct (unconfigured_file file counts w) as (c1 & w1 & E1 & Hc1 & Hb1).
    destruct (IH c1 w1) as (c' & w' & E & Hc & Hb).
    exists c', w'. split; [|split; congruence].
    cbn [foldM]. rewrite (bind_run _ _ _ _ _ E1). exact E.
Qed.

Lemma unconfigured_folders (folders : list Folder) (counts : nat * nat) (w : World) :
  exists counts' w',
    foldM (Main.process_folder pf parse) folders counts w = (Ok counts', w')
    /\ fst counts' = fst counts /\ book w' = book w.
Proof.
  revert counts w. induction folders as [|folder rest IH]; intros counts w.
  - exists counts, w. repeat split.
  - cbn [foldM]. unfold Main.process_folder at 1.
    destruct (unconfigured_files (folder_docs folder) counts
                (snd (log "Scanning subfolder" [LS (folder_name folder)] w)))
      as (c1 & w1 & E1 & Hc1 & Hb1).
    destruct (IH c1 w1) as (c' & w' & E & Hc & Hb).
    exists c', w'. split.
    + rewrite (bind_run _ _ w w1 (Ok c1)); [exact E|]. rewrite bind_log. exact E1.
    + split; [congruence|]. rewrite Hb, Hb1. reflexivity.
Qed.

End Unconfigured.

(** X15. When the script property SPREADSHEET_ID is not set, the driver saves
    nothing: whatever the folders hold, the loops end normally, the count of
    processed files stays as it was, and the sheet is left as found, for
    every parser that does not write to the sheet itself (both revisions of
    [parseCompanyFromDoc] are such parsers). *)
Theorem nothing_is_saved_without_spreadsheet_id (pf : Platform)
    (parse : jsstring -> M object) (folders : list Folder) (counts : nat * nat)
    (w : World) :
  property_set (SaveToDb.SPREADSHEET_ID pf) = false ->
  (forall docId w0, book (snd (parse docId w0)) = book w0) ->
  exists counts' w',
    foldM (Main.process_folder pf parse) folders counts w = (Ok counts', w')
    /\ fst counts' = fst counts /\ book w' = book w.
Proof. intros Hid Hparse. apply unconfigured_folders; assumption. Qed.

Lemma nothing_is_saved_without_spreadsheet_id_witness :
  let pf := Sample.with_properties (fun _ => None)
              (Sample.stage_platform Sample.simple_reply Sample.primary_only_reply
                 Sample.customer_reply Sample.churn_reply Sample.burn_reply
                 Sample.valuation_reply Sample.acme_doc) in
  exists counts' w',
    foldM (Main.process_folder pf (Rev2.parseCompanyFromDoc pf)) Sample.drive (0, 0)
      Sample.w0 = (Ok counts', w')
    /\ fst counts' = fst (0, 0) /\ book w' = book Sample.w0.
Proof.
  intros pf.
  apply (nothing_is_saved_without_spreadsheet_id pf (Rev2.parseCompanyFromDoc pf)
           Sample.drive (0, 0) Sample.w0).
  - reflexivity.
  - intros docId w0. apply keeps_book_parse2.
Defined.

(** X16. The driver throws only before its loops: when the script property
    MASTER_FOLDER_ID is not set, and when the master folder cannot be
    opened. In both cases nothing has been done: the world is as it was.
    No document can make the driver throw. *)
Theorem driver_aborts_only_before_the_loops (pf : Platform)
    (parse : jsstring -> M object) (w : World) :
  (property_set (Main.MASTER_FOLDER_ID pf) = false ->
   Main.processAllCompaniesInMasterFolder pf parse w
   = (Throw (Error (js "MASTER_FOLDER_ID is not set in Script Properties. Please configure the ID of the master Google Drive folder.")), w))
  /\ (forall e,
        property_set (Main.MASTER_FOLDER_ID pf) = true ->
        getFolderById pf (default [] (Main.MASTER_FOLDER_ID pf)) = Throw e ->
        Main.processAllCompaniesInMasterFolder pf parse w = (Throw e, w))
  /\ (forall e,
        fst (Main.processAllCompaniesInMasterFolder pf parse w) = Throw e ->
        property_set (Main.MASTER_FOLDER_ID pf) = false
        \/ getFolderById pf (default [] (Main.MASTER_FOLDER_ID pf)) = Throw e).
Proof.
  unfold Main.processAllCompaniesInMasterFolder. repeat split.
  - intros ->. reflexivity.
  - intros e -> He. cbn [negb]. run. rewrite He. reflexivity.
  - intros e. destruct (property_set (Main.MASTER_FOLDER_ID pf)); [|auto].
    cbn [negb]. unfold bind at 1. unfold lift.
    destruct (getFolderById pf (default [] (Main.MASTER_FOLDER_ID pf)))
      as [masterFolder|e'] eqn:Hf.
    + rewrite bind_log.
      destruct (outer_loop_run pf parse (snd masterFolder) (0, 0)
                  (snd (log "Starting company processing for master folder"
                          [LS (fst masterFolder)] w)))
        as (c & w1 & E & _).
      rewrite (bind_run _ _ _ _ _ E). discriminate.
    + cbn [fst]. intros H. injection H as ->. auto.
Qed.

Lemma bump_bounds (v : verdict) (counts : nat * nat) :
  fst counts <= fst (bump v counts) /\ snd counts <= snd (bump v counts)
  /\ fst (bump v counts) + snd (bump v counts) <= S (fst counts + snd counts).
Proof. destruct v; cbn; lia. Qed.

Lemma batch_run_bounds (pf : Platform) (parse : jsstring -> M object)
    (files : list File) (counts : nat * nat) (w : World) (counts' : nat * nat)
    (w' : World) :
  batch_run pf parse files counts w counts' w' ->
  fst counts <= fst counts' /\ snd counts <= snd counts'
  /\ fst counts' + snd counts' <= fst counts + snd counts + length files.
Proof.
  induction 1 as [|file rest counts w w1 counts' w' _ _ IH]; [cbn; lia|].
  pose proof (bump_bounds (file_verdict pf parse file w) counts). cbn [length]. lia.
Qed.

Lemma folders_run_bounds (pf : Platform) (parse : jsstring -> M object)
    (folders : list Folder) (counts : nat * nat) (w : World) (counts' : nat * nat)
    (w' : World) :
  folders_run pf parse folders counts w counts' w' ->
  fst counts <= fst counts' /\ snd counts <= snd counts'
  /\ fst counts' + snd counts' <= fst counts + snd counts
                                  + length (concat (map folder_docs folders)).
Proof.
  induction 1 as [|folder rest counts w counts1 w1 counts' w' Hb _ IH]; [cbn; lia|].
  apply batch_run_bounds in Hb. cbn [map concat]. rewrite length_app. lia.
Qed.

(** X17. The counters of the driver never go down, and over the folders of
    a master folder they go up, together, by at most the number of
    documents: every document is counted at most once, as processed or as
    failed; a skipped document is counted as neither. *)
Theorem driver_counts_each_document_at_most_once (pf : Platform)
    (parse : jsstring -> M object) (folders : list Folder) (counts : nat * nat)
    (w : World) :
  exists counts' w',
    foldM (Main.process_folder pf parse) folders counts w = (Ok counts', w')
    /\ fst counts <= fst counts' /\ snd counts <= snd counts'
    /\ fst counts' + snd counts' <= fst counts + snd counts
                                    + length (concat (map folder_docs folders)).
Proof.
  destruct (outer_loop_run pf parse folders counts w) as (c & w' & E & R).
  exists c, w'. split; [exact E|]. eapply folders_run_bounds, R.
Qed.

Lemma header_write_adds_no_data_row (vals : list value) (g : list (list value)) :
  lastRow g = 0 -> lastRow (write_row 0 0 vals g) <= 1.
Proof.
  intros H0. apply (last_pos_at_most row_has_content []).
  intros j Hj. rewrite nth_write_row.
  assert (Hb : (j =? 0) = false) by (apply Nat.eqb_neq; lia).
  rewrite Hb. apply (last_pos_beyond row_has_content [] eq_refl). unfold lastRow in H0. lia.
Qed.

(** X18. The first document that the driver brings to a sheet without
    content is counted as failed, although it was parsed into a record with
    a name: the save writes the keys of the record as the header row and
    throws, the driver catches the error, and the values of the record are
    not written (the sheet has no row after the first). *)
Theorem first_document_into_empty_sheet_fails (pf : Platform)
    (parse : jsstring -> M object) (file : File) (counts : nat * nat)
    (w w1 : World) (companyRecord : object) :
  configured pf ->
  parse (file_id file)
        (snd (log "-- Found document" [LS (file_name file); LS (file_id file)] w))
    = (Ok companyRecord, w1) ->
  truthy (prop companyRecord "company_name") = true ->
  lastRow (grid (sheet_found w1)) = 0 ->
  exists w' s',
    Main.process_file pf parse file counts w = (Ok (fst counts, S (snd counts)), w')
    /\ book w' = Some s'
    /\ grid s' = write_row 0 0 (map (stored pf) (map VStr (keys companyRecord)))
                   (grid (sheet_found w1))
    /\ lastRow (grid s') <= 1.
Proof.
  intros Hc Hp Hname Hempty.
  assert (Hne : companyRecord <> []) by (intros ->; discriminate).
  destruct (save_into_empty_sheet pf companyRecord w1 Hc Hne Hempty) as (w2 & E & Hb).
  unfold Main.process_file. rewrite bind_log.
  unfold try_catch at 1. unfold bind at 1. rewrite Hp.
  cbn [truthy andb]. rewrite Hname. unfold bind at 1. rewrite E. run.
  eexists _, _. split; [reflexivity|]. cbn [book]. split; [exact Hb|].
  cbn [grid]. split; [reflexivity|]. apply header_write_adds_no_data_row, Hempty.
Qed.

Lemma first_document_into_empty_sheet_fails_witness :
  let pf := Sample.stage_platform Sample.simple_reply Sample.primary_only_reply
              Sample.customer_reply Sample.churn_reply Sample.burn_reply
              Sample.valuation_reply Sample.acme_doc in
  let file := mkFile (js "Acme notes") (js "doc1") in
  let run := Rev2.parseCompanyFromDoc pf (js "doc1")
               (snd (log "-- Found document" [LS (file_name file); LS (file_id file)]
                       Sample.w0)) in
  let companyRecord := match fst run with Ok r => r | Throw _ => [] end in
  exists w' s',
    Main.process_file pf (Rev2.parseCompanyFromDoc pf) file (0, 0) Sample.w0
      = (Ok (0, 1), w')
    /\ book w' = Some s'
    /\ grid s' = write_row 0 0 (map (stored pf) (map VStr (keys companyRecord)))
                   (grid (sheet_found (snd run)))
    /\ lastRow (grid s') <= 1.
Proof.
  intros pf file run companyRecord.
  apply (first_document_into_empty_sheet_fails pf (Rev2.parseCompanyFromDoc pf) file
           (0, 0) Sample.w0 (snd run) companyRecord).
  - reflexivity.
  - vm_compute. reflexivity.
  - vm_compute. reflexivity.
  - vm_compute. reflexivity.
Defined.

(** ** The database write utility: validation *)

(** X19. A record that [validateCompanyRecord] accepts has its four
    required fields ([id], [company_name], [doc_url], [date_created]): each
    is truthy, and its text is not blank. *)
Theorem accepted_record_has_required_fields (pf : Platform) (companyRecord : object)
    (w : World) :
  passes pf companyRecord w = true ->
  Forall (fun field =>
            truthy (prop companyRecord field) = true
            /\ is_blank (DbWrite.js_ToString pf (prop companyRecord field)) = false)
         DbWrite.requiredFields.
Proof.
  intros H. apply passes_checks in H as (H & _).
  eapply List.Forall_impl; [|exact H]. cbv beta. intros field Hf.
  apply orb_false_iff in Hf as [Ht Hb]. apply negb_false_iff in Ht.
  split; [exact Ht|]. unfold is_blank. rewrite Hb, orb_false_r.
  destruct (DbWrite.js_ToString pf (prop companyRecord field)); [discriminate|reflexivity].
Qed.

Lemma accepted_record_has_required_fields_witness :
  Forall (fun field =>
            truthy (prop Sample.test_company field) = true
            /\ is_blank (DbWrite.js_ToString Sample.offline
                           (prop Sample.test_company field)) = false)
         DbWrite.requiredFields.
Proof.
  apply (accepted_record_has_required_fields Sample.offline Sample.test_company Sample.w0).
  vm_compute. reflexivity.
Defined.

(** X20. In a record that [validateCompanyRecord] accepts, every numeric
    field is [null], absent, or a number that is not NaN (a numeric string
    is refused), and every integer field is [null], absent, or an integral
    number. *)
Theorem accepted_record_is_well_typed (pf : Platform) (companyRecord : object)
    (w : World) :
  passes pf companyRecord w = true ->
  Forall (fun field =>
            match prop companyRecord field with
            | VNull | VUndef => True
            | VNum x => PrimFloat.is_nan x = false
            | _ => False
            end) DbWrite.numericFields
  /\ Forall (fun field =>
               match prop companyRecord field with
               | VNull | VUndef => True
               | VNum x => float_isInteger x = true
               | _ => False
               end) DbWrite.integerFields.
Proof.
  intros H. apply passes_checks in H as (_ & Hn & _ & Hi & _). split.
  - eapply List.Forall_impl; [|exact Hn]. cbv beta. intros field.
    destruct (prop companyRecord field); cbn; try discriminate; auto;
      rewrite ?orb_true_r, ?orb_false_r; try discriminate.
    unfold DbWrite.isNaN. cbn. auto.
  - eapply List.Forall_impl; [|exact Hi]. cbv beta. intros field.
    destruct (prop companyRecord field); cbn; try discriminate; auto.
    intros Hx. apply negb_false_iff in Hx. exact Hx.
Qed.

Lemma accepted_record_is_well_typed_witness :
  Forall (fun field =>
            match prop Sample.test_company field with
            | VNull | VUndef => True
            | VNum x => PrimFloat.is_nan x = false
            | _ => False
            end) DbWrite.numericFields
  /\ Forall (fun field =>
               match prop Sample.test_company field with
               | VNull | VUndef => True
               | VNum x => float_isInteger x = true
               | _ => False
               end) DbWrite.integerFields.
Proof.
  apply (accepted_record_is_well_typed Sample.offline Sample.test_company Sample.w0).
  vm_compute. reflexivity.
Defined.

(** X21. In a record that [validateCompanyRecord] accepts, a percentage
    field that is a number is neither below 0 nor above 5, and a
    [year_founded] that is a number is neither before 1800 nor after the
    year the clock gives at the time of the check. *)
Theorem accepted_record_is_in_range (pf : Platform) (companyRecord : object)
    (w : World) :
  passes pf companyRecord w = true ->
  Forall (fun field =>
            forall x, prop companyRecord field = VNum x ->
              PrimFloat.ltb x 0 = false /\ PrimFloat.ltb 5 x = false)
         DbWrite.percentageFields
  /\ forall y, prop companyRecord "year_founded" = VNum y ->
       PrimFloat.ltb y 1800 = false /\ PrimFloat.ltb (year_at pf (ticks w)) y = false.
Proof.
  intros H. apply passes_checks in H as (_ & _ & Hp & _ & Hy). split.
  - eapply List.Forall_impl; [|exact Hp]. cbv beta. intros field Hf x Hx.
    rewrite Hx in Hf. cbn in Hf. apply orb_false_iff in Hf. exact Hf.
  - intros y Hv. rewrite Hv in Hy. cbn in Hy. apply orb_false_iff. apply Hy. reflexivity.
Qed.

Lemma accepted_record_is_in_range_witness :
  Forall (fun field =>
            forall x, prop Sample.test_company field = VNum x ->
              PrimFloat.ltb x 0 = false /\ PrimFloat.ltb 5 x = false)
         DbWrite.percentageFields
  /\ forall y, prop Sample.test_company "year_founded" = VNum y ->
       PrimFloat.ltb y 1800 = false
       /\ PrimFloat.ltb (year_at Sample.offline (ticks Sample.w0)) y = false.
Proof.
  apply (accepted_record_is_in_range Sample.offline Sample.test_company Sample.w0).
  vm_compute. reflexivity.
Defined.

Lemma rejected (errors : list jsstring) (message : jsstring) (rest : list jsstring) :
  (length ((errors ++ [message]) ++ rest) =? 0) = false.
Proof. rewrite !length_app. cbn. apply Nat.eqb_neq. lia. Qed.

(** X22. The consistency check compares with [null] only, so a missing
    secondary key counts as a value: a record whose [acv] is [null] and
    that has no [acv_2] property is rejected, and likewise for the
    customer counts. A record must carry the secondary key, as [null], when
    its primary value is [null]. *)
Theorem primary_null_needs_secondary_key (pf : Platform) (companyRecord : object)
    (w : World) :
  (prop companyRecord "acv" = VNull /\ lookup_prop (js "acv_2") companyRecord = None)
  \/ (prop companyRecord "customer_count" = VNull
      /\ lookup_prop (js "customer_count_2") companyRecord = None) ->
  passes pf companyRecord w = false.
Proof.
  intros H. unfold passes, DbWrite.validateCompanyRecord. cbv zeta.
  assert (Hcase :
    (negb (strict_eq (prop companyRecord "acv_2") VNull)
     && strict_eq (prop companyRecord "acv") VNull = true)
    \/ (negb (strict_eq (prop companyRecord "customer_count_2") VNull)
        && strict_eq (prop companyRecord "customer_count") VNull = true)).
  { destruct H as [[Hp Hs]|[Hp Hs]]; [left|right];
      unfold prop, obj_get in *; rewrite Hs; cbn [default];
      unfold prop, obj_get in Hp; rewrite Hp; reflexivity. }
  destruct (DbWrite.present (prop companyRecord "year_founded")); run;
    [destruct (PrimFloat.ltb _ 1800 || PrimFloat.ltb (year_at pf (ticks w)) _); run|];
    cbn [DbWrite.isValid];
    (destruct Hcase as [Hc|Hc]; rewrite Hc;
     [ apply rejected
     | match goal with
       | |- (length (?l ++ [?m]) =? 0) = false =>
           rewrite <- (app_nil_r (l ++ [m])); apply rejected
       end ]).
Qed.

Lemma primary_null_needs_secondary_key_witness :
  passes Sample.offline [(js "acv", VNull)] Sample.w0 = false.
Proof.
  apply (primary_null_needs_secondary_key Sample.offline [(js "acv", VNull)] Sample.w0).
  left. split; reflexivity.
Defined.

Lemma check_each_passes (companyRecord : object) (fields : list string)
    (bad : value -> bool) (message : string -> jsstring) :
  Forall (fun field => bad (prop companyRecord field) = false) fields ->
  DbWrite.check_each companyRecord fields bad message = [].
Proof.
  unfold DbWrite.check_each. induction 1 as [|f fields Hf _ IH]; cbn [flat_map].
  - reflexivity.
  - rewrite Hf. exact IH.
Qed.

(** X23. The validation checks nothing else: a record is accepted as soon
    as its required fields are truthy and not blank, its numeric fields are
    [null], absent or numbers other than NaN, its integer fields are
    [null], absent or integral, its percentages and its year are in range,
    and no secondary value stands beside a [null] primary value. String
    fields, the link and the sizes of the numbers are not looked at. *)
Theorem well_formed_record_is_accepted (pf : Platform) (companyRecord : object)
    (w : World) :
  Forall (fun field =>
            truthy (prop companyRecord field) = true
            /\ is_blank (DbWrite.js_ToString pf (prop companyRecord field)) = false)
         DbWrite.requiredFields ->
  Forall (fun field =>
            match prop companyRecord field with
            | VNull | VUndef => True
            | VNum x => PrimFloat.is_nan x = false
            | _ => False
            end) DbWrite.numericFields ->
  Forall (fun field =>
            match prop companyRecord field with
            | VNull | VUndef => True
            | VNum x => float_isInteger x = true
            | _ => False
            end) DbWrite.integerFields ->
  Forall (fun field =>
            forall x, prop companyRecord field = VNum x ->
              PrimFloat.ltb x 0 = false /\ PrimFloat.ltb 5 x = false)
         DbWrite.percentageFields ->
  (forall y, prop companyRecord "year_founded" = VNum y ->
     PrimFloat.ltb y 1800 = false /\ PrimFloat.ltb (year_at pf (ticks w)) y = false) ->
  (prop companyRecord "acv_2" = VNull \/ prop companyRecord "acv" <> VNull) ->
  (prop companyRecord "customer_count_2" = VNull
   \/ prop companyRecord "customer_count" <> VNull) ->
  passes pf companyRecord w = true.
Proof.
  intros Hreq Hnum Hint Hpct Hyear Hacv Hcust.
  assert (E1 : forall m, DbWrite.check_each companyRecord DbWrite.requiredFields
                 (fun v => negb (truthy v)
                           || str_eqb (trim (DbWrite.js_ToString pf v)) []) m = []).
  { intros m. apply check_each_passes. eapply List.Forall_impl; [|exact Hreq].
    cbv beta. intros f [Ht Hb]. rewrite Ht. cbn [negb orb].
    unfold is_blank in Hb. apply orb_false_iff in Hb. apply Hb. }
  assert (E2 : forall m, DbWrite.check_each companyRecord DbWrite.numericFields
                 (fun value => DbWrite.present value
                    && (DbWrite.isNaN pf value || negb (DbWrite.is_number value))) m = []).
  { intros m. apply check_each_passes. eapply List.Forall_impl; [|exact Hnum].
    cbv beta. intros f. destruct (prop companyRecord f); try contradiction; try reflexivity.
    intros Hx. unfold DbWrite.isNaN. cbn. rewrite Hx. reflexivity. }
  assert (E4 : forall m, DbWrite.check_each companyRecord DbWrite.integerFields
                 (fun value => DbWrite.present value
                    && negb (DbWrite.Number_isInteger value)) m = []).
  { intros m. apply check_each_passes. eapply List.Forall_impl; [|exact Hint].
    cbv beta. intros f. destruct (prop companyRecord f); try contradiction; try reflexivity.
    intros Hx. cbn. rewrite Hx. reflexivity. }
  assert (E3 : forall m, DbWrite.check_each companyRecord DbWrite.percentageFields
                 (fun value => DbWrite.present value
                    && (PrimFloat.ltb (DbWrite.js_ToNumber pf value) 0
                        || PrimFloat.ltb 5 (DbWrite.js_ToNumber pf value))) m = []).
  { intros m. apply check_each_passes. apply List.Forall_forall. intros f Hin.
    rewrite List.Forall_forall in Hpct, Hnum. specialize (Hpct f Hin).
    assert (Hn : In f DbWrite.numericFields).
    { unfold DbWrite.percentageFields in Hin. cbn [In] in Hin.
      repeat (destruct Hin as [<-|Hin]; [cbn; tauto|]). contradiction. }
    specialize (Hnum f Hn).
    destruct (prop companyRecord f) as [| | |x| | |]; try contradiction; try reflexivity.
    destruct (Hpct x eq_refl) as [Hlo Hhi]. cbn. rewrite Hlo, Hhi. reflexivity. }
  assert (Ey : DbWrite.present (prop companyRecord "year_founded") = true ->
               (PrimFloat.ltb (DbWrite.js_ToNumber pf (prop companyRecord "year_founded")) 1800
                || PrimFloat.ltb (year_at pf (ticks w))
                     (DbWrite.js_ToNumber pf (prop companyRecord "year_founded"))) = false).
  { rewrite List.Forall_forall in Hint.
    assert (Hi : In "year_founded" DbWrite.integerFields) by (cbn; tauto).
    specialize (Hint _ Hi).
    destruct (prop companyRecord "year_founded") as [| | |y| | |];
      try contradiction; try discriminate.
    intros _. destruct (Hyear y eq_refl) as [Hlo Hhi]. cbn. rewrite Hlo, Hhi. reflexivity. }
  assert (Ea : negb (strict_eq (prop companyRecord "acv_2") VNull)
               && strict_eq (prop companyRecord "acv") VNull = false).
  { destruct Hacv as [->|Hne]; [reflexivity|].
    destruct (strict_eq (prop companyRecord "acv") VNull) eqn:E;
      [apply strict_eq_null in E; contradiction|apply andb_false_r]. }
  assert (Ec : negb (strict_eq (prop companyRecord "customer_count_2") VNull)
               && strict_eq (prop companyRecord "customer_count") VNull = false).
  { destruct Hcust as [->|Hne]; [reflexivity|].
    destruct (strict_eq (prop companyRecord "customer_count") VNull) eqn:E;
      [apply strict_eq_null in E; contradiction|apply andb_false_r]. }
  unfold passes, DbWrite.validateCompanyRecord. cbv zeta.
  rewrite E1, E2, E3, E4, Ea, Ec.
  destruct (DbWrite.present (prop companyRecord "year_founded")); run; [|reflexivity].
  rewrite (Ey eq_refl). reflexivity.
Qed.

Lemma well_formed_record_is_accepted_witness :
  passes Sample.offline Sample.test_company Sample.w0 = true.
Proof.
  apply (well_formed_record_is_accepted Sample.offline Sample.test_company Sample.w0).
  - repeat constructor.
  - repeat constructor.
  - repeat constructor.
  - apply List.Forall_forall. intros f Hin x H. cbn in Hin.
    destruct Hin as [<-|[<-|[<-|[]]]]; vm_compute in H; try discriminate H;
      injection H as <-; split; reflexivity.
  - intros y H. vm_compute in H. injection H as <-. split; reflexivity.
  - left. reflexivity.
  - left. reflexivity.
Defined.

(** ** The database write utility: sanitization *)

Lemma obj_get_set (o : object) (k : jsstring) (v : value) (k' : jsstring) :
  obj_get (obj_set o k v) k' = if str_eqb k' k then v else obj_get o k'.
Proof.
  unfold obj_get. induction o as [|[k1 v1] o IH]; cbn [obj_set lookup_prop].
  - destruct (str_eqb k' k); reflexivity.
  - destruct (str_eqb k k1) eqn:E1; cbn [lookup_prop].
    + apply str_eqb_true in E1 as ->. destruct (str_eqb k' k1); reflexivity.
    + destruct (str_eqb k' k1) eqn:E2; [|exact IH].
      destruct (str_eqb k' k) eqn:E3; [|reflexivity].
      apply str_eqb_true in E2, E3. subst. rewrite str_eqb_refl in E1. discriminate.
Qed.

Lemma keys_set (o : object) (k : jsstring) (v : value) :
  lookup_prop k o <> None -> keys (obj_set o k v) = keys o.
Proof.
  unfold keys. induction o as [|[k1 v1] o IH]; cbn [obj_set lookup_prop map fst].
  - contradiction.
  - destruct (str_eqb k k1); cbn [map fst]; [reflexivity|].
    intros H. rewrite (IH H). reflexivity.
Qed.

Lemma obj_set_same (o : object) (k : jsstring) (v : value) :
  lookup_prop k o = Some v -> obj_set o k v = o.
Proof.
  induction o as [|[k1 v1] o IH]; cbn [obj_set lookup_prop]; [discriminate|].
  destruct (str_eqb k k1).
  - intros H. injection H as ->. reflexivity.
  - intros H. rewrite (IH H). reflexivity.
Qed.

Lemma held (o : object) (k : jsstring) :
  obj_get o k <> VUndef -> lookup_prop k o = Some (obj_get o k).
Proof. unfold obj_get. destruct (lookup_prop k o); [reflexivity|contradiction]. Qed.

Lemma held_not_none (o : object) (k : jsstring) :
  obj_get o k <> VUndef -> lookup_prop k o <> None.
Proof. intros H. rewrite (held _ _ H). discriminate. Qed.

(** A step that sets the value under its field to [g] of it, when that
    value is defined and [g] changes it, is field-wise. *)
Lemma fieldwise_set (g : value -> value) (step : object -> string -> object) :
  g VUndef = VUndef ->
  (forall o f, step o f = o /\ g (prop o f) = prop o f
               \/ step o f = obj_set o (js f) (g (prop o f)) /\ prop o f <> VUndef) ->
  fieldwise g step.
Proof.
  intros Hu Hstep o f.
  assert (Hfirst : keys (step o f) = keys o
            /\ forall k, obj_get (step o f) k
                         = if str_eqb k (js f) then g (obj_get o k) else obj_get o k).
  { destruct (Hstep o f) as [[-> Hg]|[-> Hd]].
    - split; [reflexivity|]. intros k. destruct (str_eqb k (js f)) eqn:E; [|reflexivity].
      apply str_eqb_true in E as ->. symmetry. exact Hg.
    - split; [apply keys_set, held_not_none, Hd|]. intros k. rewrite obj_get_set.
      destruct (str_eqb k (js f)) eqn:E; [|reflexivity].
      apply str_eqb_true in E as ->. reflexivity. }
  split; [apply Hfirst|]. split; [apply Hfirst|]. intros Hg.
  destruct (Hstep o f) as [[E _]|[E Hd]]; [exact E|].
  rewrite E, Hg. apply obj_set_same, held, Hd.
Qed.

Lemma fieldwise_string : fieldwise sanitized_string DbWrite.sanitize_string.
Proof.
  apply fieldwise_set; [reflexivity|]. intros o f. unfold DbWrite.sanitize_string.
  destruct (prop o f) as [| | | |[|c s]| |] eqn:Hp; cbn [truthy sanitized_string];
    try (left; split; reflexivity).
  right. change (str_eqb (c :: s) []) with false. cbn [negb].
  destruct (str_eqb (trim (c :: s)) []); split; (reflexivity || discriminate).
Qed.

Lemma fieldwise_number (pf : Platform) :
  fieldwise (sanitized_number pf) (DbWrite.sanitize_number pf).
Proof.
  apply fieldwise_set; [reflexivity|]. intros o f.
  unfold DbWrite.sanitize_number, sanitized_number.
  destruct (DbWrite.present (prop o f)) eqn:Hp; [right|left]; split; try reflexivity.
  intros E. rewrite E in Hp. discriminate.
Qed.

Lemma fieldwise_integer (pf : Platform) :
  fieldwise (sanitized_integer pf) (DbWrite.sanitize_integer pf).
Proof.
  apply fieldwise_set; [reflexivity|]. intros o f.
  unfold DbWrite.sanitize_integer, sanitized_integer.
  destruct (DbWrite.present (prop o f)) eqn:Hp; [right|left]; split; try reflexivity.
  intros E. rewrite E in Hp. discriminate.
Qed.

Lemma fold_fieldwise (g : value -> value) (step : object -> string -> object)
    (fields : list string) (o : object) :
  fieldwise g step -> List.NoDup (map js fields) ->
  keys (fold_left step fields o) = keys o
  /\ forall k, obj_get (fold_left step fields o) k
               = if existsb (fun f => str_eqb k (js f)) fields
                 then g (obj_get o k) else obj_get o k.
Proof.
  intros Hs. revert o. induction fields as [|f fields IH]; intros o Hnd.
  - split; reflexivity.
  - cbn [map] in Hnd. apply NoDup_cons_iff in Hnd as [Hnot Hnd].
    destruct (Hs o f) as (Hk & Hg & _). destruct (IH (step o f) Hnd) as [Hk' Hg'].
    cbn [fold_left existsb]. split; [congruence|].
    intros k. rewrite Hg', Hg.
    destruct (str_eqb k (js f)) eqn:E; cbn [orb]; [|reflexivity].
    apply str_eqb_true in E as ->.
    destruct (existsb (fun f0 => str_eqb (js f) (js f0)) fields) eqn:Ex; [|reflexivity].
    exfalso. apply Hnot. apply existsb_exists in Ex as (f0 & Hin & Heq).
    apply str_eqb_true in Heq. rewrite Heq. apply in_map. exact Hin.
Qed.

Lemma distinct_fields :
  List.NoDup (map js DbWrite.stringFields)
  /\ List.NoDup (map js DbWrite.sanitize_numericFields)
  /\ List.NoDup (map js DbWrite.integerFields).
Proof.
  repeat split; apply NoDup_ListNoDup, (bool_decide_unpack _); vm_compute; reflexivity.
Qed.

(** The record after sanitization, key by key. *)
Lemma sanitized_field (pf : Platform) (companyRecord : object) :
  keys (DbWrite.sanitizeCompanyRecord pf companyRecord) = keys companyRecord
  /\ forall k, obj_get (DbWrite.sanitizeCompanyRecord pf companyRecord) k
               = sanitized_value pf k (obj_get companyRecord k).
Proof.
  destruct distinct_fields as (Ns & Nn & Ni).
  unfold DbWrite.sanitizeCompanyRecord, sanitized_value. cbv zeta.
  set (o1 := fold_left DbWrite.sanitize_string DbWrite.stringFields companyRecord).
  set (o2 := fold_left (DbWrite.sanitize_number pf) DbWrite.sanitize_numericFields o1).
  destruct (fold_fieldwise _ _ _ companyRecord fieldwise_string Ns) as [K1 G1].
  destruct (fold_fieldwise _ _ _ o1 (fieldwise_number pf) Nn) as [K2 G2].
  destruct (fold_fieldwise _ _ _ o2 (fieldwise_integer pf) Ni) as [K3 G3].
  fold o1 in K1, G1. fold o2 in K2, G2. split; [congruence|].
  intros k. rewrite G3, G2, G1. reflexivity.
Qed.

(** X24. [sanitizeCompanyRecord] neither adds nor removes nor reorders a
    key, and it leaves the value under every key that is in none of its
    three field lists as it was: [id], [doc_url], [date_created] and any
    other property pass through unchanged. *)
Theorem sanitize_keeps_keys_and_other_fields (pf : Platform) (companyRecord : object) :
  keys (DbWrite.sanitizeCompanyRecord pf companyRecord) = keys companyRecord
  /\ forall k,
       ~ In k (map js (DbWrite.stringFields ++ DbWrite.sanitize_numericFields
                       ++ DbWrite.integerFields)) ->
       obj_get (DbWrite.sanitizeCompanyRecord pf companyRecord) k
       = obj_get companyRecord k.
Proof.
  destruct (sanitized_field pf companyRecord) as [Hk Hg]. split; [exact Hk|].
  intros k Hnot. rewrite Hg. unfold sanitized_value.
  assert (Hout : forall fields,
            (forall f, In f fields ->
               In (js f) (map js (DbWrite.stringFields ++ DbWrite.sanitize_numericFields
                                  ++ DbWrite.integerFields))) ->
            existsb (fun f => str_eqb k (js f)) fields = false).
  { intros fields Hsub. destruct (existsb _ fields) eqn:E; [|reflexivity].
    exfalso. apply existsb_exists in E as (f & Hin & Heq).
    apply str_eqb_true in Heq as ->. apply Hnot, Hsub, Hin. }
  rewrite !Hout; [reflexivity| | |];
    intros f Hin; apply in_map; rewrite !in_app_iff; auto.
Qed.

(** The closed membership tests of the goal, evaluated. *)
Ltac listed :=
  unfold sanitized_value; cbv zeta;
  repeat match goal with
         | |- context [existsb ?p ?l] =>
             let b := eval vm_compute in (existsb p l) in
             let E := fresh in
             assert (E : existsb p l = b) by (vm_compute; reflexivity);
             rewrite E; clear E
         end;
  reflexivity.

Lemma listed_string (pf : Platform) (f : string) (v : value) :
  In f DbWrite.stringFields -> sanitized_value pf (js f) v = sanitized_string v.
Proof.
  intros Hin. unfold DbWrite.stringFields in Hin. cbn [In] in Hin.
  repeat (destruct Hin as [<-|Hin]; [listed|]). contradiction.
Qed.

Lemma listed_number (pf : Platform) (f : string) (v : value) :
  In f DbWrite.sanitize_numericFields ->
  sanitized_value pf (js f) v = sanitized_number pf v.
Proof.
  intros Hin. unfold DbWrite.sanitize_numericFields in Hin. cbn [In] in Hin.
  repeat (destruct Hin as [<-|Hin]; [listed|]). contradiction.
Qed.

Lemma listed_integer (pf : Platform) (f : string) (v : value) :
  In f DbWrite.integerFields -> sanitized_value pf (js f) v = sanitized_integer pf v.
Proof.
  intros Hin. unfold DbWrite.integerFields in Hin. cbn [In] in Hin.
  repeat (destruct Hin as [<-|Hin]; [listed|]). contradiction.
Qed.

(** X25. [sanitizeCompanyRecord] trims every string field. A string of
    white space only becomes [null]; the empty string stays the empty
    string, since the branch is guarded by the truth of the value; a value
    that is not a string is left as it is. *)
Theorem sanitize_trims_strings (pf : Platform) (companyRecord : object) :
  Forall (fun field =>
            prop (DbWrite.sanitizeCompanyRecord pf companyRecord) field
            = match prop companyRecord field with
              | VStr [] => VStr []
              | VStr s => if is_blank s then VNull else VStr (trim s)
              | v => v
              end) DbWrite.stringFields.
Proof.
  apply List.Forall_forall. intros f Hin. unfold prop.
  rewrite (proj2 (sanitized_field pf companyRecord)), (listed_string pf f _ Hin).
  destruct (obj_get companyRecord (js f)) as [| | | |[|c s]| |]; reflexivity.
Qed.

(** X26. [sanitizeCompanyRecord] turns every numeric field that is neither
    [null] nor absent into a number, by [Number], and every integer field
    into a rounded number, by [Math.round] of [Number]. So after
    sanitization every field that the validation checks as numeric is
    [null], absent or of type number: a numeric string no longer fails the
    type check. *)
Theorem sanitize_types_numbers (pf : Platform) (companyRecord : object) :
  Forall (fun field =>
            prop (DbWrite.sanitizeCompanyRecord pf companyRecord) field
            = if DbWrite.present (prop companyRecord field)
              then VNum (DbWrite.js_ToNumber pf (prop companyRecord field))
              else prop companyRecord field) DbWrite.sanitize_numericFields
  /\ Forall (fun field =>
               prop (DbWrite.sanitizeCompanyRecord pf companyRecord) field
               = if DbWrite.present (prop companyRecord field)
                 then VNum (Math_round pf
                              (DbWrite.js_ToNumber pf (prop companyRecord field)))
                 else prop companyRecord field) DbWrite.integerFields
  /\ Forall (fun field =>
               DbWrite.is_number
                 (prop (DbWrite.sanitizeCompanyRecord pf companyRecord) field)
               = DbWrite.present
                   (prop (DbWrite.sanitizeCompanyRecord pf companyRecord) field))
            DbWrite.numericFields.
Proof.
  assert (Hn : forall f, In f DbWrite.sanitize_numericFields ->
            prop (DbWrite.sanitizeCompanyRecord pf companyRecord) f
            = sanitized_number pf (prop companyRecord f)).
  { intros f Hin. unfold prop.
    rewrite (proj2 (sanitized_field pf companyRecord)). apply listed_number, Hin. }
  assert (Hi : forall f, In f DbWrite.integerFields ->
            prop (DbWrite.sanitizeCompanyRecord pf companyRecord) f
            = sanitized_integer pf (prop companyRecord f)).
  { intros f Hin. unfold prop.
    rewrite (proj2 (sanitized_field pf companyRecord)). apply listed_integer, Hin. }
  split; [apply List.Forall_forall; exact Hn|].
  split; [apply List.Forall_forall; exact Hi|].
  apply List.Forall_forall. intros f Hin.
  assert (Hcase : In f DbWrite.sanitize_numericFields \/ In f DbWrite.integerFields).
  { unfold DbWrite.numericFields in Hin. cbn [In] in Hin.
    repeat (destruct Hin as [<-|Hin]; [cbn; tauto|]). contradiction. }
  destruct Hcase as [H|H]; [rewrite (Hn f H)|rewrite (Hi f H)];
    unfold sanitized_number, sanitized_integer;
    destruct (prop companyRecord f); reflexivity.
Qed.

Lemma fold_left_fixed (step : object -> string -> object) (fields : list string)
    (o : object) :
  Forall (fun f => step o f = o) fields -> fold_left step fields o = o.
Proof.
  induction 1 as [|f fields Hf _ IH]; [reflexivity|]. cbn [fold_left]. rewrite Hf. exact IH.
Qed.

Lemma sanitized_string_kept (u : jsstring) :
  trim u = u -> u <> [] -> sanitized_string (VStr u) = VStr u.
Proof.
  intros Ht Hne. destruct u as [|c u]; [contradiction|].
  cbn [sanitized_string]. rewrite Ht. reflexivity.
Qed.

Lemma sanitized_string_twice (v : value) :
  sanitized_string (sanitized_string v) = sanitized_string v.
Proof.
  destruct v as [| | | |[|c s]| |]; try reflexivity. cbn [sanitized_string].
  destruct (str_eqb (trim (c :: s)) []) eqn:E; [reflexivity|].
  apply sanitized_string_kept; [apply trim_trim|].
  intros H. rewrite H in E. discriminate.
Qed.

(** X27. Sanitizing twice is sanitizing once, when rounding a rounded number
    changes nothing (as [Math.round] does). *)
Theorem sanitize_is_idempotent (pf : Platform) (companyRecord : object) :
  (forall x, Math_round pf (Math_round pf x) = Math_round pf x) ->
  DbWrite.sanitizeCompanyRecord pf (DbWrite.sanitizeCompanyRecord pf companyRecord)
  = DbWrite.sanitizeCompanyRecord pf companyRecord.
Proof.
  intros Hround.
  set (o := DbWrite.sanitizeCompanyRecord pf companyRecord).
  assert (Hget : forall f, prop o f = sanitized_value pf (js f) (prop companyRecord f)).
  { intros f. apply (proj2 (sanitized_field pf companyRecord)). }
  unfold DbWrite.sanitizeCompanyRecord at 1.
  rewrite (fold_left_fixed DbWrite.sanitize_string).
  2: { apply List.Forall_forall. intros f Hin. apply fieldwise_string.
       rewrite Hget, (listed_string pf f _ Hin). apply sanitized_string_twice. }
  rewrite (fold_left_fixed (DbWrite.sanitize_number pf)).
  2: { apply List.Forall_forall. intros f Hin. apply fieldwise_number.
       rewrite Hget, (listed_number pf f _ Hin). unfold sanitized_number.
       destruct (prop companyRecord f); reflexivity. }
  apply fold_left_fixed. apply List.Forall_forall. intros f Hin. apply fieldwise_integer.
  rewrite Hget, (listed_integer pf f _ Hin). unfold sanitized_integer.
  destruct (prop companyRecord f); cbn; rewrite ?Hround; reflexivity.
Qed.

Lemma sanitize_is_idempotent_witness :
  DbWrite.sanitizeCompanyRecord Sample.offline
    (DbWrite.sanitizeCompanyRecord Sample.offline Sample.test_company)
  = DbWrite.sanitizeCompanyRecord Sample.offline Sample.test_company.
Proof.
  apply (sanitize_is_idempotent Sample.offline Sample.test_company).
  intros x. reflexivity.
Defined.

(** ** The database write utility: the operations *)

Lemma validate_run (pf : Platform) (companyRecord : object) (w : World) :
  exists result w1,
    DbWrite.validateCompanyRecord pf companyRecord w = (Ok result, w1)
    /\ DbWrite.isValid result = passes pf companyRecord w
    /\ book w1 = book w /\ fetched w1 = fetched w.
Proof.
  unfold passes, DbWrite.validateCompanyRecord. cbv zeta.
  destruct (DbWrite.present (prop companyRecord "year_founded")); run;
    [destruct (PrimFloat.ltb _ 1800 || PrimFloat.ltb (year_at pf (ticks w)) _); run|];
    eexists _, _; repeat split; reflexivity.
Qed.

Lemma passes_later (pf : Platform) (companyRecord : object) (t : string)
    (a : list logarg) (w : World) :
  passes pf companyRecord (snd (log t a w)) = passes pf companyRecord w.
Proof.
  unfold passes, DbWrite.validateCompanyRecord. cbv zeta.
  destruct (DbWrite.present (prop companyRecord "year_founded")); run; [|reflexivity].
  destruct (PrimFloat.ltb _ 1800 || PrimFloat.ltb (year_at pf (ticks w)) _); reflexivity.
Qed.

(** [saveCompanyToDatabase] returns a result that reports a failure. *)
Lemma save_reports_failure (pf : Platform) (companyRecord : object) (w : World) :
  exists result w',
    DbWrite.saveCompanyToDatabase pf companyRecord w = (Ok result, w')
    /\ prop result "success" = VBool false
    /\ prop result "error"
       = VStr (if passes pf companyRecord w
               then js "Error: Database connection not yet configured. Please implement database-specific insert."
               else js "Validation failed")
    /\ book w' = book w /\ fetched w' = fetched w.
Proof.
  unfold DbWrite.saveCompanyToDatabase. rewrite bind_log.
  set (w0 := snd (log "Saving company to database"
                    [LV (prop companyRecord "company_name")] w)).
  destruct (validate_run pf companyRecord w0) as (result & w1 & E & Hv & Hb & Hf).
  unfold w0 in Hv. rewrite passes_later in Hv.
  unfold try_catch. rewrite (bind_run _ _ _ _ _ E).
  destruct (DbWrite.isValid result); rewrite <- Hv; cbn [negb].
  - unfold DbWrite.findExistingCompany, DbWrite.insertNewCompany. run.
    eexists _, _. split; [reflexivity|]. cbn [book fetched]. repeat split; assumption.
  - run. eexists _, _. split; [reflexivity|]. cbn [book fetched]. repeat split; assumption.
Qed.

(** X28. The write operations of the database utility never throw and
    never succeed: [saveCompanyToDatabase] returns a result whose [success]
    is false, with the error "Validation failed" for a record the
    validation rejects and the error of the unimplemented insert for every
    other record; [updateExistingCompany] and [deleteCompanyFromDatabase]
    return the error of the unimplemented update and delete. None of them
    writes to the sheet or calls the classifier. *)
Theorem database_operations_always_report_failure (pf : Platform)
    (companyRecord : object) (companyId : value) (w : World) :
  (exists result w',
     DbWrite.saveCompanyToDatabase pf companyRecord w = (Ok result, w')
     /\ prop result "success" = VBool false
     /\ prop result "error"
        = VStr (if passes pf companyRecord w
                then js "Error: Database connection not yet configured. Please implement database-specific insert."
                else js "Validation failed")
     /\ book w' = book w /\ fetched w' = fetched w)
  /\ (exists w',
        DbWrite.updateExistingCompany pf companyId companyRecord w
        = (Ok [(js "success", VBool false);
               (js "error", VStr (js "Error: Database connection not yet configured. Please implement database-specific update."));
               (js "company_name", prop companyRecord "company_name")], w')
        /\ book w' = book w /\ fetched w' = fetched w)
  /\ (exists w',
        DbWrite.deleteCompanyFromDatabase companyId w
        = (Ok [(js "success", VBool false);
               (js "error", VStr (js "Error: Database connection not yet configured. Please implement database-specific delete."))], w')
        /\ book w' = book w /\ fetched w' = fetched w).
Proof.
  split; [apply save_reports_failure|]. split.
  - unfold DbWrite.updateExistingCompany, DbWrite.performDatabaseUpdate. run.
    eexists. repeat split.
  - unfold DbWrite.deleteCompanyFromDatabase, DbWrite.performDatabaseDelete. run.
    eexists. repeat split.
Qed.

Section Batches.
Variable pf : Platform.
Variable parse : jsstring -> M object.

Lemma parse_and_save_fails (docId : jsstring) (w : World) :
  exists result w',
    DbWrite.parseAndSaveCompany pf parse docId w = (Ok result, w')
    /\ prop result "success" = VBool false.
Proof.
  unfold DbWrite.parseAndSaveCompany. rewrite bind_log.
  unfold try_catch. unfold bind at 1.
  destruct (parse docId _) as [[parsedData|e] w1].
  - destruct (save_reports_failure pf (DbWrite.sanitizeCompanyRecord pf parsedData) w1)
      as (saveResult & w2 & E & Hs & _).
    rewrite (bind_run _ _ _ _ _ E). run. eexists _, _. split; [reflexivity|].
    exact Hs.
  - run. eexists _, _. split; reflexivity.
Qed.

Lemma batch_step_fails (n : nat) (entry : nat * jsstring)
    (results : DbWrite.BatchResults) (w : World) :
  exists result w',
    DbWrite.batch_step pf parse n entry results w
    = (Ok (DbWrite.mkBatch (DbWrite.total results) (DbWrite.successful results)
             (S (DbWrite.failed results)) (DbWrite.details results ++ [result])), w')
    /\ prop result "success" = VBool false.
Proof.
  destruct entry as [index docId]. unfold DbWrite.batch_step.
  destruct (parse_and_save_fails docId w) as (result & w1 & E & Hs).
  rewrite (bind_run _ _ _ _ _ E). rewrite Hs. cbn [truthy DbWrite.total
    DbWrite.successful DbWrite.failed DbWrite.details].
  destruct ((index + 1) mod 5 =? 0); run; eexists _, _; split; try reflexivity; exact Hs.
Qed.

Lemma batch_loop_fails (n : nat) (entries : list (nat * jsstring))
    (results : DbWrite.BatchResults) (w : World) :
  exists results' w',
    foldM (DbWrite.batch_step pf parse n) entries results w = (Ok results', w')
    /\ DbWrite.total results' = DbWrite.total results
    /\ DbWrite.successful results' = DbWrite.successful results
    /\ DbWrite.failed results' = DbWrite.failed results + length entries
    /\ exists added,
         DbWrite.details results' = DbWrite.details results ++ added
         /\ length added = length entries
         /\ Forall (fun result => prop result "success" = VBool false) added.
Proof.
  revert results w. induction entries as [|entry rest IH]; intros results w.
  - exists results, w. repeat split; try (cbn; lia).
    exists []. rewrite app_nil_r. repeat split. constructor.
  - destruct (batch_step_fails n entry results w) as (result & w1 & E1 & Hs).
    destruct (IH (DbWrite.mkBatch (DbWrite.total results) (DbWrite.successful results)
                    (S (DbWrite.failed results)) (DbWrite.details results ++ [result]))
                 w1)
      as (r' & w' & E & Ht & Hsu & Hfa & added & Hd & Hl & Hall).
    exists r', w'. cbn [foldM]. rewrite (bind_run _ _ _ _ _ E1).
    cbn [DbWrite.total DbWrite.successful DbWrite.failed DbWrite.details] in *.
    repeat split; try assumption; try (cbn [length]; lia).
    exists (result :: added). rewrite Hd, <- app_assoc. repeat split.
    + cbn [length]. lia.
    + constructor; assumption.
Qed.

Lemma save_step_fails (n : nat) (entry : nat * object)
    (results : DbWrite.SaveResults) (w : World) :
  exists detail w',
    DbWrite.save_step pf n entry results w
    = (Ok (DbWrite.mkSaveResults (DbWrite.save_total results)
             (DbWrite.save_successful results) (S (DbWrite.save_failed results))
             (DbWrite.save_details results ++ [detail])), w')
    /\ DbWrite.detail_index detail = fst entry
    /\ DbWrite.detail_success detail = VBool false
    /\ DbWrite.detail_company_name detail = prop (snd entry) "company_name".
Proof.
  destruct entry as [index record]. unfold DbWrite.save_step.
  destruct (save_reports_failure pf record w) as (saveResult & w1 & E & Hs & _).
  unfold bind at 1. unfold try_catch. rewrite (bind_run _ _ _ _ _ E). rewrite Hs.
  cbn [truthy DbWrite.save_total DbWrite.save_successful DbWrite.save_failed
       DbWrite.save_details].
  destruct ((index + 1) mod 10 =? 0); run; eexists _, _; split; try reflexivity;
    repeat split.
Qed.

Lemma save_loop_fails (n : nat) (records : list object) (start : nat)
    (results : DbWrite.SaveResults) (w : World) :
  exists results' w',
    foldM (DbWrite.save_step pf n) (combine (seq start (length records)) records)
      results w = (Ok results', w')
    /\ DbWrite.save_total results' = DbWrite.save_total results
    /\ DbWrite.save_successful results' = DbWrite.save_successful results
    /\ DbWrite.save_failed results' = DbWrite.save_failed results + length records
    /\ exists added,
         DbWrite.save_details results' = DbWrite.save_details results ++ added
         /\ map DbWrite.detail_index added = seq start (length records)
         /\ map DbWrite.detail_company_name added
            = map (fun record => prop record "company_name") records
         /\ Forall (fun detail => DbWrite.detail_success detail = VBool false) added.
Proof.
  revert start results w. induction records as [|record rest IH]; intros start results w.
  - exists results, w. repeat split; try (cbn; lia).
    exists []. rewrite app_nil_r. repeat split. constructor.
  - cbn [length seq combine foldM].
    destruct (save_step_fails n (start, record) results w) as (d & w1 & E1 & Hi & Hs & Hn).
    destruct (IH (S start)
                (DbWrite.mkSaveResults (DbWrite.save_total results)
                   (DbWrite.save_successful results) (S (DbWrite.save_failed results))
                   (DbWrite.save_details results ++ [d]))
                w1)
      as (r' & w' & E & Ht & Hsu & Hfa & added & Hd & Hix & Hnm & Hall).
    exists r', w'. rewrite (bind_run _ _ _ _ _ E1).
    cbn [DbWrite.save_total DbWrite.save_successful DbWrite.save_failed
         DbWrite.save_details fst snd] in *.
    repeat split; try assumption; try lia.
    exists (d :: added). rewrite Hd, <- app_assoc. cbn [map]. repeat split.
    + rewrite Hi, Hix. reflexivity.
    + rewrite Hn, Hnm. reflexivity.
    + constructor; assumption.
Qed.

End Batches.

(** X29. Since the insert is not implemented, [parseAndSaveCompany] always
    returns a result whose [success] is false, whatever the parser does,
    and [batchParseAndSave] counts every document as failed: no success,
    as many failures as documents, one detail entry for each. *)
Theorem batch_parse_and_save_counts_only_failures (pf : Platform)
    (parse : jsstring -> M object) (docIds : list jsstring) (w : World) :
  exists results w',
    DbWrite.batchParseAndSave pf parse docIds w = (Ok results, w')
    /\ DbWrite.total results = length docIds
    /\ DbWrite.successful results = 0
    /\ DbWrite.failed results = length docIds
    /\ length (DbWrite.details results) = length docIds
    /\ Forall (fun result => prop result "success" = VBool false)
              (DbWrite.details results).
Proof.
  unfold DbWrite.batchParseAndSave. rewrite bind_log.
  destruct (batch_loop_fails pf parse (length docIds)
              (combine (seq 0 (length docIds)) docIds)
              (DbWrite.mkBatch (length docIds) 0 0 [])
              (snd (log "Starting batch parse and save" [LN (length docIds)] w)))
    as (r & w1 & E & Ht & Hs & Hf & added & Hd & Hl & Hall).
  rewrite (bind_run _ _ _ _ _ E). run.
  cbn [DbWrite.total DbWrite.successful DbWrite.failed DbWrite.details] in *.
  rewrite length_combine, length_seq, Nat.min_id in Hf, Hl.
  eexists _, _. split; [reflexivity|]. rewrite Hd. cbn [app].
  repeat split; try assumption; lia.
Qed.

(** X30. [batchSaveCompanies] never throws and, since the insert is not
    implemented, saves nothing: it reports no success and as many failures
    as records, and its details list the records in order, each with its
    index, its name and a [success] that is false. *)
Theorem batch_save_counts_only_failures (pf : Platform) (companyRecords : list object)
    (w : World) :
  exists results w',
    DbWrite.batchSaveCompanies pf companyRecords w = (Ok results, w')
    /\ DbWrite.save_total results = length companyRecords
    /\ DbWrite.save_successful results = 0
    /\ DbWrite.save_failed results = length companyRecords
    /\ map DbWrite.detail_index (DbWrite.save_details results)
       = seq 0 (length companyRecords)
    /\ map DbWrite.detail_company_name (DbWrite.save_details results)
       = map (fun record => prop record "company_name") companyRecords
    /\ Forall (fun detail => DbWrite.detail_success detail = VBool false)
              (DbWrite.save_details results).
Proof.
  unfold DbWrite.batchSaveCompanies. rewrite bind_log.
  destruct (save_loop_fails pf (length companyRecords) companyRecords 0
              (DbWrite.mkSaveResults (length companyRecords) 0 0 [])
              (snd (log "Starting batch save" [LN (length companyRecords)] w)))
    as (r & w1 & E & Ht & Hs & Hf & added & Hd & Hix & Hnm & Hall).
  rewrite (bind_run _ _ _ _ _ E). run.
  cbn [DbWrite.save_total DbWrite.save_successful DbWrite.save_failed
       DbWrite.save_details] in *.
  eexists _, _. split; [reflexivity|]. rewrite Hd. cbn [app].
  repeat split; assumption.
Qed.

(** ** Worked examples *)

(** A line that ends with a carriage return is not read: the pattern ends a
    value at a line feed or at the end of the text only. A label followed
    by white space up to the end of the text reads as the empty string. *)
Example raw_fields_of_a_document :
  Rev1.extract_field Sample.crlf_doc "ACV" = (js "ACV", [])
  /\ Rev1.extract_field Sample.crlf_doc "Cash" = (js "Cash", js "7")
  /\ Rev1.extract_field Sample.crlf_doc "Runway" = (js "Runway", []).
Proof. vm_compute. repeat split; reflexivity. Qed.

(** The requests of a run on the sample document, which has no funding
    notes: the first revision skips the valuation stage, the second sends
    the whole text to all six stages. *)
Example requests_of_a_sample_run :
  let pf := Sample.stage_platform Sample.simple_reply Sample.primary_only_reply
              Sample.customer_reply Sample.churn_reply Sample.burn_reply
              Sample.valuation_reply Sample.acme_doc in
  map schemaName (fetched (snd (Rev1.parseCompanyFromDoc pf (js "doc1") Sample.w0)))
    = map js ["simple_fields_batch"; "acv_complexity_analysis";
              "customer_complexity_analysis"; "churn_temporal_conversion";
              "monthly_burn_normalization"]
  /\ fetched (snd (Rev2.parseCompanyFromDoc pf (js "doc1") Sample.w0))
      = rev2_requests Sample.acme_doc
  /\ length (rev2_requests Sample.acme_doc) = 6.
Proof. vm_compute. repeat split; reflexivity. Qed.

Example sanitize_untidy_record :
  DbWrite.sanitizeCompanyRecord Sample.offline Sample.untidy_record
  = [(js "id", VStr (js " x ")); (js "company_name", VStr (js "Acme"));
     (js "location", VNull); (js "description", VStr []);
     (js "acv", VNum 5000); (js "team_size", VNum 25)].
Proof. vm_compute. reflexivity. Qed.

(** The record of the test function passes the validation and is still not
    saved; the untidy record is rejected for its missing fields. *)
Example batch_save_of_two_records :
  passes Sample.offline Sample.test_company Sample.w0 = true
  /\ passes Sample.offline Sample.untidy_record Sample.w0 = false
  /\ option_map (fun r => (DbWrite.save_successful r, DbWrite.save_failed r,
                            map DbWrite.detail_error (DbWrite.save_details r)))
       (match fst (DbWrite.batchSaveCompanies Sample.offline
                     [Sample.test_company; Sample.untidy_record] Sample.w0) with
        | Ok r => Some r
        | Throw _ => None
        end)
     = Some (0, 2,
             [VStr (js "Error: Database connection not yet configured. Please implement database-specific insert.");
              VStr (js "Validation failed")]).
Proof. vm_compute. repeat split; reflexivity. Qed.
